(** * Verification of the deep-learning tutorial notebooks

    The notebooks are linear scripts over pandas and PyTorch.  Each part
    below embeds the cells of one notebook:

    - [Admissions]: StudentAdmissionsSolutions.ipynb (one-hot encoding of
      the rank, scaling of gre and gpa, the error term of the perceptron);
    - [Checkpoint]: the saving-and-loading notebook (state dicts, the
      checkpoint dictionary, [load_checkpoint]);
    - [Training]: the epoch/batch training loops of the training notebooks;
    - [Forward]: the forward pass of the classifiers of the training
      notebooks.

    Library calls (pandas, torch) are given the behaviour their outputs in
    the notebooks and their documentation show; the code of the cells is
    translated statement by statement on top of them. *)

From Stdlib Require Import ZArith QArith Qround List Lia Sorted Ascii String.
From stdpp Require Import base option gmap strings list fin_maps pretty.

Local Open Scope Z_scope.
Local Open Scope string_scope.
Local Open Scope list_scope.

(** ** Python exceptions and results *)

Module Py.

(** The exceptions the modelled calls can raise.  [KeyError key] is the
    one of a lookup by one label; [KeyErrorNoneOf keys] is the [KeyError] of
    a lookup by a list of labels none of which is there, whose message is
    "None of [Index([keys], ...)] are in the [columns]".  [RuntimeError] is
    the one [Module.load_state_dict] raises: it reports the missing keys,
    the unexpected keys and, for every parameter whose shape differs, the
    key with the shape in the checkpoint and the shape in the model.
    [ShapeError] is the [RuntimeError] of a matrix product of two shapes
    that do not agree. *)
Inductive exn : Type :=
| KeyError (key : string)
| KeyErrorNoneOf (keys : list string)
| IndexError
| TypeError
| ZeroDivisionError
| FileNotFoundError (path : string)
| RuntimeError (missing unexpected : list string)
               (size_mismatch : list (string * list nat * list nat))
| ShapeError (mat1 mat2 : list nat)
| NotModelled.

Inductive result (A : Type) : Type :=
| Ok (a : A)
| Raise (e : exn).

Arguments Ok {A} a.
Arguments Raise {A} e.

Definition is_Ok {A} (r : result A) : Prop :=
  match r with Ok _ => True | Raise _ => False end.

#[global] Instance result_ret : MRet result := fun A a => Ok a.
#[global] Instance result_bind : MBind result := fun A B f r =>
  match r with
  | Ok a => f a
  | Raise e => Raise e
  end.

End Py.

Import Py.

(** ** Student admissions notebook *)

Module Admissions.

(** *** The error term *)

Section ErrorTerm.

(** The arithmetic of the notebook is numpy's floating point arithmetic.
    The formula is embedded over any scalar type with a subtraction and a
    multiplication, so what is proved holds for float64 as for the
    rationals. *)
Context {num : Type} (sub mul : num -> num -> num).

(** [s * x] for a number [s] and an array [x]: numpy broadcasts the number
    over the components of the array. *)
Definition scalar_times_array (s : num) (x : list num) : list num :=
  map (mul s) x.

(** [def error_term_formula(x, y, output): return (y - output)*x] *)
Definition error_term_formula (x : list num) (y output : num) : list num :=
  scalar_times_array (sub y output) x.

End ErrorTerm.

(** *** Tables *)

(** A column of a data frame with its dtype: the admissions table has
    int64 columns (gre, rank, the label) and a float64 column (gpa).
    Floating point numbers are read as the rationals they denote. *)
Inductive series : Type :=
| Int64 (vs : list Z)
| Float64 (vs : list Q).

(** The content of a data frame: its columns in order, by name.  The frames
    of the notebook come from a CSV file and have unique column names; the
    operations below are those of pandas on such frames. *)
Abbreviation table := (list (string * series)).

Definition column_names (t : table) : list string := t.*1.

(** The values of a column as numbers. *)
Definition values (s : series) : list Q :=
  match s with
  | Int64 vs => map inject_Z vs
  | Float64 vs => vs
  end.

(** [t[c]]: the column named [c]; [KeyError] when there is none. *)
Fixpoint getitem (t : table) (c : string) : result series :=
  match t with
  | [] => Raise (KeyError c)
  | (c', s) :: t' => if decide (c' = c) then Ok s else getitem t' c
  end.

(** [t.drop(c, axis=1)]: the table without the columns named [c];
    [KeyError] when there is none. *)
Definition drop (t : table) (c : string) : result table :=
  if decide (c ∈ column_names t)
  then Ok (filter (fun col => col.1 ≠ c) t)
  else Raise (KeyError c).

(** [pd.concat(ts, axis=1)] of frames over the same rows: the columns of
    the frames, one frame after the other. *)
Definition concat_columns (ts : list table) : table := concat ts.

(** *** One-hot encoding *)

(** The levels of a column: its distinct values in increasing order. *)
Fixpoint insert_level (v : Z) (ls : list Z) : list Z :=
  match ls with
  | [] => [v]
  | w :: ls' =>
      if (v <? w)%Z then v :: ls
      else if (v =? w)%Z then ls
      else w :: insert_level v ls'
  end.

Definition levels (vs : list Z) : list Z := foldr insert_level [] vs.

(** The indicator column of level [v]: 1 in the rows whose value is [v], 0
    in the others.  (pandas stores the indicators as uint8 or, from 2.0 on,
    as bool; to Python's arithmetic both are the numbers 1 and 0.) *)
Definition indicator (v : Z) (vs : list Z) : list Z :=
  map (fun r => if decide (r = v) then 1 else 0) vs.

Definition dummy_name (prefix : string) (v : Z) : string :=
  prefix +:+ "_" +:+ pretty v.

(** [pd.get_dummies(s, prefix=prefix)]: one indicator column per level,
    named prefix_level.  Only integer columns are modelled (the name of a
    float level would need Python's printing of floats). *)
Definition get_dummies (s : series) (prefix : string) : result table :=
  match s with
  | Int64 vs =>
      Ok (map (fun v => (dummy_name prefix v, Int64 (indicator v vs))) (levels vs))
  | Float64 _ => Raise NotModelled
  end.

(** The first solution cell:
<<
one_hot_data = pd.concat([data, pd.get_dummies(data['rank'], prefix='rank')], axis=1)
one_hot_data = one_hot_data.drop('rank', axis=1)
>> *)
Definition one_hot_cell (data : table) : result table :=
  rank ← getitem data "rank";
  dummies ← get_dummies rank "rank";
  let one_hot_data := concat_columns [data; dummies] in
  drop one_hot_data "rank".

(** [t[[c]]]: the columns named in a list of one label, as a frame.  A
    lookup by a list of labels none of which is a column raises the
    [KeyError] that names the list. *)
Definition getitem_columns (t : table) (c : string) : result table :=
  match getitem t c with
  | Ok s => Ok [(c, s)]
  | Raise _ => Raise (KeyErrorNoneOf [c])
  end.

(** [pd.get_dummies(data, columns=cols)] for one column: pandas takes
    [data[cols]] to encode; the result is the frame without the encoded
    column, followed by its dummies (the prefix is the name of the
    column). *)
Definition get_dummies_columns (data : table) (col : string) : result table :=
  data_to_encode ← getitem_columns data col;
  s ← getitem data_to_encode col;
  rest ← drop data col;
  dummies ← get_dummies s col;
  mret (concat_columns [rest; dummies]).

(** The alternative solution cell:
    [one_hot_data = pd.get_dummies(data, columns=['rank'])] *)
Definition one_hot_cell_alt (data : table) : result table :=
  get_dummies_columns data "rank".

(** *** Data frames as objects

    The scaling cell assigns to columns of a frame obtained from another
    frame, so frames are modelled as objects of a heap: a frame object holds
    its column table, which maps each column name to the address of the
    array with the values of the column.  Two frames may share arrays. *)

Abbreviation loc := positive.

Inductive obj : Type :=
| OFrame (cols : list (string * loc))
| OArray (s : series).

Abbreviation heap := (gmap loc obj).

(** Computations on the heap that may raise. *)
Definition M (A : Type) : Type := heap -> result (A * heap).

#[global] Instance M_ret : MRet M := fun A a h => Ok (a, h).
#[global] Instance M_bind : MBind M := fun A B f m h =>
  match m h with
  | Ok (a, h') => f a h'
  | Raise e => Raise e
  end.

Definition raise {A} (e : exn) : M A := fun _ => Raise e.

(** A new object, at an address not in use. *)
Definition alloc (o : obj) : M loc := fun h =>
  let l := fresh (dom h) in Ok (l, <[l:=o]> h).

Definition get_frame (df : loc) : M (list (string * loc)) := fun h =>
  match h !! df with
  | Some (OFrame cols) => Ok (cols, h)
  | _ => Raise TypeError
  end.

Definition get_array (a : loc) : M series := fun h =>
  match h !! a with
  | Some (OArray s) => Ok (s, h)
  | _ => Raise TypeError
  end.

Definition put (l : loc) (o : obj) : M unit := fun h => Ok ((), <[l:=o]> h).

(** The address bound to a column name in a column table. *)
Fixpoint col_lookup (cols : list (string * loc)) (c : string) : option loc :=
  match cols with
  | [] => None
  | (c', a) :: cols' => if decide (c' = c) then Some a else col_lookup cols' c
  end.

(** Rebinding a column: an existing column keeps its place, a new one goes
    last. *)
Fixpoint col_set (cols : list (string * loc)) (c : string) (a : loc)
  : list (string * loc) :=
  match cols with
  | [] => [(c, a)]
  | (c', a') :: cols' =>
      if decide (c' = c) then (c, a) :: cols' else (c', a') :: col_set cols' c a
  end.

(** [df[:]]: a new frame object over the same rows.  Its column table is
    its own; the arrays are those of [df] (a slice is a view). *)
Definition frame_slice_all (df : loc) : M loc :=
  cols ← get_frame df;
  alloc (OFrame cols).

(** [df[c]]: the column as a series over the array of the frame. *)
Definition frame_getitem (df : loc) (c : string) : M loc :=
  cols ← get_frame df;
  match col_lookup cols c with
  | Some a => mret a
  | None => raise (KeyError c)
  end.

(** [2 ^ z] as a rational, for any integer [z]. *)
Definition two_to (z : Z) : Q :=
  if (0 <=? z)%Z then inject_Z (2 ^ z) else 1 # Z.to_pos (2 ^ (- z)).

(** The integer nearest to [x], the even one of the two when [x] is half
    way between them. *)
Definition round_half_even (x : Q) : Z :=
  let f := Qfloor x in
  match (x - inject_Z f ?= 1 # 2)%Q with
  | Lt => f
  | Gt => (f + 1)%Z
  | Eq => if Z.even f then f else (f + 1)%Z
  end.

(** The exponent of the binade of [q > 0]: the [e] with
    [2 ^ e <= q < 2 ^ (e + 1)]. *)
Definition binade (q : Q) : Z :=
  let e0 := (Z.log2 (Qnum q) - Z.log2 (Zpos (Qden q)))%Z in
  if Qlt_le_dec q (two_to e0) then (e0 - 1)%Z else e0.

(** The float64 number a real result is rounded to: to 53 significant bits
    (to a multiple of [2 ^ -1074] in the subnormal range), to nearest, ties
    to even.  Results beyond the largest float64 number (which round to an
    infinity) do not arise in the cells modelled: they divide an int64 or a
    float64 number by 800 and by 4. *)
Definition float64 (q : Q) : Q :=
  match Qnum q with
  | Z0 => 0%Q
  | Zpos _ =>
      let u := two_to (Z.max (binade q - 52) (-1074)) in
      (inject_Z (round_half_even (q / u)) * u)%Q
  | Zneg _ =>
      let u := two_to (Z.max (binade (- q) - 52) (-1074)) in
      (- (inject_Z (round_half_even (- q / u)) * u))%Q
  end.

(** The values of a column as float64 numbers: an int64 is converted (and
    rounded, beyond 53 bits). *)
Definition as_float64 (s : series) : list Q :=
  match s with
  | Int64 vs => map (fun z => float64 (inject_Z z)) vs
  | Float64 vs => vs
  end.

(** [s / d] on the values, for a divisor other than zero (the cell divides
    by 800 and by 4.0): true division of float64 numbers, each quotient
    rounded to float64. *)
Definition truediv (s : series) (d : Q) : series :=
  Float64 (map (fun v => float64 (v / d)) (as_float64 s)).

(** [s / d]: a new series, in an array of its own. *)
Definition series_truediv (s : loc) (d : Q) : M loc :=
  vs ← get_array s;
  alloc (OArray (truediv vs d)).

(** [df[c] = s]: the values of [s] are copied to a new array, and the
    column table of [df] binds [c] to it.  The array that [c] was bound to
    is not written to; other frames that hold it still see its values.
    (This is column assignment as pandas 2 does it, the pandas of the
    Python 3.12 kernel of the notebook.) *)
Definition frame_setitem (df : loc) (c : string) (s : loc) : M unit :=
  cols ← get_frame df;
  vs ← get_array s;
  a ← alloc (OArray vs);
  put df (OFrame (col_set cols c a)).

(** The scaling cell:
<<
processed_data = one_hot_data[:]
processed_data['gre'] = processed_data['gre']/800
processed_data['gpa'] = processed_data['gpa']/4.0
>> *)
Definition scaling_cell (one_hot_data : loc) : M loc :=
  processed_data ← frame_slice_all one_hot_data;
  gre ← frame_getitem processed_data "gre";
  gre_scaled ← series_truediv gre 800;
  _ ← frame_setitem processed_data "gre" gre_scaled;
  gpa ← frame_getitem processed_data "gpa";
  gpa_scaled ← series_truediv gpa 4;
  _ ← frame_setitem processed_data "gpa" gpa_scaled;
  mret processed_data.

(** The content of the frame at [df], read through the heap. *)
Definition read_column (h : heap) (col : string * loc) : option (string * series) :=
  match h !! col.2 with
  | Some (OArray s) => Some (col.1, s)
  | _ => None
  end.

Definition read_frame (h : heap) (df : loc) : option table :=
  match h !! df with
  | Some (OFrame cols) => mapM (read_column h) cols
  | _ => None
  end.

(** Rebinding a column in a table, as [col_set] does in a column table. *)
Fixpoint table_set (t : table) (c : string) (s : series) : table :=
  match t with
  | [] => [(c, s)]
  | (c', s') :: t' =>
      if decide (c' = c) then (c, s) :: t' else (c', s') :: table_set t' c s
  end.

(** The cell with [processed_data = one_hot_data] in place of the slice:
    both names then denote one frame object. *)
Definition scaling_cell_aliased (one_hot_data : loc) : M loc :=
  let processed_data := one_hot_data in
  gre ← frame_getitem processed_data "gre";
  gre_scaled ← series_truediv gre 800;
  _ ← frame_setitem processed_data "gre" gre_scaled;
  gpa ← frame_getitem processed_data "gpa";
  gpa_scaled ← series_truediv gpa 4;
  _ ← frame_setitem processed_data "gpa" gpa_scaled;
  mret processed_data.

(** *** Example data *)

(** The gpa values 3.61, 3.67 and 4.0 of the first rows of the admissions
    file, as float64 numbers. *)
Definition example_gpa : list Q := [float64 (361 # 100); float64 (367 # 100); 4%Q].

Definition example_data : table :=
  [ ("y", Int64 [0; 1; 1]);
    ("gre", Int64 [380; 660; 800]);
    ("gpa", Float64 example_gpa);
    ("rank", Int64 [3; 3; 1]) ].

Definition example_heap : heap :=
  {[ 1%positive := OFrame [("gre", 2%positive); ("gpa", 3%positive); ("rank_1", 4%positive)];
     2%positive := OArray (Int64 [380; 660; 800]);
     3%positive := OArray (Float64 example_gpa);
     4%positive := OArray (Int64 [0; 0; 1]) ]}.

End Admissions.

(** ** Saving and loading models *)

Module Checkpoint.

Local Open Scope nat_scope.

(** *** Tensors, layers and the network *)

(** A tensor: its shape ([torch.Size]) and its entries.  The entries are
    floating point numbers, read as the rationals they denote; saving and
    loading copy them and never compute with them. *)
Record tensor : Type := Tensor { shape : list nat; data : list Q }.

(** [nn.Linear(in_features, out_features)]: a weight of shape
    [out_features, in_features] and a bias of shape [out_features]. *)
Record Linear : Type := {
  in_features : nat;
  out_features : nat;
  weight : tensor;
  bias : tensor
}.

(** Modelled from the spec: [fc_model.Network], the fully-connected
    classifier the notebook builds and reloads, is defined in fc_model.py,
    which is not among the sources.  The spec describes it as a
    linear-layer-based model; its structure is taken from what the notebook
    prints for it: a list [hidden_layers] of [Linear] layers, an [output]
    layer, and a dropout of fixed rate that has no parameters. *)
Record Network : Type := {
  hidden_layers : list Linear;
  output : Linear
}.

(** The values a new parameter starts from, by the shape of the parameter
    and the number of parameters created before it.  Any trained network is
    reached from some such values. *)
Definition initializer : Type := nat -> list nat -> list Q.

Definition Linear_init (init : initializer) (k i o : nat) : Linear :=
  {| in_features := i;
     out_features := o;
     weight := {| shape := [o; i]; data := init (2 * k) [o; i] |};
     bias := {| shape := [o]; data := init (2 * k + 1) [o] |} |}.

(** The layers after the first: one [Linear(h1, h2)] for each pair of
    consecutive sizes. *)
Fixpoint more_hidden (init : initializer) (k h1 : nat) (hs : list nat) : list Linear :=
  match hs with
  | [] => []
  | h2 :: hs' => Linear_init init k h1 h2 :: more_hidden init (S k) h2 hs'
  end.

(** Modelled from the spec: the constructor
    [fc_model.Network(input_size, output_size, hidden_layers)] of
    fc_model.py, which is not among the sources.  As the printed networks
    show, the first hidden layer maps [input_size] to the first hidden size,
    each further one maps a hidden size to the next, and [output] maps the
    last hidden size to [output_size].  An empty list of hidden sizes has no
    first element: [IndexError]. *)
Definition Network_init (init : initializer)
    (input_size output_size : nat) (hidden : list nat) : result Network :=
  match hidden with
  | [] => Raise IndexError
  | h0 :: hs =>
      Ok {| hidden_layers := Linear_init init 0 input_size h0 :: more_hidden init 1 h0 hs;
            output := Linear_init init (S (length hs)) (List.last hidden h0) output_size |}
  end.

(** The sizes a network was built with. *)
Record arch : Type := Arch {
  input_size : nat;
  output_size : nat;
  hidden_sizes : list nat
}.

Definition arch_of (m : Network) : arch :=
  {| input_size := match hidden_layers m with l :: _ => in_features l | [] => 0 end;
     output_size := out_features (output m);
     hidden_sizes := map out_features (hidden_layers m) |}.

(** Networks as the constructor builds them and training keeps them: the
    shapes of the parameters follow the sizes, and each layer takes what the
    layer before it gives. *)
Definition linear_ok (l : Linear) : bool :=
  bool_decide (shape (weight l) = [out_features l; in_features l])
  && bool_decide (shape (bias l) = [out_features l]).

Fixpoint chain_ok (inp : nat) (ls : list Linear) : bool :=
  match ls with
  | [] => true
  | l :: ls' => bool_decide (in_features l = inp) && linear_ok l && chain_ok (out_features l) ls'
  end.

Definition well_formed (m : Network) : bool :=
  match hidden_layers m with
  | [] => false
  | l0 :: _ =>
      chain_ok (in_features l0) (hidden_layers m)
      && linear_ok (output m)
      && bool_decide (in_features (output m) = List.last (map out_features (hidden_layers m)) 0)
  end.

(** *** State dicts *)

(** An ordered dictionary from parameter names to tensors. *)
Abbreviation state_dict_t := (list (string * tensor)).

Definition keys (sd : state_dict_t) : list string := sd.*1.

Fixpoint sd_lookup (sd : state_dict_t) (k : string) : option tensor :=
  match sd with
  | [] => None
  | (k', t) :: sd' => if decide (k' = k) then Some t else sd_lookup sd' k
  end.

Definition linear_state (prefix : string) (l : Linear) : state_dict_t :=
  [ (prefix +:+ "weight", weight l); (prefix +:+ "bias", bias l) ].

Definition hidden_prefix (i : nat) : string :=
  "hidden_layers." +:+ pretty i +:+ ".".

Fixpoint hidden_state (i : nat) (ls : list Linear) : state_dict_t :=
  match ls with
  | [] => []
  | l :: ls' => linear_state (hidden_prefix i) l ++ hidden_state (S i) ls'
  end.

(** [model.state_dict()]: the weight and the bias of each hidden layer, then
    those of the output layer, under the names the notebook prints
    (hidden_layers.0.weight, hidden_layers.0.bias, ..., output.weight,
    output.bias). *)
Definition state_dict (m : Network) : state_dict_t :=
  hidden_state 0 (hidden_layers m) ++ linear_state "output." (output m).

(** What loading one parameter reports. *)
Record report : Type := {
  missing : list string;
  mismatched : list (string * list nat * list nat)
}.

Definition no_report : report := {| missing := []; mismatched := [] |}.

Definition report_app (r1 r2 : report) : report :=
  {| missing := missing r1 ++ missing r2;
     mismatched := mismatched r1 ++ mismatched r2 |}.

(** Loading the parameter named [key]: when the state dict has the key and
    the shapes agree the entries are copied into the parameter; a different
    shape is reported with the shape in the checkpoint and the shape in the
    model; an absent key is reported as missing. *)
Definition load_param (sd : state_dict_t) (key : string) (p : tensor) : tensor * report :=
  match sd_lookup sd key with
  | Some t =>
      if decide (shape t = shape p)
      then ({| shape := shape p; data := data t |}, no_report)
      else (p, {| missing := []; mismatched := [(key, shape t, shape p)] |})
  | None => (p, {| missing := [key]; mismatched := [] |})
  end.

Definition load_linear (sd : state_dict_t) (prefix : string) (l : Linear) : Linear * report :=
  let '(w, rw) := load_param sd (prefix +:+ "weight") (weight l) in
  let '(b, rb) := load_param sd (prefix +:+ "bias") (bias l) in
  ({| in_features := in_features l; out_features := out_features l;
      weight := w; bias := b |}, report_app rw rb).

Fixpoint load_hidden (sd : state_dict_t) (i : nat) (ls : list Linear) : list Linear * report :=
  match ls with
  | [] => ([], no_report)
  | l :: ls' =>
      let '(l1, r1) := load_linear sd (hidden_prefix i) l in
      let '(ls1, r2) := load_hidden sd (S i) ls' in
      (l1 :: ls1, report_app r1 r2)
  end.

(** [model.load_state_dict(state_dict)] (strict): every parameter of the
    model is loaded by name; keys of the state dict that name no parameter
    of the model are unexpected.  Any missing key, unexpected key or shape
    mismatch makes the call raise [RuntimeError] with all of them; otherwise
    all keys matched. *)
Definition load_state_dict (m : Network) (sd : state_dict_t) : result Network :=
  let '(hs, rh) := load_hidden sd 0 (hidden_layers m) in
  let '(out, ro) := load_linear sd "output." (output m) in
  let r := report_app rh ro in
  let unexpected := filter (fun k => k ∉ keys (state_dict m)) (keys sd) in
  match missing r, unexpected, mismatched r with
  | [], [], [] => Ok {| hidden_layers := hs; output := out |}
  | _, _, _ => Raise (RuntimeError (missing r) unexpected (mismatched r))
  end.

(** *** Files *)

(** The Python values the notebook puts in a pickled dictionary: integers,
    lists of integers, tensors and state dicts. *)
Inductive value : Type :=
| VInt (n : nat)
| VIntList (l : list nat)
| VTensor (t : tensor)
| VStateDict (sd : state_dict_t).

(** A dictionary with string keys, in insertion order.  Both things the
    notebook saves are dictionaries: a state dict maps names to tensors, a
    checkpoint maps four names to the sizes and the state dict. *)
Abbreviation pydict := (list (string * value)).

(** The files, by path.  [torch.save] serialises a dictionary to a file and
    [torch.load] reads it back. *)
Abbreviation files := (gmap string pydict).

Definition torch_save (d : pydict) (path : string) (fs : files) : files :=
  <[path := d]> fs.

Definition torch_load (fs : files) (path : string) : result pydict :=
  match fs !! path with
  | Some d => Ok d
  | None => Raise (FileNotFoundError path)
  end.

(** [d[k]]: [KeyError] when [d] has no key [k]. *)
Fixpoint subscript (d : pydict) (k : string) : result value :=
  match d with
  | [] => Raise (KeyError k)
  | (k', v) :: d' => if decide (k' = k) then Ok v else subscript d' k
  end.

Definition as_int (v : value) : result nat :=
  match v with VInt n => Ok n | _ => Raise TypeError end.

Definition as_int_list (v : value) : result (list nat) :=
  match v with VIntList l => Ok l | _ => Raise TypeError end.

(** A loaded dictionary used as a state dict: its values must be tensors. *)
Fixpoint as_tensors (d : pydict) : result state_dict_t :=
  match d with
  | [] => Ok []
  | (k, VTensor t) :: d' => sd ← as_tensors d'; mret ((k, t) :: sd)
  | _ => Raise TypeError
  end.

Definition as_state_dict (v : value) : result state_dict_t :=
  match v with VStateDict sd => Ok sd | _ => Raise TypeError end.

Definition of_state_dict (sd : state_dict_t) : pydict :=
  map (fun kt => (kt.1, VTensor kt.2)) sd.

(** *** The cells *)

(** [torch.save(model.state_dict(), 'checkpoint.pth')] *)
Definition save_state_dict_cell (model : Network) (fs : files) : files :=
  torch_save (of_state_dict (state_dict model)) "checkpoint.pth" fs.

(** [state_dict = torch.load('checkpoint.pth')] *)
Definition load_state_dict_cell (fs : files) : result state_dict_t :=
  d ← torch_load fs "checkpoint.pth";
  as_tensors d.

(** The checkpoint cell:
<<
checkpoint = {'input_size': 784,
              'output_size': 10,
              'hidden_layers': [each.out_features for each in model.hidden_layers],
              'state_dict': model.state_dict()}
torch.save(checkpoint, 'checkpoint.pth')
>> *)
Definition checkpoint_of (model : Network) : pydict :=
  [ ("input_size", VInt 784);
    ("output_size", VInt 10);
    ("hidden_layers", VIntList (map out_features (hidden_layers model)));
    ("state_dict", VStateDict (state_dict model)) ].

Definition save_checkpoint_cell (model : Network) (fs : files) : files :=
  torch_save (checkpoint_of model) "checkpoint.pth" fs.

(**
<<
def load_checkpoint(filepath):
    checkpoint = torch.load(filepath)
    model = fc_model.Network(checkpoint['input_size'],
                             checkpoint['output_size'],
                             checkpoint['hidden_layers'])
    model.load_state_dict(checkpoint['state_dict'])
    return model
>>
    [init] gives the values the new network starts from. *)
Definition load_checkpoint (init : initializer) (fs : files) (filepath : string)
  : result Network :=
  checkpoint ← torch_load fs filepath;
  input_size ← subscript checkpoint "input_size" ≫= as_int;
  output_size ← subscript checkpoint "output_size" ≫= as_int;
  hidden ← subscript checkpoint "hidden_layers" ≫= as_int_list;
  model ← Network_init init input_size output_size hidden;
  sd ← subscript checkpoint "state_dict" ≫= as_state_dict;
  load_state_dict model sd.

(** *** Notions used to state what loading does *)

(** A string without a dot, as the decimal numbers in parameter names. *)
Fixpoint no_dot (s : string) : Prop :=
  match s with
  | EmptyString => True
  | String c s' => c ≠ "."%char /\ no_dot s'
  end.

(** The two parameters of a layer. *)
Inductive pname : Type := PWeight | PBias.
Definition pname_str (w : pname) : string :=
  match w with PWeight => "weight" | PBias => "bias" end.
Definition pname_get (w : pname) (l : Linear) : tensor :=
  match w with PWeight => weight l | PBias => bias l end.

(** What loading the parameters [ps] of a model from [sd] reports. *)
Definition mismatch_of (sd : state_dict_t) (kp : string * tensor)
  : option (string * list nat * list nat) :=
  match sd_lookup sd kp.1 with
  | Some t => if decide (shape t = shape kp.2) then None else Some (kp.1, shape t, shape kp.2)
  | None => None
  end.

Definition report_of (sd ps : state_dict_t) : report :=
  {| missing := filter (fun k => k ∉ keys sd) (keys ps);
     mismatched := omap (mismatch_of sd) ps |}.

Definition unexpected_keys (m : Network) (sd : state_dict_t) : list string :=
  filter (fun k => k ∉ keys (state_dict m)) (keys sd).

(** A checkpoint dictionary of [model] that records [i] and [o] as its
    sizes; the checkpoint cell writes [checkpoint_with 784 10 model]. *)
Definition checkpoint_with (i o : nat) (model : Network) : pydict :=
  [ ("input_size", VInt i);
    ("output_size", VInt o);
    ("hidden_layers", VIntList (map out_features (hidden_layers model)));
    ("state_dict", VStateDict (state_dict model)) ].

(** Two layers of the same sizes. *)
Definition same_sizes (l1 l2 : Linear) : Prop :=
  in_features l1 = in_features l2 /\ out_features l1 = out_features l2 /\
  shape (weight l1) = shape (weight l2) /\ shape (bias l1) = shape (bias l2).

(** *** Example networks *)

Definition zeros : initializer := fun _ sh => replicate (foldr Nat.mul 1 sh) 0%Q.
Definition ramp : initializer :=
  fun k sh => map (fun j => inject_Z (Z.of_nat (k + j))) (seq 0 (foldr Nat.mul 1 sh)).

Definition network_of (init : initializer) (a : arch) : Network :=
  match Network_init init (input_size a) (output_size a) (hidden_sizes a) with
  | Ok m => m
  | Raise _ => {| hidden_layers := []; output := Linear_init init 0 0 0 |}
  end.

Definition small_arch : arch := Arch 3 2 [4; 2].
Definition other_arch : arch := Arch 3 2 [5; 2].
Definition mnist_arch : arch := Arch 784 10 [2; 1].

Definition one_hidden : Network := network_of zeros (Arch 3 2 [4]).
Definition two_hidden : Network := network_of ramp (Arch 3 2 [4; 4]).

End Checkpoint.

(** ** Training loops *)

Module Training.

Local Open Scope nat_scope.

(** A statement of a cell: it acts on the state of the run and returns a
    value or raises; what was done before an exception stays done. *)
Definition cell (S A : Type) : Type := S -> result A * S.

#[global] Instance cell_ret {S} : MRet (cell S) := fun A a st => (Ok a, st).
#[global] Instance cell_bind {S} : MBind (cell S) := fun A B f m st =>
  match m st with
  | (Ok a, st') => f a st'
  | (Raise e, st') => (Raise e, st')
  end.

(** A call that does not act on the state. *)
Definition pure_call {S A} (r : result A) : cell S A := fun st => (r, st).

Section Loop.

(** The training cells call the view of a batch, the model, the criterion,
    autograd and the optimizer.  These are PyTorch's; the loops are embedded
    over any deterministic implementation of them.  Each of the calls can
    raise (a batch of a shape the network does not take, labels the
    criterion does not take, ...): it returns a result.  [scalar] is the
    type of Python floats with its own addition and division. *)
Context {params grads opt_state images labels logits scalar : Type}.

Context
  (flatten : images -> result images)
  (forward : params -> images -> result logits)
  (criterion : logits -> labels -> result scalar)
  (gradient : params -> images -> labels -> result grads)
  (accumulate : grads -> grads -> grads)
  (update : opt_state -> params -> option grads -> result (opt_state * params))
  (zero : scalar)
  (add : scalar -> scalar -> scalar)
  (div : scalar -> nat -> scalar).

(** What a run does, in order: the calls to the library that returned and
    the lines it prints. *)
Inductive event : Type :=
| EZeroGrad
| EForward (x : images) (o : logits)
| ELoss (o : logits) (y : labels) (l : scalar)
| EBackward
| EStep
| EPrint (v : scalar).

(** The state a run acts on: the parameters of the model, their [.grad]
    ([None] until a backward pass fills it and after it is zeroed), the
    state of the optimizer, the lines printed ("Training loss: v", by their
    value [v]) and the record of what the run did so far. *)
Record state : Type := {
  model : params;
  grad : option grads;
  optimizer : opt_state;
  stdout : list scalar;
  trace : list event
}.

(** The output of the model and the loss remember what they were computed
    from: the backward pass differentiates through it. *)
Record output_t : Type := { value_of : logits; from_params : params; from_images : images }.
Record loss_t : Type := { item : scalar; of_output : output_t; of_labels : labels }.

Definition log (ev : event) (st : state) : state :=
  {| model := model st; grad := grad st; optimizer := optimizer st;
     stdout := stdout st; trace := trace st ++ [ev] |}.

(** [images.view(images.shape[0], -1)] *)
Definition call_view (x : images) : cell state images := pure_call (flatten x).

(** [optimizer.zero_grad()] *)
Definition zero_grad : cell state unit := fun st =>
  (Ok (),
   log EZeroGrad
     {| model := model st; grad := None; optimizer := optimizer st;
        stdout := stdout st; trace := trace st |}).

(** [model(images)] *)
Definition call_model (x : images) : cell state output_t := fun st =>
  match forward (model st) x with
  | Ok o =>
      (Ok {| value_of := o; from_params := model st; from_images := x |},
       log (EForward x o) st)
  | Raise e => (Raise e, st)
  end.

(** [criterion(output, labels)] *)
Definition call_criterion (o : output_t) (y : labels) : cell state loss_t := fun st =>
  match criterion (value_of o) y with
  | Ok l =>
      (Ok {| item := l; of_output := o; of_labels := y |},
       log (ELoss (value_of o) y l) st)
  | Raise e => (Raise e, st)
  end.

(** [loss.backward()]: the gradient of the loss in the parameters it was
    computed from is added to [.grad]. *)
Definition backward (loss : loss_t) : cell state unit := fun st =>
  match gradient (from_params (of_output loss)) (from_images (of_output loss))
          (of_labels loss) with
  | Ok g =>
      (Ok (),
       log EBackward
         {| model := model st;
            grad := Some (match grad st with None => g | Some g0 => accumulate g0 g end);
            optimizer := optimizer st; stdout := stdout st; trace := trace st |})
  | Raise e => (Raise e, st)
  end.

(** [optimizer.step()] *)
Definition step : cell state unit := fun st =>
  match update (optimizer st) (model st) (grad st) with
  | Ok (o, p) =>
      (Ok (),
       log EStep
         {| model := p; grad := grad st; optimizer := o;
            stdout := stdout st; trace := trace st |})
  | Raise e => (Raise e, st)
  end.

(** [print(f"Training loss: {v}")] *)
Definition print (v : scalar) : cell state unit := fun st =>
  (Ok (),
   log (EPrint v)
     {| model := model st; grad := grad st; optimizer := optimizer st;
        stdout := stdout st ++ [v]; trace := trace st |}).

(** The body of the batch loop of the training notebook:
<<
images = images.view(images.shape[0], -1)
optimizer.zero_grad()
output = model(images)
loss = criterion(output, labels)
loss.backward()
optimizer.step()
running_loss += loss.item()
>>
    It returns [loss.item()]. *)
Definition training_pass (b : images * labels) : cell state scalar :=
  let '(images, labels) := b in
  images ← call_view images;
  _ ← zero_grad;
  output ← call_model images;
  loss ← call_criterion output labels;
  _ ← backward loss;
  _ ← step;
  mret (item loss).

(** The body of the batch loop of the Fashion-MNIST notebook:
<<
log_ps = model(images)
loss = criterion(log_ps, labels)
optimizer.zero_grad()
loss.backward()
optimizer.step()
running_loss += loss.item()
>> *)
Definition training_pass_fashion (b : images * labels) : cell state scalar :=
  let '(images, labels) := b in
  log_ps ← call_model images;
  loss ← call_criterion log_ps labels;
  _ ← zero_grad;
  _ ← backward loss;
  _ ← step;
  mret (item loss).

(** A [DataLoader]: [batches e] is the sequence of batches its [e]-th
    iteration yields (the loader shuffles, so iterations differ), and
    [len], its [__len__], is the number of batches of an iteration. *)
Record DataLoader : Type := {
  batches : nat -> list (images * labels);
  len : nat;
  len_batches : forall e, length (batches e) = len
}.

(** [x / n] for a float (or the integer 0) [x] and an integer [n]. *)
Definition truediv (x : scalar) (n : nat) : result scalar :=
  match n with
  | 0 => Raise ZeroDivisionError
  | S _ => Ok (div x n)
  end.

Section WithPass.

Variable pass : images * labels -> cell state scalar.

(** [for images, labels in trainloader: ...; running_loss += loss.item()] *)
Fixpoint batch_loop (bs : list (images * labels)) (running_loss : scalar)
  : cell state scalar :=
  match bs with
  | [] => mret running_loss
  | b :: bs' =>
      l ← pass b;
      batch_loop bs' (add running_loss l)
  end.

(** One epoch:
<<
running_loss = 0
for images, labels in trainloader:
    ...
else:
    print(f"Training loss: {running_loss/len(trainloader)}")
>>
    The loop has no [break], so its [else] branch runs when the batches are
    exhausted. *)
Definition epoch (trainloader : DataLoader) (e : nat) : cell state unit :=
  let running_loss := zero in
  running_loss ← batch_loop (batches trainloader e) running_loss;
  v ← pure_call (truediv running_loss (len trainloader));
  print v.

(** [for e in range(epochs): ...], from epoch [e] on, [n] epochs to go.  An
    exception ends the run in the state it was raised in. *)
Fixpoint epochs_from (trainloader : DataLoader) (e n : nat) : cell state unit :=
  match n with
  | 0 => mret ()
  | S n' =>
      _ ← epoch trainloader e;
      epochs_from trainloader (S e) n'
  end.

Definition run (epochs : nat) (trainloader : DataLoader) : cell state unit :=
  epochs_from trainloader 0 epochs.

End WithPass.

(** The training cell of the training notebooks (gradients zeroed first). *)
Definition train : nat -> DataLoader -> cell state unit :=
  run training_pass.

(** The training cell of the Fashion-MNIST notebook (gradients zeroed after
    the loss is computed). *)
Definition train_fashion : nat -> DataLoader -> cell state unit :=
  run training_pass_fashion.

(** The calls of one training pass that fed [x] to the model, got the
    output [o] and the loss [l] for the labels [y]. *)
Definition pass_events (x : images) (o : logits) (y : labels) (l : scalar) : list event :=
  [EZeroGrad; EForward x o; ELoss o y l; EBackward; EStep].

Definition pass_events_fashion (x : images) (o : logits) (y : labels) (l : scalar)
  : list event :=
  [EForward x o; ELoss o y l; EZeroGrad; EBackward; EStep].

Section Batches.

(** [prep] is what a pass does to the images before it calls the model:
    [flatten] in the training notebook, nothing in the Fashion-MNIST one. *)
Variable prep : images -> result images.
Variable events_of : images -> logits -> labels -> scalar -> list event.

(** The library takes the batch [b]: whatever the parameters, the view,
    the model, the criterion and the backward pass return. *)
Definition accepts (b : images * labels) : Prop :=
  exists x, prep b.1 = Ok x /\
    forall p, exists o l g,
      forward p x = Ok o /\ criterion o b.2 = Ok l /\ gradient p x b.2 = Ok g.

(** The calls [evs] are those of a pass on the batch [b]. *)
Definition pass_record (b : images * labels) (evs : list event) : Prop :=
  exists p x o l,
    prep b.1 = Ok x /\ forward p x = Ok o /\ criterion o b.2 = Ok l /\
    evs = events_of x o b.2 l.

(** The exception [e] is raised by a call of a pass on the batch [b]. *)
Definition raised_by (b : images * labels) (e : exn) : Prop :=
  prep b.1 = Raise e \/
  exists x, prep b.1 = Ok x /\
    ((exists p, forward p x = Raise e) \/
     (exists p o, forward p x = Ok o /\ criterion o b.2 = Raise e) \/
     (exists p, gradient p x b.2 = Raise e) \/
     (exists o p g, update o p (Some g) = Raise e)).

End Batches.

(** The optimizer step returns, whatever the gradients. *)
Definition steps : Prop := forall o p g, is_Ok (update o p (Some g)).

(** The kinds of calls, to count calls by. *)
Inductive kind : Type := KZeroGrad | KForward | KLoss | KBackward | KStep.

Definition is_kind (k : kind) (ev : event) : bool :=
  match k, ev with
  | KZeroGrad, EZeroGrad
  | KForward, EForward _ _
  | KLoss, ELoss _ _ _
  | KBackward, EBackward
  | KStep, EStep => true
  | _, _ => false
  end.

Definition count (k : kind) (evs : list event) : nat :=
  length (filter (fun ev => is_kind k ev = true) evs).

(** The sum of the losses a loop adds up, in the order it adds them. *)
Definition sum_losses (ls : list scalar) : scalar := fold_left add ls zero.

(** The losses a sequence of calls evaluates. *)
Definition losses_of (evs : list event) : list scalar :=
  omap (fun ev => match ev with ELoss _ _ l => Some l | _ => None end) evs.

(** The value an epoch prints after the calls [seg] of its batches: the sum
    of their losses divided by the number [n] of batches. *)
Definition mean_loss (seg : list event) (n : nat) : scalar :=
  div (sum_losses (losses_of seg)) n.

(** The record of an epoch: the calls of its batches, then the line. *)
Definition epoch_events (seg : list event) (n : nat) : list event :=
  seg ++ [EPrint (mean_loss seg n)].

End Loop.

(** *** An instance: a one-parameter model trained by gradient descent

    A batch is a list of numbers; the model takes batches of one number
    and raises the shape error of a matrix product on any other.  Losses are
    Python floats: sums and quotients are rounded to float64. *)

Definition toy_flatten (x : list Z) : result (list Z) := Ok (map Z.abs x).

Definition toy_forward (p : Z) (x : list Z) : result Z :=
  match x with
  | [a] => Ok (p * a)%Z
  | _ => Raise (ShapeError [1; length x] [1; 1])
  end.

Definition toy_criterion (o y : Z) : result Q := Ok (inject_Z ((o - y) * (o - y))).

Definition toy_gradient (p : Z) (x : list Z) (y : Z) : result Z :=
  match x with
  | [a] => Ok (2 * (p * a - y) * a)%Z
  | _ => Raise (ShapeError [1; length x] [1; 1])
  end.

Definition toy_update (o : unit) (p : Z) (g : option Z) : result (unit * Z) :=
  Ok (o, match g with Some g => (p - g)%Z | None => p end).

Definition toy_add (x y : Q) : Q := Admissions.float64 (x + y).

Definition toy_div (x : Q) (n : nat) : Q :=
  Admissions.float64 (x / Admissions.float64 (inject_Z (Z.of_nat n))).

Definition toy_state : state (params := Z) (grads := Z) (opt_state := unit)
    (images := list Z) (labels := Z) (logits := Z) (scalar := Q) :=
  {| model := 1%Z; grad := None; optimizer := (); stdout := []; trace := [] |}.

Definition toy_loader : DataLoader (images := list Z) (labels := Z) :=
  {| batches := fun e => [([1%Z], 2%Z); ([Z.of_nat e], 0%Z)];
     len := 2;
     len_batches := fun _ => eq_refl |}.

Definition empty_loader : DataLoader (images := list Z) (labels := Z) :=
  {| batches := fun _ => []; len := 0; len_batches := fun _ => eq_refl |}.

(** A loader whose second batch the model does not take. *)
Definition ragged_loader : DataLoader (images := list Z) (labels := Z) :=
  {| batches := fun _ => [([1%Z], 2%Z); ([1%Z; 2%Z], 0%Z)];
     len := 2;
     len_batches := fun _ => eq_refl |}.

Definition toy_pass :=
  training_pass toy_flatten toy_forward toy_criterion toy_gradient Z.add toy_update.

Definition toy_pass_fashion :=
  training_pass_fashion toy_forward toy_criterion toy_gradient Z.add toy_update.

Definition toy_train :=
  train toy_flatten toy_forward toy_criterion toy_gradient Z.add toy_update 0%Q toy_add toy_div.

Definition toy_train_fashion :=
  train_fashion toy_forward toy_criterion toy_gradient Z.add toy_update 0%Q toy_add toy_div.

End Training.

(** ** Rows of the admissions tables *)

Module Preprocessing.
Import Admissions.

(** The number of rows of a column. *)
Definition n_rows (s : series) : nat :=
  match s with
  | Int64 vs => length vs
  | Float64 vs => length vs
  end.

(** A table whose columns all have [n] rows. *)
Definition rectangular (n : nat) (t : table) : Prop :=
  Forall (fun col : string * series => n_rows col.2 = n) t.

(** The integer cells of row [i], column by column. *)
Definition int_row (t : table) (i : nat) : list Z :=
  omap (fun col : string * series =>
          match col.2 with Int64 vs => vs !! i | Float64 _ => None end) t.

Definition sum_Z (l : list Z) : Z := foldr Z.add 0 l.

(** Reading a row of indicators back: the sum of the levels whose indicator
    is set. *)
Definition decode (lv : list Z) (row : list Z) : Z :=
  sum_Z (zip_with Z.mul lv row).

(** The scaling cell, run a second time. *)
Definition rerun_scaling (one_hot_data : loc) : M (loc * loc) :=
  first ← scaling_cell one_hot_data;
  second ← scaling_cell one_hot_data;
  mret (first, second).

(** *** Example data *)

Definition small_data : table :=
  [ ("gre", Int64 [380; 660; 800]);
    ("gpa", Float64 example_gpa);
    ("rank", Int64 [3; 3; 1]) ].

Definition small_one_hot_data : table :=
  [ ("gre", Int64 [380; 660; 800]);
    ("gpa", Float64 example_gpa);
    ("rank_1", Int64 [0; 0; 1]);
    ("rank_3", Int64 [1; 1; 0]) ].

Definition one_hot_heap : heap :=
  {[ 1%positive := OFrame [("gre", 2%positive); ("gpa", 3%positive);
                            ("rank_1", 4%positive); ("rank_3", 5%positive)];
     2%positive := OArray (Int64 [380; 660; 800]);
     3%positive := OArray (Float64 example_gpa);
     4%positive := OArray (Int64 [0; 0; 1]);
     5%positive := OArray (Int64 [1; 1; 0]) ]}.

Definition no_gpa_heap : heap :=
  {[ 1%positive := OFrame [("gre", 2%positive); ("rank_1", 4%positive)];
     2%positive := OArray (Int64 [380; 660; 800]);
     4%positive := OArray (Int64 [0; 0; 1]) ]}.

End Preprocessing.

(** ** Training in several runs *)

Module Resuming.
Import Training.
Local Open Scope nat_scope.

(** A loader of which [n] iterations were consumed: its next iteration is
    the [n]-th of the loader. *)
Definition later {images labels : Type} (n : nat) (trainloader : @DataLoader images labels)
  : @DataLoader images labels :=
  {| batches := fun e => batches trainloader (n + e);
     len := len trainloader;
     len_batches := fun e => len_batches trainloader (n + e) |}.

End Resuming.

(** ** The classifiers and their forward pass *)

Module Forward.
Import Checkpoint.
Local Open Scope nat_scope.

(** What a forward pass can raise: the [IndexError] of [x.shape[0]] on a
    tensor without dimensions and of an index out of bounds, and the
    [RuntimeError]s of a view whose size is ambiguous or does not fit and of
    a matrix product of shapes [mat1] and [mat2] that do not agree. *)
Inductive failure : Type :=
| TupleIndexError
| TensorIndexError (index size : nat)
| AmbiguousView (sh : list nat)
| InvalidView (sh : list nat) (size : nat)
| ShapeMismatch (mat1 mat2 : list nat)
| Unmodelled.

Inductive outcome (A : Type) : Type :=
| Done (a : A)
| Fail (e : failure).
Arguments Done {A} a.
Arguments Fail {A} e.

#[global] Instance outcome_ret : MRet outcome := fun A a => Done a.
#[global] Instance outcome_bind : MBind outcome := fun A B f r =>
  match r with
  | Done a => f a
  | Fail e => Fail e
  end.

(** The number of entries of a tensor of shape [sh]. *)
Definition numel (sh : list nat) : nat := foldr Nat.mul 1 sh.

(** The entries of a tensor are stored row by row: [row k i d] is the
    [i]-th run of [k] entries of [d]. *)
Definition row (k i : nat) (d : list Q) : list Q := take k (drop (i * k) d).

Definition rows (n k : nat) (d : list Q) : list (list Q) :=
  map (fun i => row k i d) (seq 0 n).

(** [x.view(x.shape[0], -1)]: the same entries as [x.shape[0]] rows.  A
    tensor without dimensions has no [shape[0]]; with [shape[0] = 0] the
    size that -1 stands for is ambiguous. *)
Definition view_rows (x : tensor) : outcome tensor :=
  match shape x with
  | [] => Fail TupleIndexError
  | n :: _ =>
      if decide (n = 0) then Fail (AmbiguousView (shape x))
      else Done {| shape := [n; numel (shape x) / n]; data := data x |}
  end.

(** [x.view(sh)] for a shape [sh] without -1. *)
Definition view (x : tensor) (sh : list nat) : outcome tensor :=
  if decide (numel sh = numel (shape x))
  then Done {| shape := sh; data := data x |}
  else Fail (InvalidView sh (numel (shape x))).

(** [images[i]]: the [i]-th entry along the first dimension. *)
Definition tensor_getitem (x : tensor) (i : nat) : outcome tensor :=
  match shape x with
  | [] => Fail (TensorIndexError i 0)
  | n :: rest =>
      if decide (i < n)
      then Done {| shape := rest; data := row (numel rest) i (data x) |}
      else Fail (TensorIndexError i n)
  end.

Definition dot (u v : list Q) : Q := foldr Qplus 0%Q (zip_with Qmult u v).

(** One row of [x @ weight.T + bias] for a weight of shape [o, i], in exact
    arithmetic.  The library computes the entries in float32 and rounds in
    an order that depends on the size of the batch, so its entries differ
    from these in the last bits; what is proved of the forward pass below is
    about which calls return and the shapes they return, which do not
    depend on the entries. *)
Definition linear_row (l : Linear) (i o : nat) (r : list Q) : list Q :=
  map (fun j => (dot r (row i j (data (weight l))) + nth j (data (bias l)) 0)%Q) (seq 0 o).

(** [l(x)] for a layer [l = nn.Linear(i, o)] and a matrix [x]: the rows of
    [x] must have [i] entries.  Only matrices are modelled, and layers
    whose bias has the shape [nn.Linear] gives it. *)
Definition Linear_call (l : Linear) (x : tensor) : outcome tensor :=
  match shape x, shape (weight l) with
  | [n; k], [o; i] =>
      if decide (shape (bias l) = [o]) then
        if decide (k = i)
        then Done {| shape := [n; o];
                     data := concat (map (linear_row l i o) (rows n k (data x))) |}
        else Fail (ShapeMismatch [n; k] [i; o])
      else Fail Unmodelled
  | _, _ => Fail Unmodelled
  end.

Definition relu_row (r : list Q) : list Q :=
  map (fun v => if Qle_bool 0 v then v else 0%Q) r.

(** [F.relu(x)] and [nn.ReLU()]: entry by entry. *)
Definition relu (x : tensor) : tensor :=
  {| shape := shape x; data := relu_row (data x) |}.

(** [class Classifier(nn.Module)] of the Fashion-MNIST notebook: four
    linear layers. *)
Record Classifier : Type := {
  fc1 : Linear;
  fc2 : Linear;
  fc3 : Linear;
  fc4 : Linear
}.

(** [Classifier.__init__]:
<<
self.fc1 = nn.Linear(784, 256)
self.fc2 = nn.Linear(256, 128)
self.fc3 = nn.Linear(128, 64)
self.fc4 = nn.Linear(64, 10)
>> *)
Definition Classifier_init (init : initializer) : Classifier :=
  {| fc1 := Linear_init init 0 784 256;
     fc2 := Linear_init init 1 256 128;
     fc3 := Linear_init init 2 128 64;
     fc4 := Linear_init init 3 64 10 |}.

(** A layer whose parameters have the shapes [nn.Linear(i, o)] gives them
    (training and loading change the entries, not the shapes). *)
Definition has_sizes (l : Linear) (i o : nat) : bool :=
  bool_decide (shape (weight l) = [o; i]) && bool_decide (shape (bias l) = [o]).

Definition Classifier_ok (c : Classifier) : bool :=
  has_sizes (fc1 c) 784 256 && has_sizes (fc2 c) 256 128
  && has_sizes (fc3 c) 128 64 && has_sizes (fc4 c) 64 10.

(** The modules of an [nn.Sequential]. *)
Inductive module : Type :=
| MLinear (l : Linear)
| MReLU
| MLogSoftmax.

(** The network of the training notebook:
<<
model = nn.Sequential(nn.Linear(784, 128),
                      nn.ReLU(),
                      nn.Linear(128, 64),
                      nn.ReLU(),
                      nn.Linear(64, 10),
                      nn.LogSoftmax(dim=1))
>> *)
Definition mnist_model (l1 l2 l3 : Linear) : list module :=
  [MLinear l1; MReLU; MLinear l2; MReLU; MLinear l3; MLogSoftmax].

Definition mnist_model_init (init : initializer) : list module :=
  mnist_model (Linear_init init 0 784 128) (Linear_init init 1 128 64)
    (Linear_init init 2 64 10).

Section Library.

(** The log-softmax of one row and the exponential of one entry are
    floating point functions of the library; the forward pass is embedded
    over any implementation of them. *)
Variable log_softmax_row : list Q -> list Q.
Variable exp : Q -> Q.

(** [F.log_softmax(x, dim=1)] and [nn.LogSoftmax(dim=1)]: row by row. *)
Definition log_softmax (x : tensor) : outcome tensor :=
  match shape x with
  | [n; k] =>
      Done {| shape := [n; k];
              data := concat (map log_softmax_row (rows n k (data x))) |}
  | _ => Fail Unmodelled
  end.

(** [torch.exp(x)] *)
Definition torch_exp (x : tensor) : tensor :=
  {| shape := shape x; data := map exp (data x) |}.

(**
<<
def forward(self, x):
    # make sure input tensor is flattened
    x = x.view(x.shape[0], -1)

    x = F.relu(self.fc1(x))
    x = F.relu(self.fc2(x))
    x = F.relu(self.fc3(x))
    x = F.log_softmax(self.fc4(x), dim=1)

    return x
>> *)
Definition forward (self : Classifier) (x : tensor) : outcome tensor :=
  x ← view_rows x;
  h ← Linear_call (fc1 self) x;
  let x := relu h in
  h ← Linear_call (fc2 self) x;
  let x := relu h in
  h ← Linear_call (fc3 self) x;
  let x := relu h in
  h ← Linear_call (fc4 self) x;
  log_softmax h.

(** Calling an [nn.Sequential]: its modules are called one after the
    other. *)
Definition module_call (m : module) (x : tensor) : outcome tensor :=
  match m with
  | MLinear l => Linear_call l x
  | MReLU => Done (relu x)
  | MLogSoftmax => log_softmax x
  end.

Fixpoint Sequential_call (ms : list module) (x : tensor) : outcome tensor :=
  match ms with
  | [] => Done x
  | m :: ms' => y ← module_call m x; Sequential_call ms' y
  end.

(** The flattening and the forward pass of the training cells:
<<
images = images.view(images.shape[0], -1)
logps = model(images)
>> *)
Definition forward_cell (model : list module) (images : tensor) : outcome tensor :=
  images ← view_rows images;
  Sequential_call model images.

(** The cell that shows the prediction for one image:
<<
img = images[0].view(1, 784)
logps = model(img)
ps = torch.exp(logps)
>> *)
Definition predict_cell (model : list module) (images : tensor) : outcome tensor :=
  img ← tensor_getitem images 0;
  img ← view img [1; 784];
  logps ← Sequential_call model img;
  mret (torch_exp logps).

(** What the layers above compute from one row of pixels. *)
Definition forward_row (self : Classifier) (r : list Q) : list Q :=
  log_softmax_row
    (linear_row (fc4 self) 64 10
       (relu_row (linear_row (fc3 self) 128 64
          (relu_row (linear_row (fc2 self) 256 128
             (relu_row (linear_row (fc1 self) 784 256 r))))))).

Definition mnist_row (l1 l2 l3 : Linear) (r : list Q) : list Q :=
  log_softmax_row
    (linear_row l3 64 10
       (relu_row (linear_row l2 128 64
          (relu_row (linear_row l1 784 128 r))))).

End Library.

(** *** Examples *)

(** A function of rows that keeps their length, in place of the
    log-softmax. *)
Definition shift_row (r : list Q) : list Q :=
  map (fun v => (v - foldr Qplus 0 r)%Q) r.

(** A batch of two images of one channel and 28 by 28 pixels. *)
Definition example_images : tensor :=
  {| shape := [2; 1; 28; 28];
     data := map (fun j => inject_Z (Z.of_nat j)) (seq 0 (2 * 784)) |}.

End Forward.

(** * Properties *)

(** ** Student admissions notebook *)

Module AdmissionsSpec.
Import Admissions.

(** *** The error term *)

(** C1: for every feature vector [x], label [y] and model output [output],
    [error_term_formula x y output] is the array [(y - output) * x]: it has
    the length of [x] and its component [i] is [(y - output) * x_i].  It is
    a total function, so this holds for all inputs. *)
Theorem error_term_formula_exact {num : Type} (sub mul : num -> num -> num)
    (x : list num) (y output : num) :
  length (error_term_formula sub mul x y output) = length x /\
  forall i : nat,
    error_term_formula sub mul x y output !! i
    = (fun xi => mul (sub y output) xi) <$> (x !! i).
Proof.
  unfold error_term_formula, scalar_times_array. split.
  - apply length_map.
  - intros i. apply list_lookup_fmap.
Qed.

(** The formula on rationals. *)
Example error_term_formula_rationals :
  error_term_formula Qminus Qmult [1%Q; (1 # 2)%Q] 1%Q (1 # 4)%Q
  = [((1 - (1 # 4)) * 1)%Q; ((1 - (1 # 4)) * (1 # 2))%Q].
Proof. reflexivity. Qed.

(** *** One-hot encoding *)

Lemma elem_of_insert_level v w ls : w ∈ insert_level v ls <-> w = v \/ w ∈ ls.
Proof.
  induction ls as [|u ls IH]; simpl.
  - rewrite list_elem_of_singleton, elem_of_nil. tauto.
  - destruct (Z.ltb_spec v u).
    + rewrite elem_of_cons. tauto.
    + destruct (Z.eqb_spec v u).
      * subst. rewrite elem_of_cons. tauto.
      * rewrite !elem_of_cons, IH. tauto.
Qed.

Lemma elem_of_levels v vs : v ∈ levels vs <-> v ∈ vs.
Proof.
  induction vs as [|u vs IH]; simpl.
  - reflexivity.
  - rewrite elem_of_insert_level, IH, elem_of_cons. tauto.
Qed.

Lemma insert_level_sorted v ls :
  StronglySorted Z.lt ls -> StronglySorted Z.lt (insert_level v ls).
Proof.
  induction 1 as [|u ls Hs IH Hall]; simpl.
  - repeat constructor.
  - destruct (Z.ltb_spec v u).
    + constructor; [by constructor|].
      constructor; [done|]. eapply Forall_impl; [exact Hall|]. simpl. lia.
    + destruct (Z.eqb_spec v u).
      * by constructor.
      * constructor; [done|].
        apply Forall_forall. intros w Hw.
        apply elem_of_insert_level in Hw as [->|Hw]; [lia|].
        rewrite Forall_forall in Hall. auto.
Qed.

Lemma levels_sorted vs : StronglySorted Z.lt (levels vs).
Proof.
  induction vs; simpl; [constructor | by apply insert_level_sorted].
Qed.

Lemma sorted_lt_NoDup ls : StronglySorted Z.lt ls -> NoDup ls.
Proof.
  induction 1 as [|u ls Hs IH Hall]; constructor; [|done].
  intros Hin. rewrite Forall_forall in Hall. specialize (Hall _ Hin). lia.
Qed.

Lemma indicator_lookup v vs (i : nat) r :
  vs !! i = Some r ->
  indicator v vs !! i = Some (if decide (r = v) then 1 else 0).
Proof. intros H. unfold indicator. by rewrite list_lookup_fmap, H. Qed.

Lemma getitem_elem_of t c s : getitem t c = Ok s -> (c, s) ∈ t.
Proof.
  induction t as [|[c' s'] t IH]; simpl; [done|].
  case_decide; [intros [= ->]; subst; left | intros; right; auto].
Qed.

Lemma dummy_name_ne_rank v : dummy_name "rank" v ≠ "rank".
Proof. unfold dummy_name. intros H. discriminate H. Qed.


Lemma getitem_column_names t c s : getitem t c = Ok s -> c ∈ column_names t.
Proof.
  intros H. apply getitem_elem_of in H.
  unfold column_names. apply list_elem_of_fmap. by exists (c, s).
Qed.

Lemma filter_dummies (vs ls : list Z) :
  filter (fun col : string * series => col.1 ≠ "rank")
    (map (fun v => (dummy_name "rank" v, Int64 (indicator v vs))) ls)
  = map (fun v => (dummy_name "rank" v, Int64 (indicator v vs))) ls.
Proof.
  induction ls as [|v ls IH]; [done|].
  simpl. rewrite filter_cons_True by apply dummy_name_ne_rank. by rewrite IH.
Qed.

Lemma one_hot_cell_unfold data ranks :
  getitem data "rank" = Ok (Int64 ranks) ->
  one_hot_cell data
  = Ok (filter (fun col => col.1 ≠ "rank") data
        ++ map (fun v => (dummy_name "rank" v, Int64 (indicator v ranks))) (levels ranks)).
Proof.
  intros Hget. unfold one_hot_cell. rewrite Hget. simpl.
  unfold drop, concat_columns. simpl. rewrite app_nil_r.
  rewrite decide_True.
  - by rewrite filter_app, filter_dummies.
  - unfold column_names. rewrite fmap_app. apply elem_of_app. left.
    by eapply getitem_column_names.
Qed.

Lemma getitem_app_l t1 t2 c s : getitem t1 c = Ok s -> getitem (t1 ++ t2) c = Ok s.
Proof.
  induction t1 as [|[c' s'] t1 IH]; simpl; [done|].
  case_decide; auto.
Qed.

Lemma getitem_filter_ne t c c0 s :
  c ≠ c0 -> getitem t c = Ok s ->
  getitem (filter (fun col : string * series => col.1 ≠ c0) t) c = Ok s.
Proof.
  intros Hne. induction t as [|[c' s'] t IH]; simpl; [done|].
  case_decide as Hc.
  - intros [= ->]. subst c'. rewrite filter_cons_True by (simpl; congruence).
    simpl. by rewrite decide_True.
  - intros H. destruct (decide (c' = c0)) as [->|Hc0].
    + rewrite filter_cons_False by (simpl; tauto). auto.
    + rewrite filter_cons_True by done. simpl. rewrite decide_False by done. auto.
Qed.

Lemma not_rank_in_filter (t : table) :
  "rank" ∉ column_names (filter (fun col : string * series => col.1 ≠ "rank") t).
Proof.
  unfold column_names. intros H. apply list_elem_of_fmap in H as ([c s] & Hc & Hin).
  apply list_elem_of_filter in Hin as [Hne _]. simpl in *. congruence.
Qed.

(** On a table with a rank column the alternative solution cell computes
    the same table. *)
Lemma one_hot_cell_alt_eq (data : table) (s : series) :
  getitem data "rank" = Ok s -> one_hot_cell_alt data = one_hot_cell data.
Proof.
  intros Hget.
  unfold one_hot_cell_alt, get_dummies_columns, getitem_columns, one_hot_cell.
  rewrite Hget. simpl.
  unfold drop. rewrite decide_True by (by eapply getitem_column_names).
  simpl. destruct s as [vs|vs]; simpl; [|done].
  unfold concat_columns. simpl. rewrite !app_nil_r.
  rewrite decide_True.
  - by rewrite filter_app, filter_dummies.
  - unfold column_names. rewrite fmap_app. apply elem_of_app. left.
    by eapply getitem_column_names.
Qed.

(** C6: for a table with unique column names and an integer rank column,
    the one-hot encoding cell (either solution) returns a table without a
    rank column: the other columns, unchanged and in their order, followed
    by one indicator column rank_v per distinct rank value [v] (in
    increasing order of [v]); in every row the indicator column of the rank
    of that row holds 1 and every other indicator column holds 0. *)
Theorem one_hot_encoding_spec (data : table) (ranks : list Z) :
  NoDup (column_names data) ->
  getitem data "rank" = Ok (Int64 ranks) ->
  exists (out inds : table) (lv : list Z),
    one_hot_cell data = Ok out /\
    one_hot_cell_alt data = Ok out /\
    out = filter (fun col => col.1 ≠ "rank") data ++ inds /\
    ("rank" ∉ column_names out) /\
    (forall c s, c ≠ "rank" -> getitem data c = Ok s -> getitem out c = Ok s) /\
    StronglySorted Z.lt lv /\
    NoDup lv /\
    (forall v, v ∈ lv <-> v ∈ ranks) /\
    column_names inds = map (fun v => "rank_" +:+ pretty v) lv /\
    (forall (k : nat) (v : Z), lv !! k = Some v ->
       exists col : list Z,
         inds !! k = Some ("rank_" +:+ pretty v, Int64 col) /\
         length col = length ranks /\
         forall (i : nat) (r : Z), ranks !! i = Some r ->
           col !! i = Some (if decide (r = v) then 1 else 0)).
Proof.
  intros _ Hget.
  exists (filter (fun col => col.1 ≠ "rank") data
          ++ map (fun v => (dummy_name "rank" v, Int64 (indicator v ranks))) (levels ranks)),
    (map (fun v => (dummy_name "rank" v, Int64 (indicator v ranks))) (levels ranks)),
    (levels ranks).
  split; [by apply one_hot_cell_unfold|].
  split; [rewrite (one_hot_cell_alt_eq _ _ Hget); by apply one_hot_cell_unfold|].
  split; [done|].
  split.
  { unfold column_names. rewrite fmap_app. intros [H|H]%elem_of_app.
    - by apply (not_rank_in_filter data).
    - apply list_elem_of_fmap in H as ([c s] & Hc & Hin). simpl in Hc.
      apply list_elem_of_fmap in Hin as (v & [= -> ->] & _).
      by apply (dummy_name_ne_rank v). }
  split.
  { intros c s Hne Hc. apply getitem_app_l. by apply getitem_filter_ne. }
  split; [apply levels_sorted|].
  split; [apply sorted_lt_NoDup, levels_sorted|].
  split; [intros v; apply elem_of_levels|].
  split.
  { unfold column_names. rewrite <- list_fmap_compose. done. }
  intros k v Hk. exists (indicator v ranks). split; [|split].
  - by rewrite list_lookup_fmap, Hk.
  - unfold indicator. apply length_map.
  - intros i r Hi. by apply indicator_lookup.
Qed.

Lemma one_hot_encoding_spec_witness :
  exists out, one_hot_cell example_data = Ok out /\ ("rank" ∉ column_names out).
Proof.
  destruct (one_hot_encoding_spec example_data [3; 3; 1])
    as (out & inds & lv & H1 & _ & _ & H2 & _).
  - apply (bool_decide_unpack _). vm_compute. reflexivity.
  - reflexivity.
  - exists out. split; assumption.
Defined.


(** *** The scaling cell *)

Lemma read_columns_mono (h h' : heap) cols (t : table) :
  h ⊆ h' ->
  mapM (read_column h) cols = Some t ->
  mapM (read_column h') cols = Some t.
Proof.
  intros Hsub. rewrite !mapM_Some. intros H. eapply Forall2_impl; [exact H|].
  clear H. intros [c a] [c' s]. unfold read_column. simpl.
  destruct (h !! a) as [[cols'|s']|] eqn:Ha; try discriminate.
  intros [= -> ->]. by rewrite (lookup_weaken _ _ _ _ Ha Hsub).
Qed.

Lemma read_frame_mono (h h' : heap) df (t : table) :
  h ⊆ h' -> read_frame h df = Some t -> read_frame h' df = Some t.
Proof.
  intros Hsub. unfold read_frame.
  destruct (h !! df) as [[cols|s]|] eqn:Hdf; try discriminate.
  rewrite (lookup_weaken _ _ _ _ Hdf Hsub). by apply read_columns_mono.
Qed.

Lemma read_columns_lookup (h : heap) cols (t : table) c s :
  mapM (read_column h) cols = Some t ->
  getitem t c = Ok s ->
  exists a, col_lookup cols c = Some a /\ h !! a = Some (OArray s).
Proof.
  rewrite mapM_Some. induction 1 as [|[c1 a1] [c2 s2] cols t Hrd _ IH]; simpl; [done|].
  unfold read_column in Hrd. simpl in Hrd.
  destruct (h !! a1) as [[?|s1]|] eqn:Ha1; try discriminate.
  injection Hrd as -> ->.
  case_decide; [intros [= ->]; eauto | auto].
Qed.

Lemma read_columns_set (h : heap) cols (t : table) c a s :
  mapM (read_column h) cols = Some t ->
  h !! a = Some (OArray s) ->
  mapM (read_column h) (col_set cols c a) = Some (table_set t c s).
Proof.
  intros Hrd Ha. revert Hrd. rewrite !mapM_Some.
  induction 1 as [|[c1 a1] [c2 s2] cols t Hrd Hrest IH]; simpl.
  - constructor; [|constructor]. unfold read_column. simpl. by rewrite Ha.
  - assert (c2 = c1) as ->.
    { unfold read_column in Hrd. simpl in Hrd.
      destruct (h !! a1) as [[?|?]|]; congruence. }
    case_decide.
    + constructor; [|done]. unfold read_column. simpl. by rewrite Ha.
    + constructor; done.
Qed.

Lemma col_lookup_set_ne cols c c' a :
  c ≠ c' -> col_lookup (col_set cols c a) c' = col_lookup cols c'.
Proof.
  intros Hne. induction cols as [|[c1 a1] cols IH]; simpl.
  - by rewrite decide_False.
  - destruct (decide (c1 = c)) as [->|Hc]; simpl.
    + by rewrite !decide_False.
    + by rewrite IH.
Qed.

Lemma table_set_names t c s :
  is_Ok (getitem t c) -> column_names (table_set t c s) = column_names t.
Proof.
  unfold column_names. induction t as [|[c1 s1] t IH]; simpl; [done|].
  case_decide; simpl; [by subst | intros; f_equal; auto].
Qed.

Lemma getitem_table_set_eq t c s : getitem (table_set t c s) c = Ok s.
Proof.
  induction t as [|[c1 s1] t IH]; simpl.
  - by rewrite decide_True.
  - destruct (decide (c1 = c)); simpl; [by rewrite decide_True|].
    by rewrite decide_False.
Qed.

Lemma getitem_table_set_ne t c c' s :
  c ≠ c' -> getitem (table_set t c s) c' = getitem t c'.
Proof.
  intros Hne. induction t as [|[c1 s1] t IH]; simpl.
  - by rewrite decide_False.
  - destruct (decide (c1 = c)) as [->|Hc]; simpl.
    + by rewrite !decide_False.
    + by rewrite IH.
Qed.

(** Running the primitives. *)
Lemma run_bind {A B} (m : M A) (f : A -> M B) (h h' : heap) (a : A) :
  m h = Ok (a, h') -> (m ≫= f) h = f a h'.
Proof. intros H. unfold mbind, M_bind. by rewrite H. Qed.

Lemma get_frame_run (h : heap) df cols :
  h !! df = Some (OFrame cols) -> get_frame df h = Ok (cols, h).
Proof. intros H. unfold get_frame. by rewrite H. Qed.

Lemma get_array_run (h : heap) a s :
  h !! a = Some (OArray s) -> get_array a h = Ok (s, h).
Proof. intros H. unfold get_array. by rewrite H. Qed.

Lemma frame_slice_all_run (h : heap) df cols :
  h !! df = Some (OFrame cols) ->
  frame_slice_all df h = Ok (fresh (dom h), <[fresh (dom h) := OFrame cols]> h).
Proof.
  intros H. unfold frame_slice_all.
  by rewrite (run_bind _ _ h h cols) by (by apply get_frame_run).
Qed.

Lemma frame_getitem_run (h : heap) df cols c a :
  h !! df = Some (OFrame cols) -> col_lookup cols c = Some a ->
  frame_getitem df c h = Ok (a, h).
Proof.
  intros H Hc. unfold frame_getitem.
  rewrite (run_bind _ _ h h cols) by (by apply get_frame_run). by rewrite Hc.
Qed.

Lemma series_truediv_run (h : heap) a s d :
  h !! a = Some (OArray s) ->
  series_truediv a d h
  = Ok (fresh (dom h), <[fresh (dom h) := OArray (truediv s d)]> h).
Proof.
  intros H. unfold series_truediv.
  by rewrite (run_bind _ _ h h s) by (by apply get_array_run).
Qed.

Lemma frame_setitem_run (h : heap) df cols c a s :
  h !! df = Some (OFrame cols) -> h !! a = Some (OArray s) ->
  frame_setitem df c a h
  = Ok ((), <[df := OFrame (col_set cols c (fresh (dom h)))]>
              (<[fresh (dom h) := OArray s]> h)).
Proof.
  intros H Ha. unfold frame_setitem.
  rewrite (run_bind _ _ h h cols) by (by apply get_frame_run).
  rewrite (run_bind _ _ h h s) by (by apply get_array_run).
  reflexivity.
Qed.

Lemma fresh_lookup (h : heap) : h !! fresh (dom h) = None.
Proof. apply not_elem_of_dom, is_fresh. Qed.

(** What the scaling cell does on a heap where [one_hot_data] is a frame
    with the columns gre and gpa: it returns a new frame object, leaves
    every object of the heap as it was, and the new frame reads as the old
    one with the two columns rebound to the scaled values. *)
Lemma scaling_cell_run (h : heap) (one_hot_data : loc) (t : table) s_gre s_gpa :
  read_frame h one_hot_data = Some t ->
  getitem t "gre" = Ok s_gre ->
  getitem t "gpa" = Ok s_gpa ->
  exists h' : heap,
    scaling_cell one_hot_data h = Ok (fresh (dom h), h') /\
    h ⊆ h' /\
    read_frame h' (fresh (dom h))
    = Some (table_set (table_set t "gre" (truediv s_gre 800)) "gpa" (truediv s_gpa 4)).
Proof.
  intros Hread Hgre Hgpa. unfold read_frame in Hread.
  destruct (h !! one_hot_data) as [[cols|?]|] eqn:Hdf; try discriminate.
  destruct (read_columns_lookup _ _ _ _ _ Hread Hgre) as (a_gre & Hcg & Hag).
  destruct (read_columns_lookup _ _ _ _ _ Hread Hgpa) as (a_gpa & Hcp & Hap).
  (* processed_data = one_hot_data[:] *)
  set (pd := fresh (dom h)).
  assert (h !! pd = None) as Hpd by apply fresh_lookup.
  set (h1 := <[pd := OFrame cols]> h).
  assert (h1 !! pd = Some (OFrame cols)) as Hpd1 by apply lookup_insert_eq.
  assert (forall l o, h !! l = Some o -> h1 !! l = Some o) as K1.
  { intros l o Hl. unfold h1. rewrite lookup_insert_ne by congruence. done. }
  (* processed_data['gre'] / 800 *)
  set (l2 := fresh (dom h1)).
  assert (h1 !! l2 = None) as Hl2 by apply fresh_lookup.
  set (h2 := <[l2 := OArray (truediv s_gre 800)]> h1).
  assert (forall l o, h1 !! l = Some o -> h2 !! l = Some o) as K2.
  { intros l o Hl. unfold h2. rewrite lookup_insert_ne by congruence. done. }
  assert (h2 !! l2 = Some (OArray (truediv s_gre 800))) as Hl2' by apply lookup_insert_eq.
  (* processed_data['gre'] = ... *)
  set (a3 := fresh (dom h2)).
  assert (h2 !! a3 = None) as Ha3 by apply fresh_lookup.
  set (h3 := <[a3 := OArray (truediv s_gre 800)]> h2).
  assert (forall l o, h2 !! l = Some o -> h3 !! l = Some o) as K3.
  { intros l o Hl. unfold h3. rewrite lookup_insert_ne by congruence. done. }
  set (cols1 := col_set cols "gre" a3).
  set (h4 := <[pd := OFrame cols1]> h3).
  assert (h4 !! pd = Some (OFrame cols1)) as Hpd4 by apply lookup_insert_eq.
  assert (forall l o, l ≠ pd -> h3 !! l = Some o -> h4 !! l = Some o) as K4.
  { intros l o Hne Hl. unfold h4. by rewrite lookup_insert_ne. }
  assert (a3 ≠ pd) as Ha3pd.
  { intros Heq. rewrite Heq in Ha3. rewrite (K2 _ _ Hpd1) in Ha3. discriminate. }
  assert (col_lookup cols1 "gpa" = Some a_gpa) as Hcp1.
  { unfold cols1. by rewrite col_lookup_set_ne. }
  (* processed_data['gpa'] / 4.0 *)
  set (l5 := fresh (dom h4)).
  assert (h4 !! l5 = None) as Hl5 by apply fresh_lookup.
  set (h5 := <[l5 := OArray (truediv s_gpa 4)]> h4).
  assert (forall l o, h4 !! l = Some o -> h5 !! l = Some o) as K5.
  { intros l o Hl. unfold h5. rewrite lookup_insert_ne by congruence. done. }
  assert (h5 !! l5 = Some (OArray (truediv s_gpa 4))) as Hl5' by apply lookup_insert_eq.
  (* processed_data['gpa'] = ... *)
  set (a6 := fresh (dom h5)).
  assert (h5 !! a6 = None) as Ha6 by apply fresh_lookup.
  set (h6 := <[a6 := OArray (truediv s_gpa 4)]> h5).
  assert (forall l o, h5 !! l = Some o -> h6 !! l = Some o) as K6.
  { intros l o Hl. unfold h6. rewrite lookup_insert_ne by congruence. done. }
  set (cols2 := col_set cols1 "gpa" a6).
  set (h7 := <[pd := OFrame cols2]> h6).
  assert (forall l o, l ≠ pd -> h6 !! l = Some o -> h7 !! l = Some o) as K7.
  { intros l o Hne Hl. unfold h7. by rewrite lookup_insert_ne. }
  assert (a6 ≠ pd) as Ha6pd.
  { intros Heq. rewrite Heq in Ha6. rewrite (K5 _ _ Hpd4) in Ha6. discriminate. }
  assert (forall l o, h !! l = Some o -> h7 !! l = Some o) as Hkeep.
  { intros l o Hl. assert (l ≠ pd) by congruence.
    apply K7, K6, K5, K4, K3, K2, K1; done. }
  exists h7. fold pd. split; [|split].
  - unfold scaling_cell.
    rewrite (run_bind _ _ h h1 pd) by (by apply frame_slice_all_run).
    rewrite (run_bind _ _ h1 h1 a_gre) by (by eapply frame_getitem_run).
    rewrite (run_bind _ _ h1 h2 l2) by (apply series_truediv_run; auto).
    rewrite (run_bind _ _ h2 h4 ()) by (eapply frame_setitem_run; eauto).
    rewrite (run_bind _ _ h4 h4 a_gpa) by (by eapply frame_getitem_run).
    rewrite (run_bind _ _ h4 h5 l5)
      by (apply series_truediv_run; apply K4, K3, K2, K1; [congruence|done]).
    rewrite (run_bind _ _ h5 h7 ()) by (eapply frame_setitem_run; eauto).
    reflexivity.
  - apply map_subseteq_spec. exact Hkeep.
  - unfold read_frame, h7. rewrite lookup_insert_eq. fold h7.
    unfold cols2, cols1.
    apply read_columns_set.
    + apply read_columns_set.
      * eapply read_columns_mono; [|exact Hread]. apply map_subseteq_spec. exact Hkeep.
      * apply K7, K6, K5, K4; [done..|]. apply lookup_insert_eq.
    + apply K7; [done|]. apply lookup_insert_eq.
Qed.


Lemma slice_reads_same (h : heap) (df : loc) (t : table) :
  read_frame h df = Some t ->
  exists h1 : heap,
    frame_slice_all df h = Ok (fresh (dom h), h1) /\
    fresh (dom h) ≠ df /\
    read_frame h1 (fresh (dom h)) = Some t /\
    read_frame h1 df = Some t.
Proof.
  intros Hread. pose proof Hread as Hread0. unfold read_frame in Hread.
  destruct (h !! df) as [[cols|?]|] eqn:Hdf; try discriminate.
  pose proof (fresh_lookup h) as Hfresh.
  assert (h ⊆ <[fresh (dom h) := OFrame cols]> h) as Hsub by (by apply insert_subseteq).
  exists (<[fresh (dom h) := OFrame cols]> h). split; [|split; [|split]].
  - by apply frame_slice_all_run.
  - congruence.
  - unfold read_frame. rewrite lookup_insert_eq. by eapply read_columns_mono.
  - by eapply read_frame_mono.
Qed.

(** *** Rounding to float64 *)

Lemma two_to_nonpos (z : Z) : z <= 0 -> two_to z = 1 # Z.to_pos (2 ^ (- z)).
Proof.
  intros Hz. unfold two_to. destruct (Z.leb_spec 0 z) as [H|H]; [|done].
  assert (z = 0) as -> by lia. reflexivity.
Qed.

Lemma Qdiv_two_to_nonpos (q : Q) (z : Z) :
  z <= 0 -> (q / two_to z == q * inject_Z (2 ^ (- z)))%Q.
Proof.
  intros Hz. rewrite two_to_nonpos by done.
  assert (0 < 2 ^ (- z)) as Hpos by (apply Z.pow_pos_nonneg; lia).
  unfold Qdiv.
  change (/ (1 # Z.to_pos (2 ^ (- z))))%Q with (inject_Z (Z.pos (Z.to_pos (2 ^ (- z))))).
  by rewrite Z2Pos.id.
Qed.

Lemma round_half_even_bounds (x : Q) (m : Z) :
  (0 <= x)%Q -> (x <= inject_Z m)%Q -> 0 <= round_half_even x <= m.
Proof.
  intros H0 Hm. unfold round_half_even.
  pose proof (Qfloor_le x) as Hfl. pose proof (Qlt_floor x) as Hlt.
  assert (0 <= Qfloor x).
  { change 0 with (Qfloor 0). by apply Qfloor_resp_le. }
  assert (Qfloor x <= m).
  { rewrite <- (Qfloor_Z m). by apply Qfloor_resp_le. }
  assert ((0 < x - inject_Z (Qfloor x))%Q -> Qfloor x + 1 <= m) as Hup.
  { intros Hr. assert (inject_Z (Qfloor x) < inject_Z m)%Q as Hs.
    { eapply Qlt_le_trans; [|exact Hm]. apply Qlt_minus_iff. exact Hr. }
    rewrite <- Zlt_Qlt in Hs. lia. }
  destruct (x - inject_Z (Qfloor x) ?= 1 # 2)%Q eqn:Hc.
  - apply Qeq_alt in Hc. destruct (Z.even (Qfloor x)); [lia|].
    split; [lia|]. apply Hup. rewrite Hc. reflexivity.
  - lia.
  - apply Qgt_alt in Hc. split; [lia|]. apply Hup.
    eapply Qlt_trans; [|exact Hc]. reflexivity.
Qed.

Lemma round_half_even_Z (x : Q) (m : Z) : (x == inject_Z m)%Q -> round_half_even x = m.
Proof.
  intros Hx. unfold round_half_even.
  assert (Qfloor x = m) as -> by (rewrite Hx; apply Qfloor_Z).
  assert ((x - inject_Z m ?= 1 # 2)%Q = Lt) as ->; [|done].
  rewrite Hx. assert (inject_Z m - inject_Z m == 0)%Q as -> by ring. reflexivity.
Qed.

Lemma binade_le (q : Q) (N : Z) :
  (0 < q)%Q -> (q <= inject_Z N)%Q -> N < 2 ^ 52 -> binade q <= 52.
Proof.
  intros Hq Hle HN. unfold binade. cbv zeta.
  assert (Z.log2 (Qnum q) - Z.log2 (Z.pos (Qden q)) <= 52); [|destruct Qlt_le_dec; lia].
  destruct q as [n d]. unfold Qlt, Qle in *. cbn [Qnum Qden inject_Z] in *.
  assert (0 < n) by lia.
  assert (n < 2 ^ 52 * Z.pos d) by nia.
  pose proof (Z.log2_spec (Z.pos d) ltac:(lia)) as [_ Hd].
  assert (n < 2 ^ (52 + Z.succ (Z.log2 (Z.pos d)))) as Hn.
  { rewrite Z.pow_add_r by (pose proof (Z.log2_nonneg (Z.pos d)); lia). nia. }
  pose proof (proj1 (Z.log2_lt_pow2 n _ ltac:(lia)) Hn). lia.
Qed.

Lemma binade_pos_Z (z : Z) : 0 < z -> binade (inject_Z z) = Z.log2 z.
Proof.
  intros Hz. unfold binade, inject_Z. cbn [Qnum Qden].
  change (Z.log2 1) with 0. rewrite Z.sub_0_r.
  destruct Qlt_le_dec as [Hlt|Hle]; [|done]. exfalso.
  unfold two_to in Hlt. pose proof (Z.log2_nonneg z).
  destruct (Z.leb_spec 0 (Z.log2 z)); [|lia].
  change (z # 1) with (inject_Z z) in Hlt. rewrite <- Zlt_Qlt in Hlt.
  pose proof (Z.log2_spec z Hz). lia.
Qed.

(** Rounding keeps a value between 0 and an integer below [2 ^ 52]. *)
Lemma float64_bounds (q : Q) (N : Z) :
  (0 <= q)%Q -> (q <= inject_Z N)%Q -> N < 2 ^ 52 ->
  (0 <= float64 q)%Q /\ (float64 q <= inject_Z N)%Q.
Proof.
  intros H0 HN Hsmall. unfold float64.
  destruct (Qnum q) as [|n|n] eqn:Hnum.
  - split; [apply Qle_refl|]. eapply Qle_trans; [exact H0 | exact HN].
  - assert (0 < q)%Q as Hpos by (unfold Qlt; simpl; lia).
    pose proof (binade_le q N Hpos HN Hsmall) as Hb.
    set (z := Z.max (binade q - 52) (-1074)).
    assert (z <= 0) as Hz by lia.
    assert (0 < 2 ^ (- z)) as Hpow by (apply Z.pow_pos_nonneg; lia).
    destruct (round_half_even_bounds (q / two_to z) (N * 2 ^ (- z))) as [Hr0 Hr1].
    { rewrite Qdiv_two_to_nonpos by done. apply Qmult_le_0_compat; [done|].
      rewrite <- (Zle_Qle 0). lia. }
    { rewrite Qdiv_two_to_nonpos by done. rewrite inject_Z_mult.
      apply Qmult_le_compat_r; [done|]. rewrite <- (Zle_Qle 0). lia. }
    set (k := round_half_even (q / two_to z)) in *. clearbody k.
    rewrite two_to_nonpos by done.
    rewrite <- (Z2Pos.id (2 ^ (- z))) in Hr1 by done.
    set (p := Z.to_pos (2 ^ (- z))) in *. clearbody p.
    unfold Qle, Qmult, inject_Z. cbn [Qnum Qden]. split; nia.
  - exfalso. unfold Qle in H0. simpl in H0. lia.
Qed.

(** The rounded quotient of a value between 0 and the divisor is between 0
    and 1. *)
Lemma float64_unit (v d : Q) :
  (0 < d)%Q -> (0 <= v <= d)%Q -> (0 <= float64 (v / d) <= 1)%Q.
Proof.
  intros Hd [H0 H1]. apply (float64_bounds _ 1); [| |done].
  - apply Qle_shift_div_l; [done|]. by rewrite Qmult_0_l.
  - apply Qle_shift_div_r; [done|]. by rewrite Qmult_1_l.
Qed.

Lemma float64_pos_Z (z : Z) : 0 < z < 2 ^ 53 -> (float64 (inject_Z z) == inject_Z z)%Q.
Proof.
  intros [H0 H1]. unfold float64. cbn [inject_Z Qnum].
  destruct z as [|n|n]; try lia. change (Z.pos n # 1) with (inject_Z (Z.pos n)).
  rewrite binade_pos_Z by done.
  assert (Z.log2 (Z.pos n) <= 52) as He.
  { pose proof (proj1 (Z.log2_lt_pow2 (Z.pos n) 53 H0) H1). lia. }
  pose proof (Z.log2_nonneg (Z.pos n)) as He0.
  set (z := Z.max (Z.log2 (Z.pos n) - 52) (-1074)).
  assert (z <= 0) as Hz by lia.
  assert (0 < 2 ^ (- z)) as Hpow by (apply Z.pow_pos_nonneg; lia).
  rewrite (round_half_even_Z _ (Z.pos n * 2 ^ (- z))).
  - rewrite two_to_nonpos by done.
    rewrite <- (Z2Pos.id (2 ^ (- z))) at 1 by done.
    set (p := Z.to_pos (2 ^ (- z))). clearbody p.
    unfold Qeq, Qmult, inject_Z. cbn [Qnum Qden]. lia.
  - rewrite Qdiv_two_to_nonpos by done. by rewrite inject_Z_mult.
Qed.

(** Integers below [2 ^ 53] in absolute value are float64 numbers: their
    conversion is exact. *)
Lemma float64_Z (z : Z) : Z.abs z < 2 ^ 53 -> (float64 (inject_Z z) == inject_Z z)%Q.
Proof.
  intros Hz. destruct z as [|n|n].
  - reflexivity.
  - apply float64_pos_Z. lia.
  - pose proof (float64_pos_Z (Z.pos n) ltac:(lia)) as H.
    unfold float64 in *. cbn [inject_Z Qnum] in *.
    change (- (Z.neg n # 1))%Q with (Z.pos n # 1).
    change (inject_Z (Z.neg n)) with (- inject_Z (Z.pos n))%Q.
    change (Z.pos n # 1) with (inject_Z (Z.pos n)) in *. by rewrite H.
Qed.

(** The rounding on the quotients of the example: 380 / 800 is not a
    float64 number; 0.475 as float64 is 4278419646001971 / 2 ^ 53. *)
Example float64_380_800 :
  (float64 (380 / 800) == 4278419646001971 # 9007199254740992)%Q /\
  ~ (float64 (380 / 800) == 380 / 800)%Q.
Proof. split; [vm_compute; reflexivity | intros H; vm_compute in H; discriminate H]. Qed.

(** The rounding at some other values: 0.1; a tie that goes down to the
    even neighbour and one that goes up; the smallest subnormal number, and
    half of it, which is a tie that goes to 0. *)
Example float64_values :
  (float64 (1 # 10) == 3602879701896397 # 36028797018963968)%Q /\
  (float64 (inject_Z (2 ^ 53 + 1)) == inject_Z (2 ^ 53))%Q /\
  (float64 (inject_Z (2 ^ 53 + 3)) == inject_Z (2 ^ 53 + 4))%Q /\
  (float64 (two_to (-1074)) == two_to (-1074))%Q /\
  (float64 (two_to (-1075)) == 0)%Q /\
  (float64 (3 * two_to (-1075)) == 2 * two_to (-1074))%Q.
Proof. repeat split; vm_compute; reflexivity. Qed.

(** The value of a column in row [i] as the float64 number the division
    takes: the value itself in a float64 column, its exact conversion for
    an int64 below [2 ^ 53] in absolute value, and in any case between 0 and
    [N] when the value is. *)
Lemma as_float64_lookup (s : series) (i : nat) (v : Q) :
  values s !! i = Some v ->
  exists w : Q,
    as_float64 s !! i = Some w /\
    (forall vs, s = Float64 vs -> w = v) /\
    (forall z, v = inject_Z z -> Z.abs z < 2 ^ 53 -> (w == v)%Q) /\
    (forall N, N < 2 ^ 52 -> (0 <= v <= inject_Z N)%Q -> (0 <= w <= inject_Z N)%Q).
Proof.
  destruct s as [zs|vs]; simpl.
  - rewrite list_lookup_fmap. destruct (zs !! i) as [z|] eqn:Hz; [|done].
    intros [= <-]. exists (float64 (inject_Z z)).
    split; [by rewrite list_lookup_fmap, Hz|]. split; [done|]. split.
    + intros z' Hz' Hsmall. unfold inject_Z in Hz'. injection Hz' as ->.
      by apply float64_Z.
    + intros N HN [H0 H1]. by apply float64_bounds.
  - intros Hv. exists v. split; [done|]. split; [by intros vs' [= ->]|].
    split; [intros; reflexivity | done].
Qed.

Lemma is_Ok_inv {A} (r : result A) : is_Ok r -> exists a, r = Ok a.
Proof. destruct r; [eauto | done]. Qed.

(** C10: on a frame with unique column names and columns gre and gpa, the
    scaling cell does not change [one_hot_data].  The slice
    [one_hot_data[:]] is a new frame object that reads as the same table;
    the two column assignments change that new object only: after the cell
    every object that was on the heap before it is unchanged, and
    [one_hot_data] still reads as the table it was, gre and gpa included. *)
Theorem scaling_leaves_one_hot_data (h : heap) (one_hot_data : loc) (t : table) :
  read_frame h one_hot_data = Some t ->
  NoDup (column_names t) ->
  is_Ok (getitem t "gre") ->
  is_Ok (getitem t "gpa") ->
  exists (processed_data : loc) (h1 h' : heap),
    frame_slice_all one_hot_data h = Ok (processed_data, h1) /\
    processed_data ≠ one_hot_data /\
    read_frame h1 processed_data = Some t /\
    scaling_cell one_hot_data h = Ok (processed_data, h') /\
    h ⊆ h' /\
    read_frame h' one_hot_data = Some t.
Proof.
  intros Hread _ [s_gre Hgre]%is_Ok_inv [s_gpa Hgpa]%is_Ok_inv.
  destruct (slice_reads_same h one_hot_data t Hread) as (h1 & Hs & Hne & Hr1 & _).
  destruct (scaling_cell_run h one_hot_data t s_gre s_gpa Hread Hgre Hgpa)
    as (h' & Hrun & Hsub & _).
  exists (fresh (dom h)), h1, h'.
  assert (read_frame h' one_hot_data = Some t) as Hkeep by (by eapply read_frame_mono).
  by repeat split.
Qed.

(** C7: on a frame with unique column names and columns gre and gpa, the
    scaling cell returns a frame with the same columns in which every
    column other than gre and gpa reads as before, and gre and gpa are
    float64 columns that hold, row by row, the original value divided by 800
    and by 4: the float64 quotient, that is the quotient rounded to float64,
    of the value as a float64 number (the value itself in a float64 column,
    the exactly converted integer for an int64 below [2 ^ 53] in absolute
    value).  Every gre value in [0, 800] and every gpa value in [0, 4] is
    mapped into [0, 1]. *)
Theorem scaling_spec (h : heap) (one_hot_data : loc) (t : table) (s_gre s_gpa : series) :
  read_frame h one_hot_data = Some t ->
  NoDup (column_names t) ->
  getitem t "gre" = Ok s_gre ->
  getitem t "gpa" = Ok s_gpa ->
  exists (processed_data : loc) (h' : heap) (t' : table),
    scaling_cell one_hot_data h = Ok (processed_data, h') /\
    read_frame h' processed_data = Some t' /\
    column_names t' = column_names t /\
    (forall c, c ≠ "gre" -> c ≠ "gpa" -> getitem t' c = getitem t c) /\
    exists gre' gpa' : list Q,
      getitem t' "gre" = Ok (Float64 gre') /\
      getitem t' "gpa" = Ok (Float64 gpa') /\
      length gre' = length (values s_gre) /\
      length gpa' = length (values s_gpa) /\
      (forall (i : nat) (v : Q), values s_gre !! i = Some v ->
         exists w : Q,
           gre' !! i = Some (float64 (w / 800)) /\
           (forall vs, s_gre = Float64 vs -> w = v) /\
           (forall z, v = inject_Z z -> Z.abs z < 2 ^ 53 -> (w == v)%Q) /\
           ((0 <= v <= 800)%Q -> (0 <= float64 (w / 800) <= 1)%Q)) /\
      (forall (i : nat) (v : Q), values s_gpa !! i = Some v ->
         exists w : Q,
           gpa' !! i = Some (float64 (w / 4)) /\
           (forall vs, s_gpa = Float64 vs -> w = v) /\
           (forall z, v = inject_Z z -> Z.abs z < 2 ^ 53 -> (w == v)%Q) /\
           ((0 <= v <= 4)%Q -> (0 <= float64 (w / 4) <= 1)%Q)).
Proof.
  intros Hread _ Hgre Hgpa.
  destruct (scaling_cell_run h one_hot_data t s_gre s_gpa Hread Hgre Hgpa)
    as (h' & Hrun & Hsub & Hr).
  exists (fresh (dom h)), h',
    (table_set (table_set t "gre" (truediv s_gre 800)) "gpa" (truediv s_gpa 4)).
  split; [done|]. split; [done|]. split; [|split].
  - rewrite table_set_names.
    + apply table_set_names. by rewrite Hgre.
    + rewrite getitem_table_set_ne by done. by rewrite Hgpa.
  - intros c H1 H2. rewrite !getitem_table_set_ne by done. done.
  - assert (forall s : series, length (as_float64 s) = length (values s)) as Hlen.
    { intros [zs|vs]; simpl; [by rewrite !length_map | done]. }
    exists (map (fun v => float64 (v / 800)) (as_float64 s_gre)),
      (map (fun v => float64 (v / 4)) (as_float64 s_gpa)).
    split; [rewrite getitem_table_set_ne by done; apply getitem_table_set_eq|].
    split; [apply getitem_table_set_eq|].
    split; [by rewrite length_map|]. split; [by rewrite length_map|]. split.
    + intros i v Hi. destruct (as_float64_lookup _ _ _ Hi) as (w & Hw & Hf & Hz & Hb).
      exists w. split; [by rewrite list_lookup_fmap, Hw|]. split; [done|]. split; [done|].
      intros Hv. apply float64_unit; [done|]. by apply (Hb 800).
    + intros i v Hi. destruct (as_float64_lookup _ _ _ Hi) as (w & Hw & Hf & Hz & Hb).
      exists w. split; [by rewrite list_lookup_fmap, Hw|]. split; [done|]. split; [done|].
      intros Hv. apply float64_unit; [done|]. by apply (Hb 4).
Qed.

Lemma example_heap_reads :
  read_frame example_heap 1%positive
  = Some [("gre", Int64 [380; 660; 800]);
          ("gpa", Float64 example_gpa);
          ("rank_1", Int64 [0; 0; 1])].
Proof. vm_compute. reflexivity. Qed.

Lemma scaling_spec_witness :
  exists (processed_data : loc) (h' : heap) (t' : table),
    scaling_cell 1%positive example_heap = Ok (processed_data, h') /\
    read_frame h' processed_data = Some t' /\
    column_names t' = ["gre"; "gpa"; "rank_1"].
Proof.
  destruct (scaling_spec example_heap 1%positive _ (Int64 [380; 660; 800])
              (Float64 example_gpa) example_heap_reads)
    as (pd & h' & t' & H1 & H2 & H3 & _).
  - apply (bool_decide_unpack _). vm_compute. reflexivity.
  - reflexivity.
  - reflexivity.
  - exists pd, h', t'. repeat split; assumption.
Defined.

Lemma scaling_leaves_one_hot_data_witness :
  exists (processed_data : loc) (h' : heap),
    scaling_cell 1%positive example_heap = Ok (processed_data, h') /\
    read_frame h' 1%positive = read_frame example_heap 1%positive.
Proof.
  destruct (scaling_leaves_one_hot_data example_heap 1%positive _ example_heap_reads)
    as (pd & h1 & h' & _ & _ & _ & H1 & _ & H2).
  - apply (bool_decide_unpack _). vm_compute. reflexivity.
  - exact I.
  - exact I.
  - exists pd, h'. split; [assumption|]. rewrite H2. symmetry. exact example_heap_reads.
Defined.

(** With [processed_data = one_hot_data] in place of the slice, the scaled
    columns show in [one_hot_data]. *)
Example aliased_scaling_changes_one_hot_data :
  exists h' : heap,
    scaling_cell_aliased 1%positive example_heap = Ok (1%positive, h') /\
    read_frame h' 1%positive
    = Some [("gre", truediv (Int64 [380; 660; 800]) 800);
            ("gpa", truediv (Float64 example_gpa) 4);
            ("rank_1", Int64 [0; 0; 1])].
Proof. eexists. split; vm_compute; reflexivity. Qed.

End AdmissionsSpec.

(** ** Saving and loading models *)

Module CheckpointSpec.
Import Checkpoint.
Local Open Scope nat_scope.

(** *** Names of parameters *)

Lemma string_app_cons c s t : String c s +:+ t = String c (s +:+ t).
Proof. reflexivity. Qed.

Lemma string_app_nil t : "" +:+ t = t.
Proof. reflexivity. Qed.

Lemma string_app_assoc s t u : (s +:+ t) +:+ u = s +:+ (t +:+ u).
Proof.
  induction s as [|c s IH]; [done|].
  by rewrite !string_app_cons, IH.
Qed.

Lemma no_dot_pretty_N_go (x : N) (s : string) : no_dot s -> no_dot (pretty_N_go x s).
Proof.
  revert s. induction (N.lt_wf_0 x) as [x _ IH]. intros s Hs.
  destruct (decide (x = 0%N)) as [->|Hx].
  - by rewrite pretty_N_go_0.
  - rewrite pretty_N_go_step by lia. apply IH.
    + apply N.div_lt; lia.
    + split; [|done]. unfold pretty_N_char. by repeat case_match.
Qed.

Lemma no_dot_pretty_nat (n : nat) : no_dot (pretty n).
Proof.
  unfold pretty, pretty_nat, pretty, pretty_N. case_decide.
  - simpl. split; [discriminate|done].
  - by apply no_dot_pretty_N_go.
Qed.

Lemma split_at_dot s1 s2 t1 t2 :
  no_dot s1 -> no_dot s2 ->
  s1 +:+ String "." t1 = s2 +:+ String "." t2 ->
  s1 = s2 /\ t1 = t2.
Proof.
  revert s2. induction s1 as [|c1 s1 IH]; intros [|c2 s2] H1 H2 Heq.
  - rewrite !string_app_nil in Heq. by injection Heq as ->.
  - rewrite string_app_nil, string_app_cons in Heq. injection Heq as <- _.
    by destruct H2.
  - rewrite string_app_nil, string_app_cons in Heq. injection Heq as -> _.
    by destruct H1.
  - rewrite !string_app_cons in Heq. injection Heq as -> Heq.
    destruct H1 as [_ H1], H2 as [_ H2].
    destruct (IH s2 H1 H2 Heq) as [-> ->]. done.
Qed.

Lemma hidden_key_eq (i : nat) (s : string) :
  hidden_prefix i +:+ s = "hidden_layers." +:+ (pretty i +:+ String "." s).
Proof.
  unfold hidden_prefix. rewrite !string_app_assoc. reflexivity.
Qed.

Lemma hidden_key_inj (i j : nat) (s s' : string) :
  hidden_prefix i +:+ s = hidden_prefix j +:+ s' -> i = j /\ s = s'.
Proof.
  rewrite !hidden_key_eq. intros H%(inj (String.app _)).
  apply split_at_dot in H as [H ->]; [|apply no_dot_pretty_nat..].
  split; [|done]. by apply (inj pretty).
Qed.

Lemma hidden_key_ne_output (i : nat) (s s' : string) :
  hidden_prefix i +:+ s ≠ "output." +:+ s'.
Proof. rewrite hidden_key_eq. intros H. discriminate H. Qed.



(** *** Looking parameters up in a state dict *)

Lemma sd_lookup_app_None (sd1 sd2 : state_dict_t) k :
  sd_lookup sd1 k = None -> sd_lookup (sd1 ++ sd2) k = sd_lookup sd2 k.
Proof.
  induction sd1 as [|[k' t] sd1 IH]; simpl; [done|].
  case_decide; [done | auto].
Qed.

Lemma sd_lookup_app_Some (sd1 sd2 : state_dict_t) k t :
  sd_lookup sd1 k = Some t -> sd_lookup (sd1 ++ sd2) k = Some t.
Proof.
  induction sd1 as [|[k' t'] sd1 IH]; simpl; [done|].
  case_decide; [done | auto].
Qed.

Lemma sd_lookup_None (sd : state_dict_t) k : sd_lookup sd k = None <-> k ∉ keys sd.
Proof.
  unfold keys. induction sd as [|[k' t] sd IH]; simpl.
  - split; [intros _; apply not_elem_of_nil | done].
  - rewrite not_elem_of_cons. case_decide.
    + split; [done | intros [? _]; congruence].
    + rewrite IH. split; [intros; split; [congruence | done] | tauto].
Qed.

Lemma sd_lookup_elem_of (sd : state_dict_t) k t : sd_lookup sd k = Some t -> (k, t) ∈ sd.
Proof.
  induction sd as [|[k' t'] sd IH]; simpl; [done|].
  case_decide; [intros [= ->]; subst; left | right; auto].
Qed.

Lemma sd_lookup_linear_state pre l w :
  sd_lookup (linear_state pre l) (pre +:+ pname_str w) = Some (pname_get w l).
Proof.
  unfold linear_state. simpl. destruct w; simpl.
  - by rewrite decide_True.
  - rewrite decide_False; [by rewrite decide_True|].
    intros H%(inj (String.app _)). discriminate.
Qed.

Lemma sd_lookup_linear_state_other pre l k :
  (forall w, k ≠ pre +:+ pname_str w) -> sd_lookup (linear_state pre l) k = None.
Proof.
  intros H. unfold linear_state. simpl.
  rewrite decide_False by (intros <-; by apply (H PWeight)).
  rewrite decide_False by (intros <-; by apply (H PBias)). done.
Qed.

Lemma sd_lookup_hidden_state (ls : list Linear) (i0 k : nat) (w : pname) :
  sd_lookup (hidden_state i0 ls) (hidden_prefix (i0 + k) +:+ pname_str w)
  = pname_get w <$> ls !! k.
Proof.
  revert i0 k. induction ls as [|l ls IH]; intros i0 k; [done|].
  change (hidden_state i0 (l :: ls))
    with (linear_state (hidden_prefix i0) l ++ hidden_state (S i0) ls).
  destruct k as [|k].
  - rewrite Nat.add_0_r. apply sd_lookup_app_Some, sd_lookup_linear_state.
  - rewrite sd_lookup_app_None.
    + replace (i0 + S k) with (S i0 + k) by lia. apply IH.
    + apply sd_lookup_linear_state_other. intros w' [H _]%hidden_key_inj. lia.
Qed.

Lemma sd_lookup_hidden_state_output (ls : list Linear) (i0 : nat) (s : string) :
  sd_lookup (hidden_state i0 ls) ("output." +:+ s) = None.
Proof.
  revert i0. induction ls as [|l ls IH]; intros i0; [done|].
  change (hidden_state i0 (l :: ls))
    with (linear_state (hidden_prefix i0) l ++ hidden_state (S i0) ls).
  rewrite sd_lookup_app_None; [apply IH|].
  apply sd_lookup_linear_state_other. intros w' H. symmetry in H.
  by apply hidden_key_ne_output in H.
Qed.

(** The state dict of a network holds the parameters of hidden layer [k]
    under hidden_layers.k, those of the output layer under output, and
    nothing else. *)
Lemma state_dict_hidden (m : Network) (k : nat) (w : pname) :
  sd_lookup (state_dict m) (hidden_prefix k +:+ pname_str w)
  = pname_get w <$> hidden_layers m !! k.
Proof.
  unfold state_dict.
  destruct (hidden_layers m !! k) as [l|] eqn:Hk.
  - apply sd_lookup_app_Some. change k with (0 + k). by rewrite sd_lookup_hidden_state, Hk.
  - rewrite sd_lookup_app_None.
    + apply sd_lookup_linear_state_other. intros w'. apply hidden_key_ne_output.
    + change k with (0 + k). by rewrite sd_lookup_hidden_state, Hk.
Qed.

Lemma state_dict_output (m : Network) (w : pname) :
  sd_lookup (state_dict m) ("output." +:+ pname_str w) = Some (pname_get w (output m)).
Proof.
  unfold state_dict. rewrite sd_lookup_app_None.
  - apply sd_lookup_linear_state.
  - apply sd_lookup_hidden_state_output.
Qed.

(** The keys of a state dict depend on the number of hidden layers only. *)
Lemma keys_hidden_state (ls ls' : list Linear) (i0 : nat) :
  length ls = length ls' -> keys (hidden_state i0 ls) = keys (hidden_state i0 ls').
Proof.
  unfold keys. revert ls' i0. induction ls as [|l ls IH]; intros [|l' ls'] i0 Hlen;
    simplify_eq/=; [done|]. f_equal. f_equal. apply IH. done.
Qed.

Lemma keys_state_dict (m m' : Network) :
  length (hidden_layers m) = length (hidden_layers m') ->
  keys (state_dict m) = keys (state_dict m').
Proof.
  intros Hlen. unfold state_dict, keys. rewrite !fmap_app. f_equal.
  by apply keys_hidden_state.
Qed.


(** *** What loading reports *)

Lemma report_of_app sd ps1 ps2 :
  report_of sd (ps1 ++ ps2) = report_app (report_of sd ps1) (report_of sd ps2).
Proof.
  unfold report_of, report_app, keys. simpl.
  by rewrite fmap_app, filter_app, omap_app.
Qed.

Lemma load_param_report sd k p : (load_param sd k p).2 = report_of sd [(k, p)].
Proof.
  unfold load_param, report_of, mismatch_of, keys. simpl.
  destruct (sd_lookup sd k) as [t|] eqn:Hk.
  - assert (k ∈ keys sd) as Hin.
    { destruct (decide (k ∈ keys sd)) as [|Hn]; [done|].
      apply sd_lookup_None in Hn. congruence. }
    rewrite filter_cons_False by (intros Hn; by apply Hn).
    rewrite filter_nil. by case_decide.
  - apply sd_lookup_None in Hk. by rewrite filter_cons_True.
Qed.

Lemma load_linear_report sd pre l :
  (load_linear sd pre l).2 = report_of sd (linear_state pre l).
Proof.
  unfold load_linear, linear_state.
  pose proof (load_param_report sd (pre +:+ "weight") (weight l)) as Hw.
  pose proof (load_param_report sd (pre +:+ "bias") (bias l)) as Hb.
  destruct (load_param sd (pre +:+ "weight") (weight l)) as [w rw].
  destruct (load_param sd (pre +:+ "bias") (bias l)) as [b rb].
  simpl in *. subst.
  change [(pre +:+ "weight", weight l); (pre +:+ "bias", bias l)]
    with ([(pre +:+ "weight", weight l)] ++ [(pre +:+ "bias", bias l)]).
  by rewrite report_of_app.
Qed.

Lemma load_hidden_report sd i ls :
  (load_hidden sd i ls).2 = report_of sd (hidden_state i ls).
Proof.
  revert i. induction ls as [|l ls IH]; intros i; [done|].
  change (hidden_state i (l :: ls))
    with (linear_state (hidden_prefix i) l ++ hidden_state (S i) ls).
  rewrite report_of_app, <- IH, <- load_linear_report.
  cbn [load_hidden].
  destruct (load_linear sd (hidden_prefix i) l) as [l1 r1].
  destruct (load_hidden sd (S i) ls) as [ls1 r2]. done.
Qed.

(** [load_state_dict] raises exactly when a key is missing, a key is
    unexpected or a shape differs, and the error lists all of them. *)
Lemma load_state_dict_report (m : Network) (sd : state_dict_t) :
  match load_state_dict m sd with
  | Ok _ =>
      missing (report_of sd (state_dict m)) = [] /\
      unexpected_keys m sd = [] /\
      mismatched (report_of sd (state_dict m)) = []
  | Raise e =>
      e = RuntimeError (missing (report_of sd (state_dict m)))
            (unexpected_keys m sd)
            (mismatched (report_of sd (state_dict m))) /\
      ~ (missing (report_of sd (state_dict m)) = [] /\
         unexpected_keys m sd = [] /\
         mismatched (report_of sd (state_dict m)) = [])
  end.
Proof.
  assert (report_of sd (state_dict m)
          = report_app (load_hidden sd 0 (hidden_layers m)).2
              (load_linear sd "output." (output m)).2) as ->.
  { unfold state_dict.
    by rewrite report_of_app, <- load_hidden_report, <- load_linear_report. }
  unfold load_state_dict.
  destruct (load_hidden sd 0 (hidden_layers m)) as [hs rh].
  destruct (load_linear sd "output." (output m)) as [out ro].
  fold (unexpected_keys m sd). simpl.
  destruct (missing rh ++ missing ro) as [|k1 mi];
    [destruct (unexpected_keys m sd) as [|k2 un];
       [destruct (mismatched rh ++ mismatched ro) as [|k3 mm]|]|];
    try done; (split; [done|]); intros (? & ? & ?); discriminate.
Qed.


(** *** Well-formed networks *)

Lemma linear_ok_inv l :
  linear_ok l = true ->
  shape (weight l) = [out_features l; in_features l] /\ shape (bias l) = [out_features l].
Proof.
  unfold linear_ok. rewrite andb_true_iff, !bool_decide_eq_true. tauto.
Qed.

Lemma chain_ok_cons inp l ls :
  chain_ok inp (l :: ls) = true <->
  in_features l = inp /\ linear_ok l = true /\ chain_ok (out_features l) ls = true.
Proof.
  simpl. rewrite !andb_true_iff, bool_decide_eq_true. tauto.
Qed.

Lemma chain_ok_layer inp ls k l :
  chain_ok inp ls = true -> ls !! k = Some l -> linear_ok l = true.
Proof.
  revert inp k. induction ls as [|l0 ls IH]; intros inp k Hc Hk; [done|].
  apply chain_ok_cons in Hc as (_ & Hl & Hc).
  destruct k as [|k]; simplify_eq/=; eauto.
Qed.

Lemma well_formed_inv m :
  well_formed m = true ->
  exists l0 ls,
    hidden_layers m = l0 :: ls /\
    chain_ok (in_features l0) (l0 :: ls) = true /\
    linear_ok (output m) = true /\
    in_features (output m) = List.last (map out_features (l0 :: ls)) 0.
Proof.
  unfold well_formed. destruct (hidden_layers m) as [|l0 ls] eqn:Hh; [done|].
  rewrite !andb_true_iff, bool_decide_eq_true. intros [[H1 H2] H3].
  exists l0, ls. done.
Qed.

Lemma chain_same_sizes inp ls1 ls2 :
  chain_ok inp ls1 = true -> chain_ok inp ls2 = true ->
  map out_features ls1 = map out_features ls2 ->
  Forall2 same_sizes ls1 ls2.
Proof.
  revert inp ls2. induction ls1 as [|l1 ls1 IH]; intros inp [|l2 ls2] H1 H2 Hm;
    simplify_eq/=; [constructor|].
  apply chain_ok_cons in H1 as (Hi1 & Hl1 & H1).
  apply chain_ok_cons in H2 as (Hi2 & Hl2 & H2).
  apply linear_ok_inv in Hl1 as [Hw1 Hb1]. apply linear_ok_inv in Hl2 as [Hw2 Hb2].
  constructor.
  - unfold same_sizes. rewrite Hw1, Hw2, Hb1, Hb2, Hi1, Hi2, H. done.
  - eapply IH; [exact H1 | by rewrite H | done].
Qed.

Lemma same_arch_same_sizes m1 m2 :
  well_formed m1 = true -> well_formed m2 = true ->
  arch_of m1 = arch_of m2 ->
  Forall2 same_sizes (hidden_layers m1) (hidden_layers m2) /\
  same_sizes (output m1) (output m2).
Proof.
  intros (l1 & ls1 & Hh1 & Hc1 & Ho1 & Hi1)%well_formed_inv
         (l2 & ls2 & Hh2 & Hc2 & Ho2 & Hi2)%well_formed_inv.
  intros Ha.
  pose proof (f_equal input_size Ha) as Hin.
  pose proof (f_equal output_size Ha) as Hout.
  pose proof (f_equal hidden_sizes Ha) as Hhid.
  unfold arch_of in Hin, Hout, Hhid. simpl in Hin, Hout, Hhid.
  rewrite Hh1, Hh2 in *. clear Ha.
  split.
  - eapply chain_same_sizes; [exact Hc1 | by rewrite Hin | done].
  - apply linear_ok_inv in Ho1 as [Hw1 Hb1]. apply linear_ok_inv in Ho2 as [Hw2 Hb2].
    unfold same_sizes. rewrite Hw1, Hw2, Hb1, Hb2, Hi1, Hi2, Hout, Hhid. done.
Qed.

(** *** Loading the state dict of a network of the same architecture *)

Lemma load_param_same sd k p t :
  sd_lookup sd k = Some t -> shape p = shape t ->
  load_param sd k p = (t, no_report).
Proof.
  intros Hk Hs. unfold load_param. rewrite Hk, decide_True by done.
  rewrite Hs. by destruct t.
Qed.

Lemma load_linear_same sd pre l1 l2 :
  (forall w, sd_lookup sd (pre +:+ pname_str w) = Some (pname_get w l2)) ->
  same_sizes l1 l2 ->
  load_linear sd pre l1 = (l2, no_report).
Proof.
  intros Hk (Hi & Ho & Hw & Hb). unfold load_linear.
  pose proof (Hk PWeight) as HW. pose proof (Hk PBias) as HB. simpl in HW, HB.
  rewrite (load_param_same sd _ _ _ HW Hw), (load_param_same sd _ _ _ HB Hb).
  rewrite Hi, Ho. by destruct l2.
Qed.

Lemma load_hidden_same sd i0 ls1 ls2 :
  Forall2 same_sizes ls1 ls2 ->
  (forall k l2 w, ls2 !! k = Some l2 ->
     sd_lookup sd (hidden_prefix (i0 + k) +:+ pname_str w) = Some (pname_get w l2)) ->
  load_hidden sd i0 ls1 = (ls2, no_report).
Proof.
  intros HF. revert i0. induction HF as [|l1 l2 ls1 ls2 Hl _ IH]; intros i0 Hk; [done|].
  cbn [load_hidden]. rewrite (load_linear_same sd _ l1 l2); [|  |done].
  - rewrite IH; [done|]. intros k l w Hl2.
    replace (S i0 + k) with (i0 + S k) by lia. by apply Hk.
  - intros w. specialize (Hk 0 l2 w eq_refl). by rewrite Nat.add_0_r in Hk.
Qed.

Lemma filter_all_in (l : list string) : filter (fun k => k ∉ l) l = [].
Proof.
  assert (forall l', l' ⊆ l -> filter (fun k => k ∉ l) l' = []) as H.
  { induction l' as [|k l' IH]; intros Hsub; [done|].
    rewrite filter_cons_False.
    - apply IH. intros x Hx. apply Hsub. by right.
    - intros Hn. apply Hn, Hsub. by left. }
  by apply H.
Qed.

Lemma load_same_architecture (m1 m2 : Network) :
  well_formed m1 = true -> well_formed m2 = true ->
  arch_of m1 = arch_of m2 ->
  load_state_dict m1 (state_dict m2) = Ok m2.
Proof.
  intros Hw1 Hw2 Ha.
  destruct (same_arch_same_sizes m1 m2 Hw1 Hw2 Ha) as [Hh Ho].
  unfold load_state_dict.
  rewrite (load_hidden_same _ 0 _ (hidden_layers m2) Hh).
  2: { intros k l w Hk. simpl. by rewrite state_dict_hidden, Hk. }
  rewrite (load_linear_same _ _ _ (output m2)); [|apply state_dict_output|done].
  rewrite (keys_state_dict m1 m2) by (by eapply Forall2_length).
  rewrite filter_all_in. simpl. by destruct m2.
Qed.


(** *** Loading succeeds for the same architecture only *)

Lemma state_dict_hidden_elem m k l w :
  hidden_layers m !! k = Some l ->
  (hidden_prefix k +:+ pname_str w, pname_get w l) ∈ state_dict m.
Proof.
  intros Hk. apply sd_lookup_elem_of. by rewrite state_dict_hidden, Hk.
Qed.

Lemma state_dict_output_elem m w :
  ("output." +:+ pname_str w, pname_get w (output m)) ∈ state_dict m.
Proof. apply sd_lookup_elem_of, state_dict_output. Qed.

Lemma elem_of_keys (sd : state_dict_t) k t : (k, t) ∈ sd -> k ∈ keys sd.
Proof. intros H. unfold keys. apply list_elem_of_fmap. by exists (k, t). Qed.

Lemma omap_nil_inv {A B} (f : A -> option B) (l : list A) x :
  omap f l = [] -> x ∈ l -> f x = None.
Proof.
  intros Hnil Hx. destruct (f x) as [y|] eqn:Hfx; [|done].
  assert (y ∈ omap f l) as Hy by (apply list_elem_of_omap; eauto).
  rewrite Hnil in Hy. by apply elem_of_nil in Hy.
Qed.

(** No missing key: the saved network has at least the hidden layers of the
    model. *)
Lemma no_missing_depth m1 m2 :
  missing (report_of (state_dict m2) (state_dict m1)) = [] ->
  length (hidden_layers m1) <= length (hidden_layers m2).
Proof.
  simpl. intros Hnil.
  destruct (hidden_layers m1 !! (length (hidden_layers m1) - 1)) as [l0|] eqn:Hk.
  - pose proof (state_dict_hidden_elem m1 _ _ PWeight Hk) as Hin%elem_of_keys.
    destruct (decide (hidden_prefix (length (hidden_layers m1) - 1) +:+ pname_str PWeight
                      ∈ keys (state_dict m2))) as [Hin2|Hn].
    + destruct (sd_lookup (state_dict m2)
                  (hidden_prefix (length (hidden_layers m1) - 1) +:+ pname_str PWeight))
        as [t|] eqn:Hl.
      * rewrite state_dict_hidden in Hl.
        destruct (hidden_layers m2 !! (length (hidden_layers m1) - 1)) eqn:Hk2; [|done].
        apply lookup_lt_Some in Hk2. lia.
      * apply sd_lookup_None in Hl. done.
    + exfalso. eapply filter_nil_not_elem_of; [exact Hnil | exact Hn | exact Hin].
  - apply lookup_ge_None in Hk. lia.
Qed.

Lemma no_unexpected_depth m1 m2 :
  unexpected_keys m1 (state_dict m2) = [] ->
  length (hidden_layers m2) <= length (hidden_layers m1).
Proof.
  intros Hnil. apply no_missing_depth. simpl. exact Hnil.
Qed.

Lemma no_mismatch_layer m1 m2 k l1 l2 w :
  mismatched (report_of (state_dict m2) (state_dict m1)) = [] ->
  hidden_layers m1 !! k = Some l1 ->
  hidden_layers m2 !! k = Some l2 ->
  shape (pname_get w l2) = shape (pname_get w l1).
Proof.
  simpl. intros Hnil H1 H2.
  pose proof (omap_nil_inv _ _ _ Hnil (state_dict_hidden_elem m1 k l1 w H1)) as Hm.
  unfold mismatch_of in Hm. simpl in Hm. rewrite state_dict_hidden, H2 in Hm.
  simpl in Hm. by case_decide.
Qed.

Lemma no_mismatch_output m1 m2 w :
  mismatched (report_of (state_dict m2) (state_dict m1)) = [] ->
  shape (pname_get w (output m2)) = shape (pname_get w (output m1)).
Proof.
  simpl. intros Hnil.
  pose proof (omap_nil_inv _ _ _ Hnil (state_dict_output_elem m1 w)) as Hm.
  unfold mismatch_of in Hm. simpl in Hm. rewrite state_dict_output in Hm.
  by case_decide.
Qed.

Lemma wf_hidden_layer m k l :
  well_formed m = true -> hidden_layers m !! k = Some l -> linear_ok l = true.
Proof.
  intros (l0 & ls & Hh & Hc & _)%well_formed_inv Hk.
  rewrite Hh in Hk. by eapply chain_ok_layer.
Qed.

Lemma load_ok_same_architecture (m1 m2 : Network) :
  well_formed m1 = true -> well_formed m2 = true ->
  is_Ok (load_state_dict m1 (state_dict m2)) ->
  arch_of m1 = arch_of m2.
Proof.
  intros Hw1 Hw2 Hok.
  pose proof (load_state_dict_report m1 (state_dict m2)) as Hrep.
  destruct (load_state_dict m1 (state_dict m2)) as [m|e]; [|done].
  destruct Hrep as (Hmiss & Hunexp & Hmism).
  assert (length (hidden_layers m1) = length (hidden_layers m2)) as Hlen.
  { apply Nat.le_antisymm; [by apply no_missing_depth | by apply no_unexpected_depth]. }
  assert (forall k l1 l2, hidden_layers m1 !! k = Some l1 -> hidden_layers m2 !! k = Some l2 ->
            in_features l1 = in_features l2 /\ out_features l1 = out_features l2) as Hlayers.
  { intros k l1 l2 H1 H2.
    pose proof (no_mismatch_layer m1 m2 k l1 l2 PWeight Hmism H1 H2) as Hs. simpl in Hs.
    apply (wf_hidden_layer _ _ _ Hw1), linear_ok_inv in H1 as [Hs1 _].
    apply (wf_hidden_layer _ _ _ Hw2), linear_ok_inv in H2 as [Hs2 _].
    rewrite Hs1, Hs2 in Hs. by injection Hs as -> ->. }
  pose proof (no_mismatch_output m1 m2 PBias Hmism) as Hob. simpl in Hob.
  pose proof Hw1 as (l1 & ls1 & Hh1 & _ & Ho1 & _)%well_formed_inv.
  pose proof Hw2 as (l2 & ls2 & Hh2 & _ & Ho2 & _)%well_formed_inv.
  apply linear_ok_inv in Ho1 as [_ Hb1]. apply linear_ok_inv in Ho2 as [_ Hb2].
  rewrite Hb1, Hb2 in Hob. injection Hob as Hout.
  unfold arch_of. f_equal.
  - rewrite Hh1, Hh2. apply (Hlayers 0); [by rewrite Hh1 | by rewrite Hh2].
  - done.
  - apply list_eq. intros k. rewrite !list_lookup_fmap.
    destruct (hidden_layers m1 !! k) as [a|] eqn:H1;
      destruct (hidden_layers m2 !! k) as [b|] eqn:H2; simpl.
    + f_equal. by eapply Hlayers.
    + apply lookup_lt_Some in H1. apply lookup_ge_None in H2. lia.
    + apply lookup_lt_Some in H2. apply lookup_ge_None in H1. lia.
    + done.
Qed.


(** *** New networks *)

Lemma more_hidden_sizes init k h1 hs :
  map out_features (more_hidden init k h1 hs) = hs.
Proof.
  revert k h1. induction hs as [|h2 hs IH]; intros k h1; simpl; [done|].
  by rewrite IH.
Qed.

Lemma more_hidden_chain init k h1 hs :
  chain_ok h1 (more_hidden init k h1 hs) = true.
Proof.
  revert k h1. induction hs as [|h2 hs IH]; intros k h1; [done|].
  cbn [more_hidden]. apply chain_ok_cons. split; [done|]. split; [|apply IH].
  unfold linear_ok. simpl. by rewrite !bool_decide_eq_true_2.
Qed.

Lemma last_cons_default {A} (x d d' : A) (l : list A) :
  List.last (x :: l) d = List.last (x :: l) d'.
Proof.
  revert x. induction l as [|y l IH]; intros x; [done|].
  change (List.last (y :: l) d = List.last (y :: l) d'). apply IH.
Qed.

Lemma Network_init_spec init i o (hidden : list nat) :
  hidden ≠ [] ->
  exists m, Network_init init i o hidden = Ok m /\
            well_formed m = true /\ arch_of m = Arch i o hidden.
Proof.
  destruct hidden as [|h0 hs]; [done|]. intros _.
  eexists. split; [reflexivity|]. split.
  - unfold well_formed. cbn [hidden_layers output].
    rewrite !andb_true_iff. split; [split|].
    + apply chain_ok_cons. split; [done|]. split; [|apply more_hidden_chain].
      unfold linear_ok. simpl. by rewrite !bool_decide_eq_true_2.
    + unfold linear_ok. simpl. by rewrite !bool_decide_eq_true_2.
    + apply bool_decide_eq_true. cbn [Linear_init in_features map out_features].
      rewrite more_hidden_sizes. apply last_cons_default.
  - unfold arch_of. cbn [hidden_layers output Linear_init in_features out_features map].
    by rewrite more_hidden_sizes.
Qed.

Lemma Network_init_empty init i o : Network_init init i o [] = Raise IndexError.
Proof. reflexivity. Qed.

Lemma well_formed_hidden_nonempty m :
  well_formed m = true -> map out_features (hidden_layers m) ≠ [].
Proof. intros (l0 & ls & -> & _)%well_formed_inv. done. Qed.

(** *** Files *)

Lemma as_tensors_of_state_dict (sd : state_dict_t) :
  as_tensors (of_state_dict sd) = Ok sd.
Proof.
  induction sd as [|[k t] sd IH]; [done|].
  unfold of_state_dict in *. simpl. by rewrite IH.
Qed.

Lemma torch_load_save d path (fs : files) :
  torch_load (torch_save d path fs) path = Ok d.
Proof. unfold torch_load, torch_save. by rewrite lookup_insert_eq. Qed.

(** C4: saving the state dict of a model with [torch.save], reading it back
    with [torch.load] and loading it into a model of the same architecture
    restores the saved parameters: the state dict read back has the keys of
    the saved one (it is the saved one), loading it succeeds, and every
    tensor of the restored model is the saved tensor of its name. *)
Theorem state_dict_round_trip (fs : files) (model model' : Network) :
  well_formed model = true ->
  well_formed model' = true ->
  arch_of model' = arch_of model ->
  exists (state_dict' : state_dict_t) (restored : Network),
    load_state_dict_cell (save_state_dict_cell model fs) = Ok state_dict' /\
    keys state_dict' = keys (state_dict model) /\
    state_dict' = state_dict model /\
    load_state_dict model' state_dict' = Ok restored /\
    state_dict restored = state_dict model /\
    (forall k t, sd_lookup (state_dict model) k = Some t ->
                 sd_lookup (state_dict restored) k = Some t) /\
    restored = model.
Proof.
  intros Hw Hw' Ha. exists (state_dict model), model.
  assert (load_state_dict_cell (save_state_dict_cell model fs) = Ok (state_dict model)) as ->.
  { unfold load_state_dict_cell, save_state_dict_cell. rewrite torch_load_save. simpl.
    apply as_tensors_of_state_dict. }
  rewrite (load_same_architecture model' model Hw' Hw Ha).
  by repeat split.
Qed.

(** A checkpoint that records the sizes of the model it holds loads as that
    model, from any path. *)
Lemma load_checkpoint_consistent (init : initializer) (fs : files) (path : string)
    (model : Network) :
  well_formed model = true ->
  load_checkpoint init
    (torch_save (checkpoint_with (input_size (arch_of model)) (output_size (arch_of model))
                   model) path fs) path
  = Ok model.
Proof.
  intros Hw.
  destruct (Network_init_spec init (input_size (arch_of model)) (output_size (arch_of model))
              (map out_features (hidden_layers model)))
    as (m0 & Hinit & Hw0 & Ha0); [by apply well_formed_hidden_nonempty|].
  unfold load_checkpoint. rewrite torch_load_save.
  unfold checkpoint_with. simpl. simpl in Hinit. rewrite Hinit. simpl.
  apply load_same_architecture; [done..|]. by rewrite Ha0.
Qed.

(** C5, amended: for a model with input size 784 and output size 10, the
    sizes the checkpoint cell writes, [load_checkpoint] on the saved
    checkpoint returns a network with the saved input size, output size and
    hidden-layer sizes whose parameters are the saved state dict: it
    returns the model that was saved. *)
Theorem checkpoint_round_trip (init : initializer) (fs : files) (model : Network) :
  well_formed model = true ->
  input_size (arch_of model) = 784 ->
  output_size (arch_of model) = 10 ->
  exists loaded : Network,
    load_checkpoint init (save_checkpoint_cell model fs) "checkpoint.pth" = Ok loaded /\
    input_size (arch_of loaded) = 784 /\
    output_size (arch_of loaded) = 10 /\
    hidden_sizes (arch_of loaded) = map out_features (hidden_layers model) /\
    state_dict loaded = state_dict model /\
    loaded = model.
Proof.
  intros Hw Hin Hout. exists model. split.
  - unfold save_checkpoint_cell.
    change (checkpoint_of model) with (checkpoint_with 784 10 model).
    rewrite <- Hin at 1. rewrite <- Hout at 1. by apply load_checkpoint_consistent.
  - rewrite Hin, Hout. by repeat split.
Qed.

(** C2, amended: loading the state dict of a saved network into a model
    succeeds exactly when the two have the same architecture (input size,
    output size and list of hidden sizes), and then the model becomes the
    saved network.  Otherwise [load_state_dict] raises [RuntimeError] with
    the keys of the model missing from the state dict, the keys of the
    state dict the model does not have and, for every parameter of both
    whose shapes differ, the shape in the checkpoint and the shape in the
    model; when both networks have the same number of hidden layers no key
    is missing or unexpected and at least one shape mismatch is listed. *)
Theorem load_state_dict_architecture (model saved : Network) :
  well_formed model = true ->
  well_formed saved = true ->
  (is_Ok (load_state_dict model (state_dict saved)) <-> arch_of model = arch_of saved) /\
  (arch_of model = arch_of saved -> load_state_dict model (state_dict saved) = Ok saved) /\
  (arch_of model ≠ arch_of saved ->
   exists missing unexpected size_mismatch,
     load_state_dict model (state_dict saved)
     = Raise (RuntimeError missing unexpected size_mismatch) /\
     (forall k, k ∈ missing <->
                k ∈ keys (state_dict model) /\ k ∉ keys (state_dict saved)) /\
     (forall k, k ∈ unexpected <->
                k ∈ keys (state_dict saved) /\ k ∉ keys (state_dict model)) /\
     (forall k s_saved s_model,
        (k, s_saved, s_model) ∈ size_mismatch <->
        exists t p, sd_lookup (state_dict saved) k = Some t /\
                    (k, p) ∈ state_dict model /\
                    s_saved = shape t /\ s_model = shape p /\ s_saved ≠ s_model) /\
     (length (hidden_layers model) = length (hidden_layers saved) ->
      missing = [] /\ unexpected = [] /\ size_mismatch ≠ [])).
Proof.
  intros Hw1 Hw2.
  assert (arch_of model = arch_of saved ->
          load_state_dict model (state_dict saved) = Ok saved) as Hsame
    by (by apply load_same_architecture).
  split; [|split; [done|]].
  { split; [by apply load_ok_same_architecture|]. intros Ha. by rewrite Hsame. }
  intros Hne.
  pose proof (load_state_dict_report model (state_dict saved)) as Hrep.
  destruct (load_state_dict model (state_dict saved)) as [m|e] eqn:Hload.
  { exfalso. apply Hne. apply load_ok_same_architecture; [done..|]. by rewrite Hload. }
  destruct Hrep as [-> Hsome].
  eexists _, _, _. split; [reflexivity|].
  split; [|split; [|split]].
  - intros k. simpl. rewrite list_elem_of_filter. tauto.
  - intros k. unfold unexpected_keys. rewrite list_elem_of_filter. tauto.
  - intros k s2 s1. simpl. rewrite list_elem_of_omap. split.
    + intros ([k' p] & Hin & Hm). unfold mismatch_of in Hm. simpl in Hm.
      destruct (sd_lookup (state_dict saved) k') as [t|] eqn:Hl; [|done].
      case_decide; [done|]. injection Hm as <- <- <-. by exists t, p.
    + intros (t & p & Hl & Hin & -> & -> & Hs). exists (k, p). split; [done|].
      unfold mismatch_of. simpl. rewrite Hl. by rewrite decide_False.
  - intros Hlen.
    assert (missing (report_of (state_dict saved) (state_dict model)) = []) as Hm.
    { simpl. rewrite (keys_state_dict saved model) by done. apply filter_all_in. }
    assert (unexpected_keys model (state_dict saved) = []) as Hu.
    { unfold unexpected_keys. rewrite (keys_state_dict model saved) by done.
      apply filter_all_in. }
    split; [done|]. split; [done|]. intros Hnil. apply Hsome. done.
Qed.

Lemma state_dict_round_trip_witness :
  load_state_dict (network_of zeros small_arch)
    (state_dict (network_of ramp small_arch))
  = Ok (network_of ramp small_arch).
Proof.
  destruct (state_dict_round_trip ∅ (network_of ramp small_arch) (network_of zeros small_arch))
    as (sd & restored & _ & _ & -> & -> & _ & _ & ->).
  - reflexivity.
  - reflexivity.
  - reflexivity.
  - reflexivity.
Defined.

Lemma checkpoint_round_trip_witness :
  load_checkpoint zeros (save_checkpoint_cell (network_of ramp mnist_arch) ∅) "checkpoint.pth"
  = Ok (network_of ramp mnist_arch).
Proof.
  destruct (checkpoint_round_trip zeros ∅ (network_of ramp mnist_arch))
    as (loaded & -> & _ & _ & _ & _ & ->).
  - vm_compute. reflexivity.
  - reflexivity.
  - reflexivity.
  - reflexivity.
Defined.

(** A model with other sizes than 784 and 10: the checkpoint cell still
    writes 784 and 10, and [load_checkpoint] fails on the checkpoint. *)
Lemma checkpoint_round_trip_counterexample :
  well_formed (network_of ramp small_arch) = true /\
  load_checkpoint zeros (save_checkpoint_cell (network_of ramp small_arch) ∅) "checkpoint.pth"
  = Raise (RuntimeError [] []
             [ ("hidden_layers.0.weight", [4; 3], [4; 784]);
               ("output.weight", [2; 2], [10; 2]);
               ("output.bias", [2], [10]) ]).
Proof. split; vm_compute; reflexivity. Qed.

Lemma load_state_dict_architecture_witness :
  is_Ok (load_state_dict (network_of zeros small_arch) (state_dict (network_of ramp other_arch)))
  <-> arch_of (network_of zeros small_arch) = arch_of (network_of ramp other_arch).
Proof.
  apply (load_state_dict_architecture (network_of zeros small_arch) (network_of ramp other_arch)).
  - reflexivity.
  - reflexivity.
Defined.

(** A model with one hidden layer and the state dict of a network with a
    second hidden layer of the same size: every parameter of the model has
    the shape of the saved tensor of its name, the architectures differ,
    and the error lists two unexpected keys and no shape. *)
Lemma load_state_dict_extra_layer_counterexample :
  well_formed one_hidden = true /\
  well_formed two_hidden = true /\
  arch_of one_hidden ≠ arch_of two_hidden /\
  load_state_dict one_hidden (state_dict two_hidden)
  = Raise (RuntimeError [] ["hidden_layers.1.weight"; "hidden_layers.1.bias"] []) /\
  load_state_dict two_hidden (state_dict one_hidden)
  = Raise (RuntimeError ["hidden_layers.1.weight"; "hidden_layers.1.bias"] [] []).
Proof. repeat split; try (vm_compute; reflexivity). discriminate. Qed.

End CheckpointSpec.

(** ** Training loops *)

Module TrainingSpec.
Import Training.
Local Open Scope nat_scope.

Section Loop.

Context {params grads opt_state images labels logits scalar : Type}.

Context
  (flatten : images -> result images)
  (forward : params -> images -> result logits)
  (criterion : logits -> labels -> result scalar)
  (gradient : params -> images -> labels -> result grads)
  (accumulate : grads -> grads -> grads)
  (update : opt_state -> params -> option grads -> result (opt_state * params))
  (zero : scalar)
  (add : scalar -> scalar -> scalar)
  (div : scalar -> nat -> scalar).

Local Abbreviation state := (@state params grads opt_state images labels logits scalar).
Local Abbreviation event := (@event images labels logits scalar).
Local Abbreviation DataLoader := (@DataLoader images labels).
Local Abbreviation training_pass :=
  (training_pass flatten forward criterion gradient accumulate update).
Local Abbreviation training_pass_fashion :=
  (training_pass_fashion forward criterion gradient accumulate update).
Local Abbreviation train :=
  (train flatten forward criterion gradient accumulate update zero add div).
Local Abbreviation train_fashion :=
  (train_fashion forward criterion gradient accumulate update zero add div).
Local Abbreviation accepts := (accepts forward criterion gradient).
Local Abbreviation pass_record := (pass_record forward criterion).
Local Abbreviation raised_by := (raised_by forward criterion gradient update).
Local Abbreviation steps := (steps update).
Local Abbreviation sum_losses := (sum_losses zero add).
Local Abbreviation mean_loss := (mean_loss zero add div).
Local Abbreviation epoch_events := (epoch_events zero add div).

(** Running a statement after another. *)
Lemma cell_bind_Ok {A B} (m : cell state A) (f : A -> cell state B) (st st' : state) (a : A) :
  m st = (Ok a, st') -> (m ≫= f) st = f a st'.
Proof. intros H. unfold mbind, cell_bind. by rewrite H. Qed.

Lemma cell_bind_Raise {A B} (m : cell state A) (f : A -> cell state B) (st st' : state) e :
  m st = (Raise e, st') -> (m ≫= f) st = (Raise e, st').
Proof. intros H. unfold mbind, cell_bind. by rewrite H. Qed.

(** One training pass whose calls return. *)
Lemma training_pass_ok (b : images * labels) (st : state) x o l g r :
  flatten b.1 = Ok x ->
  forward (model st) x = Ok o ->
  criterion o b.2 = Ok l ->
  gradient (model st) x b.2 = Ok g ->
  update (optimizer st) (model st) (Some g) = Ok r ->
  training_pass b st
  = (Ok l,
     {| model := r.2; grad := Some g; optimizer := r.1; stdout := stdout st;
        trace := trace st ++ pass_events x o b.2 l |}).
Proof.
  destruct b as [x0 y], r as [o' p']. simpl. intros Hx Ho Hl Hg Hr.
  unfold Training.training_pass, call_view, pure_call, zero_grad, call_model,
    call_criterion, backward, step, log, mbind, cell_bind, mret, cell_ret. simpl.
  rewrite Hx. simpl. rewrite Ho. simpl. rewrite Hl. simpl. rewrite Hg. simpl.
  rewrite Hr. simpl. unfold pass_events. by rewrite <- !app_assoc.
Qed.

Lemma training_pass_fashion_ok (b : images * labels) (st : state) x o l g r :
  Ok b.1 = Ok x ->
  forward (model st) x = Ok o ->
  criterion o b.2 = Ok l ->
  gradient (model st) x b.2 = Ok g ->
  update (optimizer st) (model st) (Some g) = Ok r ->
  training_pass_fashion b st
  = (Ok l,
     {| model := r.2; grad := Some g; optimizer := r.1; stdout := stdout st;
        trace := trace st ++ pass_events_fashion x o b.2 l |}).
Proof.
  destruct b as [x0 y], r as [o' p']. simpl. intros [= <-] Ho Hl Hg Hr.
  unfold Training.training_pass_fashion, zero_grad, call_model,
    call_criterion, backward, step, log, mbind, cell_bind, mret, cell_ret. simpl.
  rewrite Ho. simpl. rewrite Hl. simpl. rewrite Hg. simpl.
  rewrite Hr. simpl. unfold pass_events_fashion. by rewrite <- !app_assoc.
Qed.

(** One training pass that raises: one of its calls raised, and the
    parameters, the optimizer and the output are as before. *)
Lemma training_pass_raise (b : images * labels) (st st' : state) (e : exn) :
  training_pass b st = (Raise e, st') ->
  raised_by flatten b e /\
  model st' = model st /\ optimizer st' = optimizer st /\ stdout st' = stdout st.
Proof.
  destruct b as [x0 y].
  unfold Training.training_pass, Training.raised_by, call_view, pure_call, zero_grad,
    call_model, call_criterion, backward, step, log, mbind, cell_bind, mret, cell_ret.
  simpl. destruct (flatten x0) as [x|e0] eqn:Hx; simpl; [|intros [= <- <-]; auto].
  destruct (forward (model st) x) as [o|e0] eqn:Ho; simpl;
    [|intros [= <- <-]; split; [right; exists x; eauto 6 | done]].
  destruct (criterion o y) as [l|e0] eqn:Hl; simpl;
    [|intros [= <- <-]; split; [right; exists x; eauto 8 | done]].
  destruct (gradient (model st) x y) as [g|e0] eqn:Hg; simpl;
    [|intros [= <- <-]; split; [right; exists x; eauto 8 | done]].
  destruct (update (optimizer st) (model st) (Some g)) as [[o' p']|e0] eqn:Hr; simpl;
    [done|intros [= <- <-]; split; [right; exists x; eauto 10 | done]].
Qed.

Lemma training_pass_fashion_raise (b : images * labels) (st st' : state) (e : exn) :
  training_pass_fashion b st = (Raise e, st') ->
  raised_by Ok b e /\
  model st' = model st /\ optimizer st' = optimizer st /\ stdout st' = stdout st.
Proof.
  destruct b as [x y].
  unfold Training.training_pass_fashion, Training.raised_by, zero_grad,
    call_model, call_criterion, backward, step, log, mbind, cell_bind, mret, cell_ret.
  simpl.
  destruct (forward (model st) x) as [o|e0] eqn:Ho; simpl;
    [|intros [= <- <-]; split; [right; exists x; eauto 6 | done]].
  destruct (criterion o y) as [l|e0] eqn:Hl; simpl;
    [|intros [= <- <-]; split; [right; exists x; eauto 8 | done]].
  destruct (gradient (model st) x y) as [g|e0] eqn:Hg; simpl;
    [|intros [= <- <-]; split; [right; exists x; eauto 8 | done]].
  destruct (update (optimizer st) (model st) (Some g)) as [[o' p']|e0] eqn:Hr; simpl;
    [done|intros [= <- <-]; split; [right; exists x; eauto 10 | done]].
Qed.

Lemma losses_of_app (evs1 evs2 : list event) :
  losses_of (evs1 ++ evs2) = losses_of evs1 ++ losses_of evs2.
Proof. apply omap_app. Qed.

Lemma count_app k (evs1 evs2 : list event) :
  count k (evs1 ++ evs2) = count k evs1 + count k evs2.
Proof. unfold count. by rewrite filter_app, length_app. Qed.

(** *** Loops over any pass of this form *)

Section AnyPass.

(** A pass that feeds [prep images] to the model, leaves the gradient of
    that batch in [.grad], takes one optimizer step and makes the calls
    [events_of] lists; when it raises, one of its calls raised. *)
Variable pass : images * labels -> cell state scalar.
Variable prep : images -> result images.
Variable events_of : images -> logits -> labels -> scalar -> list event.

Hypothesis pass_ok : forall (b : images * labels) (st : state) x o l g r,
  prep b.1 = Ok x ->
  forward (model st) x = Ok o ->
  criterion o b.2 = Ok l ->
  gradient (model st) x b.2 = Ok g ->
  update (optimizer st) (model st) (Some g) = Ok r ->
  pass b st
  = (Ok l,
     {| model := r.2; grad := Some g; optimizer := r.1; stdout := stdout st;
        trace := trace st ++ events_of x o b.2 l |}).

Hypothesis pass_raise : forall (b : images * labels) (st st' : state) (e : exn),
  pass b st = (Raise e, st') ->
  raised_by prep b e /\
  model st' = model st /\ optimizer st' = optimizer st /\ stdout st' = stdout st.

Hypothesis events_losses : forall x o y l, losses_of (events_of x o y l) = [l].

Hypothesis events_count : forall x o y l k, count k (events_of x o y l) = 1.

Local Abbreviation batch_loop := (batch_loop add pass).
Local Abbreviation epoch := (epoch zero add div pass).
Local Abbreviation epochs_from := (epochs_from zero add div pass).

Lemma count_batches k (bs : list (images * labels)) (evss : list (list event)) :
  Forall2 (pass_record prep events_of) bs evss ->
  count k (concat evss) = length bs.
Proof.
  induction 1 as [|b evs bs evss (p & x & o & l & _ & _ & _ & ->) _ IH]; [done|].
  simpl. by rewrite count_app, events_count, IH.
Qed.

Lemma batch_loop_spec (bs : list (images * labels)) (running_loss : scalar) (st : state) :
  (forall b, b ∈ bs -> accepts prep b) ->
  steps ->
  exists (evss : list (list event)) (st' : state),
    batch_loop bs running_loss st
    = (Ok (fold_left add (losses_of (concat evss)) running_loss), st') /\
    Forall2 (pass_record prep events_of) bs evss /\
    trace st' = trace st ++ concat evss /\
    stdout st' = stdout st.
Proof.
  intros Hacc Hsteps. revert running_loss st.
  induction bs as [|b bs IH]; intros rl st.
  - exists [], st. simpl. rewrite app_nil_r. by repeat split; try constructor.
  - destruct (Hacc b) as (x & Hx & Hcalls); [by left|].
    destruct (Hcalls (model st)) as (o & l & g & Ho & Hl & Hg).
    pose proof (Hsteps (optimizer st) (model st) g) as Hr.
    destruct (update (optimizer st) (model st) (Some g)) as [r|] eqn:Hup; [|done].
    cbn [Training.batch_loop].
    rewrite (cell_bind_Ok _ _ st _ l (pass_ok b st x o l g r Hx Ho Hl Hg Hup)).
    edestruct IH as (evss & st' & -> & Hrec & Htr & Hout).
    { intros b' Hb'. apply Hacc. by right. }
    exists (events_of x o b.2 l :: evss), st'. simpl in *.
    rewrite losses_of_app, events_losses, Htr, Hout, <- app_assoc. simpl.
    split; [done|]. split; [|done]. constructor; [|done].
    by exists (model st), x, o, l.
Qed.

Lemma batch_loop_raise (bs : list (images * labels)) (running_loss : scalar)
    (st st' : state) (e : exn) :
  batch_loop bs running_loss st = (Raise e, st') ->
  exists b, b ∈ bs /\ raised_by prep b e.
Proof.
  revert running_loss st. induction bs as [|b bs IH]; intros rl st; [done|].
  cbn [Training.batch_loop]. unfold mbind, cell_bind.
  destruct (pass b st) as [[l|e0] st1] eqn:Hpass.
  - intros H. destruct (IH _ _ H) as (b' & Hin & Hraise).
    exists b'. split; [by right | done].
  - intros [= <- <-]. exists b. split; [by left|]. by eapply pass_raise.
Qed.

(** An epoch over a loader with batches the library takes: the calls of
    its batches, then one line with the mean of the losses. *)
Lemma epoch_spec (trainloader : DataLoader) (e : nat) (st : state) :
  len trainloader ≠ 0 ->
  (forall b, b ∈ batches trainloader e -> accepts prep b) ->
  steps ->
  exists (seg : list event) (st' : state),
    epoch trainloader e st = (Ok (), st') /\
    trace st' = trace st ++ epoch_events seg (len trainloader) /\
    stdout st' = stdout st ++ [mean_loss seg (len trainloader)] /\
    (exists evss : list (list event),
       Forall2 (pass_record prep events_of) (batches trainloader e) evss /\
       seg = concat evss) /\
    (forall k, count k seg = len trainloader).
Proof.
  intros Hlen Hacc Hsteps. unfold Training.epoch.
  destruct (batch_loop_spec (batches trainloader e) zero st Hacc Hsteps)
    as (evss & st1 & Hrun & Hrec & Htr & Hout).
  rewrite (cell_bind_Ok _ _ st _ _ Hrun).
  assert (forall x, truediv div x (len trainloader) = Ok (div x (len trainloader))) as Hdiv.
  { intros x. unfold truediv. by destruct (len trainloader). }
  unfold pure_call, mbind, cell_bind. rewrite Hdiv.
  eexists _, _. split; [reflexivity|]. simpl. rewrite Hout, Htr.
  split; [by rewrite <- app_assoc|]. split; [reflexivity|]. split.
  - by exists evss.
  - intros k. rewrite (count_batches k _ _ Hrec). apply len_batches.
Qed.

Lemma epochs_from_spec (trainloader : DataLoader) (n e : nat) (st : state) :
  len trainloader ≠ 0 ->
  (forall e' b, e <= e' < e + n -> b ∈ batches trainloader e' -> accepts prep b) ->
  steps ->
  exists (segs : list (list event)) (st' : state),
    epochs_from trainloader e n st = (Ok (), st') /\
    length segs = n /\
    trace st'
    = trace st ++ concat (map (fun seg => epoch_events seg (len trainloader)) segs) /\
    stdout st' = stdout st ++ map (fun seg => mean_loss seg (len trainloader)) segs /\
    (forall j seg, segs !! j = Some seg ->
       (exists evss : list (list event),
          Forall2 (pass_record prep events_of) (batches trainloader (e + j)) evss /\
          seg = concat evss) /\
       (forall k, count k seg = len trainloader)).
Proof.
  intros Hlen Hacc Hsteps. revert e st Hacc. induction n as [|n IH]; intros e st Hacc.
  - exists [], st. simpl. rewrite !app_nil_r. repeat split; try done.
    all: intros j seg Hj; by rewrite lookup_nil in Hj.
  - cbn [Training.epochs_from].
    destruct (epoch_spec trainloader e st Hlen) as (seg & st1 & Hrun & Htr1 & Hout1 & Hseg).
    { intros b Hb. apply (Hacc e); [lia|done]. }
    { done. }
    rewrite (cell_bind_Ok _ _ st _ _ Hrun).
    destruct (IH (S e) st1) as (segs & st' & -> & Hn & Htr & Hout & Hsegs).
    { intros e' b He' Hb. apply (Hacc e'); [lia|done]. }
    exists (seg :: segs), st'. split; [done|]. split; [simpl; by rewrite Hn|].
    split; [rewrite Htr, Htr1, <- app_assoc; done|].
    split; [rewrite Hout, Hout1, <- app_assoc; done|].
    intros [|j] seg' Hj; simplify_eq/=.
    + by rewrite Nat.add_0_r.
    + replace (e + S j) with (S e + j) by lia. by apply Hsegs.
Qed.

(** An epoch over a loader without batches divides by zero. *)
Lemma epoch_empty (trainloader : DataLoader) (e : nat) (st : state) :
  len trainloader = 0 -> epoch trainloader e st = (Raise ZeroDivisionError, st).
Proof.
  intros Hlen. unfold Training.epoch.
  pose proof (len_batches trainloader e) as Hb. rewrite Hlen in Hb.
  apply nil_length_inv in Hb. rewrite Hb, Hlen. reflexivity.
Qed.

(** What an epoch that raises raised. *)
Lemma epoch_raise (trainloader : DataLoader) (e : nat) (st st' : state) (x : exn) :
  epoch trainloader e st = (Raise x, st') ->
  (x = ZeroDivisionError /\ len trainloader = 0) \/
  (exists b, b ∈ batches trainloader e /\ raised_by prep b x).
Proof.
  unfold Training.epoch, mbind, cell_bind.
  destruct (batch_loop (batches trainloader e) zero st) as [[rl|e0] st1] eqn:Hloop.
  - unfold pure_call, truediv. destruct (len trainloader); [|done].
    intros [= <- <-]. by left.
  - intros [= <- <-]. right. by eapply batch_loop_raise.
Qed.

Lemma epochs_from_raise (trainloader : DataLoader) (n e : nat) (st st' : state) (x : exn) :
  epochs_from trainloader e n st = (Raise x, st') ->
  (x = ZeroDivisionError /\ len trainloader = 0) \/
  (exists e' b, e <= e' < e + n /\ b ∈ batches trainloader e' /\ raised_by prep b x).
Proof.
  revert e st. induction n as [|n IH]; intros e st; [done|].
  cbn [Training.epochs_from]. unfold mbind at 1, cell_bind at 1.
  destruct (epoch trainloader e st) as [[[]|e0] st1] eqn:Hep.
  - intros H. destruct (IH _ _ H) as [?|(e' & b & He' & Hb & Hr)]; [by left|].
    right. exists e', b. split; [lia|done].
  - intros [= <- <-]. destruct (epoch_raise _ _ _ _ _ Hep) as [?|(b & Hb & Hr)]; [by left|].
    right. exists e, b. split; [lia|done].
Qed.

End AnyPass.

Lemma pass_events_losses x o y l : losses_of (@pass_events images labels logits scalar x o y l) = [l].
Proof. reflexivity. Qed.

Lemma pass_events_count x o y l k : count k (@pass_events images labels logits scalar x o y l) = 1.
Proof. by destruct k. Qed.

Lemma pass_events_fashion_losses x o y l :
  losses_of (@pass_events_fashion images labels logits scalar x o y l) = [l].
Proof. reflexivity. Qed.

Lemma pass_events_fashion_count x o y l k :
  count k (@pass_events_fashion images labels logits scalar x o y l) = 1.
Proof. by destruct k. Qed.

(** C3, amended: for every number of epochs and every loader with at least
    one batch, when the library takes the batches of the run (the view, the
    model, the criterion and the backward pass return on each of them, and
    the optimizer step returns), both training loops run all epochs; in each
    epoch they make, for each batch in turn, one zeroing of the gradients,
    one forward pass, one evaluation of the criterion on the output and the
    labels, one backward pass and one optimizer step (in the order of the
    loop), and then print one line: the sum of the losses of the epoch
    divided by the number of batches. *)
Theorem training_loop_spec (epochs : nat) (trainloader : DataLoader) (st : state) :
  len trainloader ≠ 0 ->
  steps ->
  ((forall e b, e < epochs -> b ∈ batches trainloader e -> accepts flatten b) ->
   exists (segs : list (list event)) (st' : state),
     train epochs trainloader st = (Ok (), st') /\
     length segs = epochs /\
     trace st'
     = trace st ++ concat (map (fun seg => epoch_events seg (len trainloader)) segs) /\
     stdout st' = stdout st ++ map (fun seg => mean_loss seg (len trainloader)) segs /\
     (forall e seg, segs !! e = Some seg ->
        (exists evss : list (list event),
           Forall2 (pass_record flatten pass_events) (batches trainloader e) evss /\
           seg = concat evss) /\
        (forall k, count k seg = len trainloader))) /\
  ((forall e b, e < epochs -> b ∈ batches trainloader e -> accepts Ok b) ->
   exists (segs : list (list event)) (st' : state),
     train_fashion epochs trainloader st = (Ok (), st') /\
     length segs = epochs /\
     trace st'
     = trace st ++ concat (map (fun seg => epoch_events seg (len trainloader)) segs) /\
     stdout st' = stdout st ++ map (fun seg => mean_loss seg (len trainloader)) segs /\
     (forall e seg, segs !! e = Some seg ->
        (exists evss : list (list event),
           Forall2 (pass_record Ok pass_events_fashion) (batches trainloader e) evss /\
           seg = concat evss) /\
        (forall k, count k seg = len trainloader))).
Proof.
  intros Hlen Hsteps. split; intros Hacc.
  - apply (epochs_from_spec training_pass flatten pass_events training_pass_ok
             pass_events_losses pass_events_count trainloader epochs 0 st Hlen);
      [|done]. intros e b He. apply Hacc. lia.
  - apply (epochs_from_spec training_pass_fashion Ok pass_events_fashion
             training_pass_fashion_ok
             pass_events_fashion_losses pass_events_fashion_count trainloader epochs 0 st Hlen);
      [|done]. intros e b He. apply Hacc. lia.
Qed.

(** A run over a loader without batches stops in its first epoch. *)
Lemma train_empty_loader (epochs : nat) (trainloader : DataLoader) (st : state) :
  len trainloader = 0 ->
  train (S epochs) trainloader st = (Raise ZeroDivisionError, st).
Proof.
  intros Hlen. unfold Training.train, run. cbn [Training.epochs_from].
  apply cell_bind_Raise. by apply epoch_empty.
Qed.

(** C9: from states with the same parameters and the same optimizer
    state, on the same batch as fed to the model, the pass that zeroes the
    gradients first and the pass that zeroes them after the loss is
    computed end in the same way: they return the same loss or raise the
    same exception, and produce the same parameters and optimizer state.
    When they return, both leave the same gradient in [.grad]: the gradient
    of the loss of this batch in the parameters the pass started from. *)
Theorem zero_grad_orderings_agree (b : images * labels) (x : images) (st1 st2 : state) :
  flatten b.1 = Ok x ->
  model st1 = model st2 ->
  optimizer st1 = optimizer st2 ->
  (training_pass b st1).1 = (training_pass_fashion (x, b.2) st2).1 /\
  model (training_pass b st1).2 = model (training_pass_fashion (x, b.2) st2).2 /\
  optimizer (training_pass b st1).2
  = optimizer (training_pass_fashion (x, b.2) st2).2 /\
  (is_Ok (training_pass b st1).1 ->
   exists g,
     gradient (model st1) x b.2 = Ok g /\
     grad (training_pass b st1).2 = Some g /\
     grad (training_pass_fashion (x, b.2) st2).2 = Some g).
Proof.
  destruct b as [x0 y]. simpl. intros Hx Hm Ho.
  unfold Training.training_pass, Training.training_pass_fashion, call_view, pure_call,
    zero_grad, call_model, call_criterion, backward, step, log, mbind, cell_bind,
    mret, cell_ret. simpl. rewrite Hx, <- Hm, <- Ho. simpl.
  destruct (forward (model st1) x) as [o|e0]; simpl; [|by rewrite Hm, Ho].
  destruct (criterion o y) as [l|e0]; simpl; [|by rewrite Hm, Ho].
  destruct (gradient (model st1) x y) as [g|e0]; simpl; [|by rewrite Hm, Ho].
  destruct (update (optimizer st1) (model st1) (Some g)) as [[o' p']|e0]; simpl;
    [|by rewrite Hm, Ho].
  repeat split. intros _. by exists g.
Qed.

End Loop.

Lemma training_loop_spec_witness :
  exists st',
    toy_train 2 toy_loader toy_state = (Ok (), st') /\
    Forall2 Qeq (stdout st') [(1 # 2)%Q; 1%Q].
Proof.
  destruct (training_loop_spec toy_flatten toy_forward toy_criterion toy_gradient Z.add
              toy_update 0%Q toy_add toy_div 2 toy_loader toy_state)
    as [Htrain _].
  - simpl. lia.
  - intros o p g. exact I.
  - destruct Htrain as (segs & st' & Hrun & _).
    + intros e b He Hb. simpl in Hb.
      apply elem_of_cons in Hb as [->|Hb]; [|apply list_elem_of_singleton in Hb as ->].
      * exists [1%Z]. split; [reflexivity|]. intros p. by eexists _, _, _.
      * exists [Z.abs (Z.of_nat e)]. split; [reflexivity|]. intros p. by eexists _, _, _.
    + exists st'. split; [exact Hrun|].
      unfold toy_train in *. vm_compute in Hrun. injection Hrun as <-.
      repeat constructor.
Defined.

(** A run over a loader without batches raises [ZeroDivisionError] and
    prints no line; a run over a loader with a batch the model does not
    take stops at that batch with the error of the model, after the one
    optimizer step of the batch before, and prints no line. *)
Lemma training_loop_empty_loader_counterexample :
  (toy_train 1 empty_loader toy_state = (Raise ZeroDivisionError, toy_state) /\
   stdout toy_state = []) /\
  (exists st',
     toy_train 1 ragged_loader toy_state = (Raise (ShapeError [1; 2] [1; 1]), st') /\
     stdout st' = [] /\
     count KStep (trace st') = 1).
Proof.
  split; [split; reflexivity|].
  eexists. split; [vm_compute; reflexivity|]. split; reflexivity.
Qed.

Lemma zero_grad_orderings_agree_witness :
  model (toy_pass ([-3]%Z, 5%Z) toy_state).2
  = model (toy_pass_fashion ([3]%Z, 5%Z) toy_state).2.
Proof.
  apply (zero_grad_orderings_agree toy_flatten toy_forward toy_criterion toy_gradient
           Z.add toy_update ([-3]%Z, 5%Z) [3%Z] toy_state toy_state).
  - reflexivity.
  - reflexivity.
  - reflexivity.
Defined.

End TrainingSpec.

(** ** Rows of the one-hot encoding, and the cells run in sequence *)

Module PreprocessingSpec.
Import Admissions AdmissionsSpec Preprocessing.

(** *** The rows of the indicator columns *)

Lemma sum_indicator (r : Z) (lv : list Z) :
  NoDup lv ->
  sum_Z (map (fun v => if decide (r = v) then 1 else 0) lv)
  = if decide (r ∈ lv) then 1 else 0.
Proof.
  induction 1 as [|v lv Hv Hnd IH]; [done|].
  cbn [map sum_Z foldr]. fold (sum_Z (map (fun v => if decide (r = v) then 1 else 0) lv)).
  rewrite IH. destruct (decide (r = v)) as [->|Hne].
  - rewrite decide_False by done. rewrite decide_True by (by left). lia.
  - destruct (decide (r ∈ lv)) as [Hin|Hnin].
    + rewrite decide_True by (by right). lia.
    + rewrite decide_False; [lia|]. rewrite elem_of_cons. tauto.
Qed.

Lemma decode_indicator (r : Z) (lv : list Z) :
  NoDup lv ->
  decode lv (map (fun v => if decide (r = v) then 1 else 0) lv)
  = if decide (r ∈ lv) then r else 0.
Proof.
  unfold decode. induction 1 as [|v lv Hv Hnd IH]; [done|].
  cbn [map zip_with sum_Z foldr].
  fold (sum_Z (zip_with Z.mul lv (map (fun v => if decide (r = v) then 1 else 0) lv))).
  rewrite IH. destruct (decide (r = v)) as [->|Hne].
  - rewrite decide_False by done. rewrite decide_True by (by left). lia.
  - destruct (decide (r ∈ lv)) as [Hin|Hnin].
    + rewrite decide_True by (by right). lia.
    + rewrite decide_False; [lia|]. rewrite elem_of_cons. tauto.
Qed.

Lemma int_row_dummies (ranks lv : list Z) (i : nat) (r : Z) :
  ranks !! i = Some r ->
  int_row (map (fun v => (dummy_name "rank" v, Int64 (indicator v ranks))) lv) i
  = map (fun v => if decide (r = v) then 1 else 0) lv.
Proof.
  intros Hi. unfold int_row. induction lv as [|v lv IH]; [done|].
  cbn [map omap list_omap]. simpl. rewrite (indicator_lookup v ranks i r Hi). simpl.
  f_equal. exact IH.
Qed.

(** X1: for a table with an integer rank column, the one-hot encoding cell
    returns the other columns followed by indicator columns such that every
    row of the table has a cell in each indicator column, these cells are 0
    or 1, exactly one of them is 1 (they sum to 1), and the rank of the row
    is read back from them: it is the sum of the levels weighted by the
    indicators of the row. *)
Theorem one_hot_rows_decode (data : table) (ranks : list Z) :
  getitem data "rank" = Ok (Int64 ranks) ->
  exists inds : table,
    one_hot_cell data = Ok (filter (fun col => col.1 ≠ "rank") data ++ inds) /\
    forall (i : nat) (r : Z), ranks !! i = Some r ->
      length (int_row inds i) = length inds /\
      Forall (fun b => b = 0 \/ b = 1) (int_row inds i) /\
      sum_Z (int_row inds i) = 1 /\
      decode (levels ranks) (int_row inds i) = r.
Proof.
  intros Hget.
  exists (map (fun v => (dummy_name "rank" v, Int64 (indicator v ranks))) (levels ranks)).
  split; [by apply one_hot_cell_unfold|].
  intros i r Hi. rewrite (int_row_dummies ranks (levels ranks) i r Hi).
  assert (NoDup (levels ranks)) as Hnd by apply sorted_lt_NoDup, levels_sorted.
  assert (r ∈ levels ranks) as Hin.
  { apply elem_of_levels. by eapply list_elem_of_lookup_2. }
  split; [by rewrite !length_map|]. split; [|split].
  - apply Forall_forall. intros b Hb. apply list_elem_of_fmap in Hb as (v & -> & _).
    case_decide; auto.
  - rewrite sum_indicator by done. by rewrite decide_True.
  - rewrite decode_indicator by done. by rewrite decide_True.
Qed.

Lemma one_hot_rows_decode_witness :
  exists inds : table,
    one_hot_cell example_data
    = Ok (filter (fun col => col.1 ≠ "rank") example_data ++ inds) /\
    sum_Z (int_row inds 2) = 1 /\
    decode (levels [3; 3; 1]) (int_row inds 2) = 1.
Proof.
  destruct (one_hot_rows_decode example_data [3; 3; 1]) as (inds & Hrun & Hrows).
  - reflexivity.
  - exists inds. split; [exact Hrun|].
    destruct (Hrows 2%nat 1) as (_ & _ & Hsum & Hdec); [reflexivity|].
    split; [exact Hsum | exact Hdec].
Defined.

(** *** Tables without a rank column *)

Lemma getitem_not_in (t : table) (c : string) :
  c ∉ column_names t -> getitem t c = Raise (KeyError c).
Proof.
  unfold column_names. induction t as [|[c' s] t IH]; simpl; [done|].
  rewrite not_elem_of_cons. intros [Hne Hnin]. rewrite decide_False by congruence. auto.
Qed.

Lemma getitem_in (t : table) (c : string) :
  c ∈ column_names t -> exists s, getitem t c = Ok s.
Proof.
  unfold column_names. induction t as [|[c' s] t IH]; simpl.
  - intros H. by apply elem_of_nil in H.
  - rewrite elem_of_cons. intros H. destruct (decide (c' = c)) as [->|Hne]; [eauto|].
    apply IH. destruct H; [congruence|done].
Qed.

(** X2: on a table without a column named rank both one-hot encoding
    cells raise [KeyError], and not otherwise, with different messages: the
    first cell looks the column up by its label, [data['rank']], and raises
    [KeyError: 'rank']; the alternative cell has pandas look it up by the
    list of labels, and raises the [KeyError] of a list none of whose labels
    is a column, "None of [Index(['rank'], ...)] are in the [columns]". *)
Theorem one_hot_cell_missing_rank (data : table) :
  (one_hot_cell data = Raise (KeyError "rank") <-> "rank" ∉ column_names data) /\
  (one_hot_cell_alt data = Raise (KeyErrorNoneOf ["rank"]) <->
   "rank" ∉ column_names data).
Proof.
  assert ("rank" ∈ column_names data ->
          one_hot_cell_alt data = one_hot_cell data /\
          ((exists out, one_hot_cell data = Ok out) \/
           one_hot_cell data = Raise NotModelled)) as Hin.
  { intros [s Hs]%getitem_in. split; [by eapply one_hot_cell_alt_eq|].
    destruct s as [vs|vs].
    - left. eexists. by apply one_hot_cell_unfold.
    - right. unfold one_hot_cell. by rewrite Hs. }
  split.
  - split.
    + intros Hraise Hr. destruct (Hin Hr) as [_ [[out Hout]|Hnm]]; congruence.
    + intros Hnin. unfold one_hot_cell. by rewrite getitem_not_in.
  - split.
    + intros Hraise Hr. destruct (Hin Hr) as [Heq [[out Hout]|Hnm]]; congruence.
    + intros Hnin. unfold one_hot_cell_alt, get_dummies_columns, getitem_columns.
      by rewrite getitem_not_in.
Qed.

Lemma one_hot_cell_missing_rank_witness :
  one_hot_cell small_one_hot_data = Raise (KeyError "rank") /\
  one_hot_cell_alt small_one_hot_data = Raise (KeyErrorNoneOf ["rank"]).
Proof.
  destruct (one_hot_cell_missing_rank small_one_hot_data) as (H1 & H2).
  split; [apply H1 | apply H2]; apply (bool_decide_unpack _); vm_compute; reflexivity.
Defined.

(** *** The shape of the encoded table *)

Lemma rectangular_app n (t1 t2 : table) :
  rectangular n (t1 ++ t2) <-> rectangular n t1 /\ rectangular n t2.
Proof. apply Forall_app. Qed.

Lemma filter_length_NoDup (t : table) (c : string) :
  NoDup (column_names t) -> c ∈ column_names t ->
  (length (filter (fun col : string * series => col.1 ≠ c) t) + 1 = length t)%nat.
Proof.
  unfold column_names. induction t as [|[c' s] t IH]; simpl.
  - intros _ H. by apply elem_of_nil in H.
  - rewrite NoDup_cons, elem_of_cons. intros [Hnin Hnd] Hin.
    destruct (decide (c' = c)) as [->|Hne].
    + rewrite filter_cons_False by (simpl; tauto).
      assert (filter (fun col : string * series => col.1 ≠ c) t = t) as ->; [|lia].
      clear IH Hnd Hin. induction t as [|[c1 s1] t IH]; [done|].
      simpl in Hnin. rewrite not_elem_of_cons in Hnin. destruct Hnin as [Hne Hnin].
      rewrite filter_cons_True by (simpl; congruence). by rewrite IH.
    + rewrite filter_cons_True by done. simpl. rewrite <- IH; [lia|done|].
      destruct Hin; [congruence|done].
Qed.

(** X3: for a table with unique column names whose columns all have [n]
    rows, the one-hot encoding cell returns a table whose columns all have
    [n] rows; it has one column less than the table plus one column per
    distinct rank.  A table without rows gets no indicator column. *)
Theorem one_hot_cell_shape (data : table) (ranks : list Z) (n : nat) :
  NoDup (column_names data) ->
  rectangular n data ->
  getitem data "rank" = Ok (Int64 ranks) ->
  exists out : table,
    one_hot_cell data = Ok out /\
    rectangular n out /\
    (length out + 1 = length data + length (levels ranks))%nat /\
    NoDup (levels ranks) /\
    (forall v, v ∈ levels ranks <-> v ∈ ranks) /\
    (n = 0%nat -> (length out + 1 = length data)%nat).
Proof.
  intros Hnd Hrect Hget. eexists. split; [by apply one_hot_cell_unfold|].
  assert (length ranks = n) as Hn.
  { apply getitem_elem_of in Hget. unfold rectangular in Hrect.
    rewrite Forall_forall in Hrect. apply (Hrect _ Hget). }
  split; [|split; [|split; [|split]]].
  - apply rectangular_app. split.
    + apply Forall_forall. intros col Hcol. apply list_elem_of_filter in Hcol as [_ Hcol].
      unfold rectangular in Hrect. rewrite Forall_forall in Hrect. by apply Hrect.
    + apply Forall_forall. intros col Hcol. apply list_elem_of_fmap in Hcol as (v & -> & _).
      simpl. unfold indicator. by rewrite length_map.
  - rewrite length_app, length_map.
    pose proof (filter_length_NoDup data "rank" Hnd (getitem_column_names _ _ _ Hget)). lia.
  - apply sorted_lt_NoDup, levels_sorted.
  - intros v. apply elem_of_levels.
  - intros ->. apply nil_length_inv in Hn. subst ranks. simpl.
    rewrite app_nil_r.
    apply (filter_length_NoDup data "rank" Hnd (getitem_column_names _ _ _ Hget)).
Qed.

Lemma one_hot_cell_shape_witness :
  exists out : table,
    one_hot_cell example_data = Ok out /\ rectangular 3 out /\ length out = 5%nat.
Proof.
  destruct (one_hot_cell_shape example_data [3; 3; 1] 3) as (out & Hrun & Hrect & Hlen & _).
  - apply (bool_decide_unpack _). vm_compute. reflexivity.
  - repeat constructor.
  - reflexivity.
  - exists out. split; [exact Hrun|]. split; [exact Hrect|].
    simpl in Hlen. lia.
Defined.

(** *** The scaling cell on frames without the columns *)

Lemma run_raise {A B} (m : M A) (f : A -> M B) (h : heap) (e : exn) :
  m h = Raise e -> (m ≫= f) h = Raise e.
Proof. intros H. unfold mbind, M_bind. by rewrite H. Qed.

Lemma frame_getitem_raise (h : heap) df cols c :
  h !! df = Some (OFrame cols) -> col_lookup cols c = None ->
  frame_getitem df c h = Raise (KeyError c).
Proof.
  intros H Hc. unfold frame_getitem.
  rewrite (run_bind _ _ h h cols) by (by apply get_frame_run). by rewrite Hc.
Qed.

Lemma read_columns_names (h : heap) cols (t : table) :
  mapM (read_column h) cols = Some t -> column_names t = cols.*1.
Proof.
  rewrite mapM_Some. unfold column_names.
  induction 1 as [|[c a] [c' s] cols t Hrd _ IH]; [done|].
  unfold read_column in Hrd. simpl in Hrd.
  destruct (h !! a) as [[?|?]|]; try discriminate. injection Hrd as -> ->.
  rewrite !fmap_cons. simpl. by rewrite IH.
Qed.

Lemma col_lookup_None (cols : list (string * loc)) c :
  c ∉ cols.*1 -> col_lookup cols c = None.
Proof.
  induction cols as [|[c' a] cols IH]; simpl; [done|].
  rewrite not_elem_of_cons. intros [Hne Hnin]. rewrite decide_False by congruence. auto.
Qed.

(** X4: on a frame without a gre column the scaling cell raises
    [KeyError: 'gre']; on a frame with a gre column and without a gpa
    column it raises [KeyError: 'gpa'] (after the gre column of the copy was
    scaled). *)
Theorem scaling_cell_missing_column (h : heap) (one_hot_data : loc) (t : table) :
  read_frame h one_hot_data = Some t ->
  ("gre" ∉ column_names t -> scaling_cell one_hot_data h = Raise (KeyError "gre")) /\
  ("gre" ∈ column_names t -> "gpa" ∉ column_names t ->
   scaling_cell one_hot_data h = Raise (KeyError "gpa")).
Proof.
  intros Hread. unfold read_frame in Hread.
  destruct (h !! one_hot_data) as [[cols|?]|] eqn:Hdf; try discriminate.
  pose proof (read_columns_names _ _ _ Hread) as Hnames.
  set (pd := fresh (dom h)).
  assert (h !! pd = None) as Hpd by apply fresh_lookup.
  set (h1 := <[pd := OFrame cols]> h).
  assert (h1 !! pd = Some (OFrame cols)) as Hpd1 by apply lookup_insert_eq.
  assert (forall l o, h !! l = Some o -> h1 !! l = Some o) as K1.
  { intros l o Hl. unfold h1. rewrite lookup_insert_ne by congruence. done. }
  split.
  - intros Hgre. rewrite Hnames in Hgre. unfold scaling_cell.
    rewrite (run_bind _ _ h h1 pd) by (by apply frame_slice_all_run).
    apply run_raise. apply (frame_getitem_raise h1 pd cols); [done|].
    by apply col_lookup_None.
  - intros Hgre Hgpa. rewrite Hnames in Hgpa.
    apply getitem_in in Hgre as [s_gre Hgre].
    destruct (read_columns_lookup _ _ _ _ _ Hread Hgre) as (a_gre & Hcg & Hag).
    set (l2 := fresh (dom h1)).
    set (h2 := <[l2 := OArray (truediv s_gre 800)]> h1).
    assert (h1 !! l2 = None) as Hl2 by apply fresh_lookup.
    assert (forall l o, h1 !! l = Some o -> h2 !! l = Some o) as K2.
    { intros l o Hl. unfold h2. rewrite lookup_insert_ne by congruence. done. }
    assert (h2 !! l2 = Some (OArray (truediv s_gre 800))) as Hl2' by apply lookup_insert_eq.
    set (a3 := fresh (dom h2)).
    set (h3 := <[a3 := OArray (truediv s_gre 800)]> h2).
    set (cols1 := col_set cols "gre" a3).
    set (h4 := <[pd := OFrame cols1]> h3).
    assert (h4 !! pd = Some (OFrame cols1)) as Hpd4 by apply lookup_insert_eq.
    unfold scaling_cell.
    rewrite (run_bind _ _ h h1 pd) by (by apply frame_slice_all_run).
    rewrite (run_bind _ _ h1 h1 a_gre) by (by eapply frame_getitem_run).
    rewrite (run_bind _ _ h1 h2 l2) by (apply series_truediv_run; auto).
    rewrite (run_bind _ _ h2 h4 ()) by (eapply frame_setitem_run; eauto).
    apply run_raise. apply (frame_getitem_raise h4 pd cols1); [done|].
    unfold cols1. rewrite col_lookup_set_ne by done. by apply col_lookup_None.
Qed.

Lemma scaling_cell_missing_column_witness :
  scaling_cell 1%positive no_gpa_heap = Raise (KeyError "gpa").
Proof.
  refine (proj2 (scaling_cell_missing_column no_gpa_heap 1%positive
            [("gre", Int64 [380; 660; 800]); ("rank_1", Int64 [0; 0; 1])] _) _ _).
  - vm_compute. reflexivity.
  - apply (bool_decide_unpack _). vm_compute. reflexivity.
  - apply (bool_decide_unpack _). vm_compute. reflexivity.
Defined.

(** *** The scaling cell run again *)

(** X5: running the scaling cell a second time scales the data once: the
    two runs return two different frames that read as the same table, gre
    divided by 800 and gpa divided by 4 once, and [one_hot_data] still reads
    as before. *)
Theorem scaling_cell_rerun (h : heap) (one_hot_data : loc) (t : table)
    (s_gre s_gpa : series) :
  read_frame h one_hot_data = Some t ->
  getitem t "gre" = Ok s_gre ->
  getitem t "gpa" = Ok s_gpa ->
  exists (first second : loc) (h' : heap),
    rerun_scaling one_hot_data h = Ok ((first, second), h') /\
    first ≠ second /\
    read_frame h' first
    = Some (table_set (table_set t "gre" (truediv s_gre 800)) "gpa" (truediv s_gpa 4)) /\
    read_frame h' second = read_frame h' first /\
    read_frame h' one_hot_data = Some t.
Proof.
  intros Hread Hgre Hgpa.
  destruct (scaling_cell_run h one_hot_data t s_gre s_gpa Hread Hgre Hgpa)
    as (h1 & Hrun1 & Hsub1 & Hread1).
  pose proof (read_frame_mono _ _ _ _ Hsub1 Hread) as Hread'.
  destruct (scaling_cell_run h1 one_hot_data t s_gre s_gpa Hread' Hgre Hgpa)
    as (h2 & Hrun2 & Hsub2 & Hread2).
  exists (fresh (dom h)), (fresh (dom h1)), h2. split; [|split; [|split; [|split]]].
  - unfold rerun_scaling.
    rewrite (run_bind _ _ h h1 (fresh (dom h))) by done.
    rewrite (run_bind _ _ h1 h2 (fresh (dom h1))) by done. reflexivity.
  - intros Heq. pose proof (fresh_lookup h1) as Hfresh. rewrite <- Heq in Hfresh.
    unfold read_frame in Hread1. rewrite Hfresh in Hread1. discriminate.
  - by apply (read_frame_mono h1 h2).
  - rewrite Hread2. symmetry. by apply (read_frame_mono h1 h2).
  - by apply (read_frame_mono h1 h2).
Qed.

Lemma scaling_cell_rerun_witness :
  exists (first second : loc) (h' : heap),
    rerun_scaling 1%positive one_hot_heap = Ok ((first, second), h') /\
    first ≠ second /\
    read_frame h' second = read_frame h' first.
Proof.
  destruct (scaling_cell_rerun one_hot_heap 1%positive small_one_hot_data
              (Int64 [380; 660; 800]) (Float64 example_gpa))
    as (first & second & h' & Hrun & Hne & _ & Hsame & _).
  - vm_compute. reflexivity.
  - reflexivity.
  - reflexivity.
  - exists first, second, h'. split; [exact Hrun|]. split; [exact Hne | exact Hsame].
Defined.

(** *** The one-hot encoding cell followed by the scaling cell *)

Lemma table_set_app_l (t1 t2 : table) c s :
  c ∈ column_names t1 -> table_set (t1 ++ t2) c s = table_set t1 c s ++ t2.
Proof.
  unfold column_names. induction t1 as [|[c1 s1] t1 IH]; simpl.
  - intros H. by apply elem_of_nil in H.
  - rewrite elem_of_cons. intros H. destruct (decide (c1 = c)) as [->|Hne]; [done|].
    simpl. rewrite IH; [done|]. destruct H; [congruence|done].
Qed.

Lemma getitem_filter_other (t : table) c c0 :
  c ≠ c0 ->
  getitem (filter (fun col : string * series => col.1 ≠ c0) t) c = getitem t c.
Proof.
  intros Hne. induction t as [|[c' s'] t IH]; [done|].
  destruct (decide (c' = c0)) as [->|Hc0].
  - rewrite filter_cons_False by (simpl; tauto). simpl.
    by rewrite decide_False by congruence.
  - rewrite filter_cons_True by done. simpl. by rewrite IH.
Qed.

Lemma column_names_filter (t : table) c0 :
  column_names (filter (fun col : string * series => col.1 ≠ c0) t)
  = filter (fun c => c ≠ c0) (column_names t).
Proof.
  unfold column_names. induction t as [|[c' s'] t IH]; [done|].
  rewrite fmap_cons. simpl. destruct (decide (c' = c0)) as [->|Hc0].
  - rewrite !filter_cons_False by (simpl; tauto). done.
  - rewrite !filter_cons_True by done. rewrite fmap_cons. simpl. by rewrite IH.
Qed.

(** X6: the two cells in sequence.  When [one_hot_data] is the frame the
    one-hot encoding cell made of a table with columns rank, gre and gpa,
    the scaling cell returns a frame that reads as the columns of the table
    other than rank, in their order, with gre divided by 800, gpa divided
    by 4 and every other column as in the table, followed by the indicator
    columns of the ranks, which the scaling leaves as they are. *)
Theorem one_hot_then_scaling (data out : table) (ranks : list Z) (s_gre s_gpa : series)
    (h : heap) (one_hot_data : loc) :
  getitem data "rank" = Ok (Int64 ranks) ->
  getitem data "gre" = Ok s_gre ->
  getitem data "gpa" = Ok s_gpa ->
  one_hot_cell data = Ok out ->
  read_frame h one_hot_data = Some out ->
  exists (processed_data : loc) (h' : heap) (rest inds : table),
    scaling_cell one_hot_data h = Ok (processed_data, h') /\
    read_frame h' processed_data = Some (rest ++ inds) /\
    column_names rest = filter (fun c => c ≠ "rank") (column_names data) /\
    getitem rest "gre" = Ok (truediv s_gre 800) /\
    getitem rest "gpa" = Ok (truediv s_gpa 4) /\
    (forall c, c ≠ "gre" -> c ≠ "gpa" -> c ≠ "rank" -> getitem rest c = getitem data c) /\
    inds = map (fun v => (dummy_name "rank" v, Int64 (indicator v ranks))) (levels ranks).
Proof.
  intros Hrank Hgre Hgpa Hcell Hread.
  rewrite (one_hot_cell_unfold _ _ Hrank) in Hcell. injection Hcell as <-.
  set (rest0 := filter (fun col : string * series => col.1 ≠ "rank") data) in *.
  set (inds := map (fun v => (dummy_name "rank" v, Int64 (indicator v ranks)))
                 (levels ranks)) in *.
  assert (getitem rest0 "gre" = Ok s_gre) as Hgre0
    by (unfold rest0; by rewrite getitem_filter_other).
  assert (getitem rest0 "gpa" = Ok s_gpa) as Hgpa0
    by (unfold rest0; by rewrite getitem_filter_other).
  destruct (scaling_cell_run h one_hot_data (rest0 ++ inds) s_gre s_gpa Hread)
    as (h' & Hrun & _ & Hread').
  { by apply getitem_app_l. }
  { by apply getitem_app_l. }
  exists (fresh (dom h)), h',
    (table_set (table_set rest0 "gre" (truediv s_gre 800)) "gpa" (truediv s_gpa 4)), inds.
  split; [exact Hrun|]. split; [|split; [|split; [|split; [|split]]]].
  - rewrite Hread'. f_equal.
    rewrite (table_set_app_l rest0) by (by eapply getitem_column_names).
    rewrite table_set_app_l; [done|].
    rewrite table_set_names by (by rewrite Hgre0). by eapply getitem_column_names.
  - rewrite table_set_names by (by rewrite getitem_table_set_ne, Hgpa0).
    rewrite table_set_names by (by rewrite Hgre0).
    apply column_names_filter.
  - rewrite getitem_table_set_ne by done. apply getitem_table_set_eq.
  - apply getitem_table_set_eq.
  - intros c H1 H2 H3. rewrite !getitem_table_set_ne by done.
    by apply getitem_filter_other.
  - done.
Qed.

Lemma one_hot_then_scaling_witness :
  exists (processed_data : loc) (h' : heap) (rest inds : table),
    scaling_cell 1%positive one_hot_heap = Ok (processed_data, h') /\
    read_frame h' processed_data = Some (rest ++ inds) /\
    column_names rest = ["gre"; "gpa"] /\
    column_names inds = ["rank_1"; "rank_3"].
Proof.
  destruct (one_hot_then_scaling small_data small_one_hot_data [3; 3; 1]
              (Int64 [380; 660; 800]) (Float64 example_gpa)
              one_hot_heap 1%positive)
    as (pd & h' & rest & inds & Hrun & Hread & Hnames & _ & _ & _ & Hinds).
  - reflexivity.
  - reflexivity.
  - reflexivity.
  - vm_compute. reflexivity.
  - vm_compute. reflexivity.
  - exists pd, h', rest, inds. split; [exact Hrun|]. split; [exact Hread|].
    split; [exact Hnames|]. rewrite Hinds. vm_compute. reflexivity.
Defined.

End PreprocessingSpec.

(** ** Loading any state dict and any checkpoint file *)

Module LoadingSpec.
Import Checkpoint CheckpointSpec.
Local Open Scope nat_scope.

(** *** The names of the parameters *)

Lemma keys_linear_state pre l :
  keys (linear_state pre l) = [pre +:+ "weight"; pre +:+ "bias"].
Proof. reflexivity. Qed.

Lemma elem_of_keys_hidden_state (ls : list Linear) (i0 : nat) (k : string) :
  k ∈ keys (hidden_state i0 ls) <->
  exists j w, j < length ls /\ k = hidden_prefix (i0 + j) +:+ pname_str w.
Proof.
  revert i0. induction ls as [|l ls IH]; intros i0.
  - split; [intros H; by apply elem_of_nil in H | intros (j & w & Hj & _); simpl in Hj; lia].
  - change (hidden_state i0 (l :: ls))
      with (linear_state (hidden_prefix i0) l ++ hidden_state (S i0) ls).
    unfold keys in *. rewrite fmap_app, elem_of_app, IH. simpl.
    rewrite !elem_of_cons, elem_of_nil. split.
    + intros [[->|[->|[]]]|(j & w & Hj & ->)].
      * exists 0, PWeight. rewrite Nat.add_0_r. split; [lia|done].
      * exists 0, PBias. rewrite Nat.add_0_r. split; [lia|done].
      * exists (S j), w. replace (i0 + S j) with (S i0 + j) by lia. split; [lia|done].
    + intros ([|j] & w & Hj & ->).
      * left. rewrite Nat.add_0_r. destruct w; simpl; auto.
      * right. exists j, w. replace (i0 + S j) with (S i0 + j) by lia. split; [lia|done].
Qed.

Lemma elem_of_keys_state_dict (m : Network) (k : string) :
  k ∈ keys (state_dict m) <->
  (exists j w, j < length (hidden_layers m) /\ k = hidden_prefix j +:+ pname_str w) \/
  (exists w, k = "output." +:+ pname_str w).
Proof.
  unfold state_dict, keys. rewrite fmap_app, elem_of_app.
  pose proof (elem_of_keys_hidden_state (hidden_layers m) 0 k) as H. unfold keys in H.
  rewrite H. simpl. rewrite !elem_of_cons, elem_of_nil. split.
  - intros [?|[->|[->|[]]]]; [by left | right; by exists PWeight | right; by exists PBias].
  - intros [?|[[|] ->]]; [by left | right; simpl; auto | right; simpl; auto].
Qed.

Lemma NoDup_keys_hidden_state (ls : list Linear) (i0 : nat) :
  NoDup (keys (hidden_state i0 ls)).
Proof.
  revert i0. induction ls as [|l ls IH]; intros i0; [constructor|].
  change (hidden_state i0 (l :: ls))
    with (linear_state (hidden_prefix i0) l ++ hidden_state (S i0) ls).
  unfold keys in *. rewrite fmap_app. simpl.
  assert (forall w, hidden_prefix i0 +:+ pname_str w ∉ (hidden_state (S i0) ls).*1) as Hnin.
  { intros w Hin. apply (elem_of_keys_hidden_state ls (S i0)) in Hin as (j & w' & _ & Heq).
    apply hidden_key_inj in Heq as [Heq _]. lia. }
  constructor; [|constructor; [|apply IH]].
  - rewrite not_elem_of_cons. split; [|apply (Hnin PWeight)].
    intros Heq. apply hidden_key_inj in Heq as [_ Heq]. discriminate.
  - apply (Hnin PBias).
Qed.

Lemma length_hidden_state (ls : list Linear) (i0 : nat) :
  length (hidden_state i0 ls) = 2 * length ls.
Proof.
  revert i0. induction ls as [|l ls IH]; intros i0; [done|].
  change (hidden_state i0 (l :: ls))
    with (linear_state (hidden_prefix i0) l ++ hidden_state (S i0) ls).
  rewrite length_app, IH. simpl. lia.
Qed.

Lemma NoDup_keys_state_dict (m : Network) : NoDup (keys (state_dict m)).
Proof.
  unfold state_dict, keys. rewrite fmap_app. apply NoDup_app. split; [|split].
  - apply NoDup_keys_hidden_state.
  - intros k Hk. apply (elem_of_keys_hidden_state _ 0) in Hk as (j & w & _ & ->).
    simpl. rewrite !elem_of_cons, elem_of_nil.
    intros [H|[H|[]]]; by apply hidden_key_ne_output in H.
  - simpl. constructor; [|constructor; [|constructor]].
    + rewrite elem_of_cons, elem_of_nil. intros [H|[]]. discriminate.
    + apply not_elem_of_nil.
Qed.

(** In a dictionary without repeated keys every entry is found by its key. *)
Lemma elem_of_sd_lookup (sd : state_dict_t) k t :
  NoDup (keys sd) -> (k, t) ∈ sd -> sd_lookup sd k = Some t.
Proof.
  unfold keys. induction sd as [|[k' t'] sd IH]; simpl.
  - intros _ H. by apply elem_of_nil in H.
  - rewrite NoDup_cons, elem_of_cons. intros [Hnin Hnd] [[= -> ->]|Hin].
    + by rewrite decide_True.
    + rewrite decide_False; [auto|]. intros ->. apply Hnin.
      apply list_elem_of_fmap. by exists (k, t).
Qed.

(** X7: the state dict of a network is a dictionary: its keys are pairwise
    distinct; it has two entries for each hidden layer and two for the
    output layer; its keys are hidden_layers.j.weight and
    hidden_layers.j.bias for the hidden layers [j] of the network, and
    output.weight and output.bias; every entry is found by its key. *)
Theorem state_dict_keys_unique (m : Network) :
  NoDup (keys (state_dict m)) /\
  length (state_dict m) = 2 * (length (hidden_layers m) + 1) /\
  (forall k, k ∈ keys (state_dict m) <->
     (exists j w, j < length (hidden_layers m) /\ k = hidden_prefix j +:+ pname_str w) \/
     (exists w, k = "output." +:+ pname_str w)) /\
  (forall k t, (k, t) ∈ state_dict m <-> sd_lookup (state_dict m) k = Some t).
Proof.
  split; [apply NoDup_keys_state_dict|]. split; [|split].
  - unfold state_dict. rewrite length_app, length_hidden_state. simpl. lia.
  - apply elem_of_keys_state_dict.
  - intros k t. split; [|apply sd_lookup_elem_of].
    apply elem_of_sd_lookup, NoDup_keys_state_dict.
Qed.

(** *** Loading any state dict *)

(** A state dict that has the parameter [key] in the shape of [p]. *)
Lemma load_param_clean sd key p :
  missing (load_param sd key p).2 = [] ->
  mismatched (load_param sd key p).2 = [] ->
  exists t, sd_lookup sd key = Some t /\ shape t = shape p /\ (load_param sd key p).1 = t.
Proof.
  unfold load_param. destruct (sd_lookup sd key) as [t|]; [|done].
  case_decide as Hsh; [|done]. intros _ _. exists t. split; [done|]. split; [done|].
  simpl. destruct t as [sh d]. simpl in *. by rewrite Hsh.
Qed.

Lemma load_linear_clean sd pre l :
  missing (load_linear sd pre l).2 = [] ->
  mismatched (load_linear sd pre l).2 = [] ->
  in_features (load_linear sd pre l).1 = in_features l /\
  out_features (load_linear sd pre l).1 = out_features l /\
  forall w, sd_lookup sd (pre +:+ pname_str w) = Some (pname_get w (load_linear sd pre l).1) /\
            shape (pname_get w (load_linear sd pre l).1) = shape (pname_get w l).
Proof.
  unfold load_linear.
  pose proof (load_param_clean sd (pre +:+ "weight") (weight l)) as Hw.
  pose proof (load_param_clean sd (pre +:+ "bias") (bias l)) as Hb.
  destruct (load_param sd (pre +:+ "weight") (weight l)) as [w rw].
  destruct (load_param sd (pre +:+ "bias") (bias l)) as [b rb]. simpl in *.
  intros [Hm1 Hm2]%app_eq_nil [Hs1 Hs2]%app_eq_nil.
  destruct (Hw Hm1 Hs1) as (tw & Hlw & Hsw & ->).
  destruct (Hb Hm2 Hs2) as (tb & Hlb & Hsb & ->).
  split; [done|]. split; [done|]. intros [|]; simpl; auto.
Qed.

Lemma load_hidden_clean sd i0 ls :
  missing (load_hidden sd i0 ls).2 = [] ->
  mismatched (load_hidden sd i0 ls).2 = [] ->
  Forall2 (fun l' l => in_features l' = in_features l /\ out_features l' = out_features l /\
                       forall w, shape (pname_get w l') = shape (pname_get w l))
    (load_hidden sd i0 ls).1 ls /\
  forall k l' w, (load_hidden sd i0 ls).1 !! k = Some l' ->
    sd_lookup sd (hidden_prefix (i0 + k) +:+ pname_str w) = Some (pname_get w l').
Proof.
  revert i0. induction ls as [|l ls IH]; intros i0.
  - simpl. intros _ _. split; [constructor|]. intros k l' w Hk. by rewrite lookup_nil in Hk.
  - cbn [load_hidden].
    pose proof (load_linear_clean sd (hidden_prefix i0) l) as Hl.
    destruct (load_linear sd (hidden_prefix i0) l) as [l1 r1].
    specialize (IH (S i0)). destruct (load_hidden sd (S i0) ls) as [ls1 r2]. simpl in *.
    intros [Hm1 Hm2]%app_eq_nil [Hs1 Hs2]%app_eq_nil.
    destruct (Hl Hm1 Hs1) as (Hin & Hout & Hw). destruct (IH Hm2 Hs2) as [IH1 IH2].
    split.
    + constructor; [|done]. split; [done|]. split; [done|]. intros w. apply Hw.
    + intros [|k] l' w Hk; simplify_eq/=.
      * rewrite Nat.add_0_r. apply Hw.
      * replace (i0 + S k) with (S i0 + k) by lia. by apply IH2.
Qed.

Lemma load_state_dict_Ok_inv (m m' : Network) (sd : state_dict_t) :
  load_state_dict m sd = Ok m' ->
  m' = {| hidden_layers := (load_hidden sd 0 (hidden_layers m)).1;
          output := (load_linear sd "output." (output m)).1 |} /\
  missing (load_hidden sd 0 (hidden_layers m)).2 = [] /\
  mismatched (load_hidden sd 0 (hidden_layers m)).2 = [] /\
  missing (load_linear sd "output." (output m)).2 = [] /\
  mismatched (load_linear sd "output." (output m)).2 = [] /\
  unexpected_keys m sd = [].
Proof.
  unfold load_state_dict, unexpected_keys.
  destruct (load_hidden sd 0 (hidden_layers m)) as [hs rh].
  destruct (load_linear sd "output." (output m)) as [out ro]. simpl.
  destruct (missing rh ++ missing ro) eqn:Hm; [|discriminate].
  destruct (filter (fun k => k ∉ keys (state_dict m)) (keys sd)) eqn:Hu; [|discriminate].
  destruct (mismatched rh ++ mismatched ro) eqn:Hs; [|discriminate].
  intros [= <-]. apply app_eq_nil in Hm as [Hm1 Hm2]. apply app_eq_nil in Hs as [Hs1 Hs2].
  done.
Qed.

Lemma chain_ok_transfer inp (ls' ls : list Linear) :
  Forall2 (fun l' l => in_features l' = in_features l /\ out_features l' = out_features l /\
                       forall w, shape (pname_get w l') = shape (pname_get w l)) ls' ls ->
  chain_ok inp ls = true -> chain_ok inp ls' = true.
Proof.
  intros H. revert inp. induction H as [|l' l ls' ls (Hi & Ho & Hw) _ IH]; intros inp; [done|].
  rewrite !chain_ok_cons. intros (Hin & Hok & Hrest). split; [congruence|]. split.
  - apply linear_ok_inv in Hok as [H1 H2]. unfold linear_ok.
    pose proof (Hw PWeight) as Hw1. pose proof (Hw PBias) as Hw2. simpl in Hw1, Hw2.
    rewrite Hw1, Hw2, Hi, Ho, H1, H2. by rewrite !bool_decide_eq_true_2.
  - rewrite Ho. by apply IH.
Qed.

(** What a successful load leaves in the model. *)
Lemma load_state_dict_Ok_spec (model loaded : Network) (sd : state_dict_t) :
  load_state_dict model sd = Ok loaded ->
  arch_of loaded = arch_of model /\
  (well_formed model = true -> well_formed loaded = true) /\
  keys (state_dict loaded) = keys (state_dict model) /\
  (forall k, sd_lookup (state_dict loaded) k = sd_lookup sd k).
Proof.
  intros (-> & Hm1 & Hs1 & Hm2 & Hs2 & Hu)%load_state_dict_Ok_inv.
  destruct (load_hidden_clean _ _ _ Hm1 Hs1) as [Hall Hlook].
  destruct (load_linear_clean _ _ _ Hm2 Hs2) as (Hoi & Hoo & Hout).
  set (hs := (load_hidden sd 0 (hidden_layers model)).1) in *.
  set (out := (load_linear sd "output." (output model)).1) in *.
  set (m' := {| hidden_layers := hs; output := out |}).
  assert (map out_features hs = map out_features (hidden_layers model)) as Hsizes.
  { clear -Hall. clearbody hs.
    induction Hall as [|l' l ls' ls (_ & Ho & _) _ IH]; [done|].
    simpl. f_equal; [exact Ho | exact IH]. }
  assert (keys (state_dict m') = keys (state_dict model)) as Hkeys.
  { apply keys_state_dict. simpl. by eapply Forall2_length. }
  split; [|split; [|split]].
  - unfold arch_of. simpl. rewrite Hsizes, Hoo. f_equal.
    clearbody hs. destruct Hall as [|???? (Hi & _) _]; [done|by simpl].
  - intros (l0 & ls & Hhl & Hchain & Hok & Hlast)%well_formed_inv.
    unfold well_formed. simpl. rewrite Hhl in Hall.
    destruct hs as [|l0' ls'] eqn:Hhs; [by apply Forall2_nil_cons_inv in Hall|].
    assert (in_features l0' = in_features l0) as Hi0.
    { apply Forall2_cons_1 in Hall as [(Hi & _) _]. done. }
    rewrite Hi0, (chain_ok_transfer _ _ _ Hall Hchain). simpl.
    apply andb_true_intro. split.
    + apply linear_ok_inv in Hok as [H1 H2]. unfold linear_ok.
      destruct (Hout PWeight) as [_ Hw1]. destruct (Hout PBias) as [_ Hw2]. simpl in Hw1, Hw2.
      rewrite Hw1, Hw2, Hoi, Hoo, H1, H2. by rewrite !bool_decide_eq_true_2.
    + apply bool_decide_eq_true_2.
      change (in_features out = List.last (map out_features (l0' :: ls')) 0).
      by rewrite Hoi, Hlast, Hsizes, Hhl.
  - exact Hkeys.
  - intros k. destruct (decide (k ∈ keys (state_dict m'))) as [Hin|Hnin].
    + apply elem_of_keys_state_dict in Hin as [(j & w & Hj & ->)|(w & ->)].
      * rewrite state_dict_hidden. simpl in *.
        destruct (lookup_lt_is_Some_2 hs j Hj) as [l' Hl']. rewrite Hl'. simpl.
        symmetry. by apply (Hlook j l' w).
      * rewrite state_dict_output. simpl. symmetry. apply Hout.
    + rewrite (proj2 (sd_lookup_None _ _) Hnin). symmetry. apply sd_lookup_None.
      intros Hin. rewrite Hkeys in Hnin.
      exact (filter_nil_not_elem_of _ _ k Hu Hnin Hin).
Qed.

(** X8: when [model.load_state_dict(state_dict)] succeeds, for any state
    dict (not only one saved from a network), the model keeps its
    architecture and stays well-formed, and its state dict afterwards is the
    loaded one: the same tensor under every key, no key more and no key
    less; as lists of entries the two are equal up to the order of the
    entries. *)
Theorem load_state_dict_sound (model loaded : Network) (state_dict' : state_dict_t) :
  load_state_dict model state_dict' = Ok loaded ->
  arch_of loaded = arch_of model /\
  (well_formed model = true -> well_formed loaded = true) /\
  keys (state_dict loaded) = keys (state_dict model) /\
  (forall k, sd_lookup (state_dict loaded) k = sd_lookup state_dict' k) /\
  (NoDup (keys state_dict') -> state_dict loaded ≡ₚ state_dict').
Proof.
  intros Hload.
  destruct (load_state_dict_Ok_spec _ _ _ Hload) as (Ha & Hwf & Hkeys & Hsame).
  split; [done|]. split; [done|]. split; [done|]. split; [done|].
  intros Hnd. pose proof (NoDup_keys_state_dict loaded) as Hnd'.
  apply NoDup_Permutation.
  - by apply (NoDup_fmap_1 fst).
  - by apply (NoDup_fmap_1 fst).
  - intros [k t]. split.
    + intros Hin. apply sd_lookup_elem_of. rewrite <- Hsame. by apply elem_of_sd_lookup.
    + intros Hin. apply sd_lookup_elem_of. rewrite Hsame. by apply elem_of_sd_lookup.
Qed.

Lemma load_state_dict_sound_witness :
  arch_of (network_of ramp small_arch) = arch_of (network_of zeros small_arch) /\
  state_dict (network_of ramp small_arch) ≡ₚ reverse (state_dict (network_of ramp small_arch)).
Proof.
  destruct (load_state_dict_sound (network_of zeros small_arch) (network_of ramp small_arch)
              (reverse (state_dict (network_of ramp small_arch)))) as (Ha & _ & _ & _ & Hp).
  - vm_compute. reflexivity.
  - split; [exact Ha|]. apply Hp. apply (bool_decide_unpack _). vm_compute. reflexivity.
Defined.

(** *** Loading does not depend on what the model held *)

Lemma load_param_shape sd key p1 p2 :
  shape p1 = shape p2 ->
  (load_param sd key p1).2 = (load_param sd key p2).2 /\
  (missing (load_param sd key p1).2 = [] -> mismatched (load_param sd key p1).2 = [] ->
   (load_param sd key p1).1 = (load_param sd key p2).1).
Proof.
  intros Hsh. unfold load_param. rewrite Hsh.
  destruct (sd_lookup sd key) as [t|]; [|done]. case_decide; done.
Qed.

Lemma load_linear_shape sd pre l1 l2 :
  same_sizes l1 l2 ->
  (load_linear sd pre l1).2 = (load_linear sd pre l2).2 /\
  (missing (load_linear sd pre l1).2 = [] -> mismatched (load_linear sd pre l1).2 = [] ->
   (load_linear sd pre l1).1 = (load_linear sd pre l2).1).
Proof.
  intros (Hi & Ho & Hw & Hb). unfold load_linear.
  destruct (load_param_shape sd (pre +:+ "weight") _ _ Hw) as [Hrw Hpw].
  destruct (load_param_shape sd (pre +:+ "bias") _ _ Hb) as [Hrb Hpb].
  destruct (load_param sd (pre +:+ "weight") (weight l1)) as [w1 rw1].
  destruct (load_param sd (pre +:+ "weight") (weight l2)) as [w2 rw2].
  destruct (load_param sd (pre +:+ "bias") (bias l1)) as [b1 rb1].
  destruct (load_param sd (pre +:+ "bias") (bias l2)) as [b2 rb2].
  simpl in *. subst rw2 rb2. split; [done|].
  intros [Hm1 Hm2]%app_eq_nil [Hs1 Hs2]%app_eq_nil.
  rewrite (Hpw Hm1 Hs1), (Hpb Hm2 Hs2), Hi, Ho. done.
Qed.

Lemma load_hidden_shape sd i0 ls1 ls2 :
  Forall2 same_sizes ls1 ls2 ->
  (load_hidden sd i0 ls1).2 = (load_hidden sd i0 ls2).2 /\
  (missing (load_hidden sd i0 ls1).2 = [] -> mismatched (load_hidden sd i0 ls1).2 = [] ->
   (load_hidden sd i0 ls1).1 = (load_hidden sd i0 ls2).1).
Proof.
  intros H. revert i0. induction H as [|l1 l2 ls1 ls2 Hl _ IH]; intros i0; [done|].
  cbn [load_hidden].
  destruct (load_linear_shape sd (hidden_prefix i0) _ _ Hl) as [Hr Hp].
  destruct (IH (S i0)) as [IHr IHp].
  destruct (load_linear sd (hidden_prefix i0) l1) as [k1 r1].
  destruct (load_linear sd (hidden_prefix i0) l2) as [k2 r2].
  destruct (load_hidden sd (S i0) ls1) as [ks1 q1].
  destruct (load_hidden sd (S i0) ls2) as [ks2 q2].
  simpl in *. subst r2 q2. split; [done|].
  intros [Hm1 Hm2]%app_eq_nil [Hs1 Hs2]%app_eq_nil.
  by rewrite (Hp Hm1 Hs1), (IHp Hm2 Hs2).
Qed.

Lemma load_state_dict_same_sizes (m1 m2 : Network) (sd : state_dict_t) :
  Forall2 same_sizes (hidden_layers m1) (hidden_layers m2) ->
  same_sizes (output m1) (output m2) ->
  load_state_dict m1 sd = load_state_dict m2 sd.
Proof.
  intros Hh Ho. unfold load_state_dict.
  destruct (load_hidden_shape sd 0 _ _ Hh) as [Hrh Hph].
  destruct (load_linear_shape sd "output." _ _ Ho) as [Hro Hpo].
  rewrite (keys_state_dict m1 m2) by (by eapply Forall2_length).
  destruct (load_hidden sd 0 (hidden_layers m1)) as [hs1 rh1].
  destruct (load_hidden sd 0 (hidden_layers m2)) as [hs2 rh2].
  destruct (load_linear sd "output." (output m1)) as [o1 ro1].
  destruct (load_linear sd "output." (output m2)) as [o2 ro2].
  simpl in *. subst rh2 ro2.
  destruct (missing rh1 ++ missing ro1) eqn:Hm; [|done].
  destruct (filter (fun k => k ∉ keys (state_dict m2)) (keys sd)); [|done].
  destruct (mismatched rh1 ++ mismatched ro1) eqn:Hs; [|done].
  apply app_eq_nil in Hm as [Hm1 Hm2]. apply app_eq_nil in Hs as [Hs1 Hs2].
  by rewrite (Hph Hm1 Hs1), (Hpo Hm2 Hs2).
Qed.

(** X9: what [load_state_dict] returns or raises depends on the
    architecture of the model only, not on the values its parameters held:
    two well-formed models of the same architecture load any state dict to
    the same network, or fail with the same error. *)
Theorem load_state_dict_ignores_old_values (model1 model2 : Network)
    (state_dict' : state_dict_t) :
  well_formed model1 = true ->
  well_formed model2 = true ->
  arch_of model1 = arch_of model2 ->
  load_state_dict model1 state_dict' = load_state_dict model2 state_dict'.
Proof.
  intros Hwf1 Hwf2 Harch.
  destruct (same_arch_same_sizes _ _ Hwf1 Hwf2 Harch) as [Hh Ho].
  by apply load_state_dict_same_sizes.
Qed.

Lemma load_state_dict_ignores_old_values_witness :
  load_state_dict (network_of zeros small_arch) (state_dict (network_of ramp other_arch))
  = load_state_dict (network_of ramp small_arch) (state_dict (network_of ramp other_arch)).
Proof.
  apply load_state_dict_ignores_old_values.
  - vm_compute. reflexivity.
  - vm_compute. reflexivity.
  - vm_compute. reflexivity.
Defined.

(** *** Checkpoint files *)

Lemma subscript_of_state_dict (sd : state_dict_t) (k : string) :
  k ∉ keys sd -> subscript (of_state_dict sd) k = Raise (KeyError k).
Proof.
  unfold keys. induction sd as [|[k' t] sd IH]; simpl; [done|].
  rewrite not_elem_of_cons. intros [Hne Hnin]. rewrite decide_False by congruence. auto.
Qed.

(** X10: the file written by the cell that saves the state dict alone,
    [torch.save(model.state_dict(), 'checkpoint.pth')], is no checkpoint
    for [load_checkpoint]: whatever the model, [load_checkpoint] of that
    file raises [KeyError: 'input_size']. *)
Theorem load_checkpoint_of_state_dict_file (init : initializer) (fs : files)
    (model : Network) :
  load_checkpoint init (save_state_dict_cell model fs) "checkpoint.pth"
  = Raise (KeyError "input_size").
Proof.
  unfold load_checkpoint, save_state_dict_cell. rewrite torch_load_save.
  simpl. rewrite (subscript_of_state_dict _ "input_size"); [done|].
  intros [(j & w & _ & H)|(w & H)]%elem_of_keys_state_dict.
  - rewrite hidden_key_eq in H. discriminate H.
  - discriminate H.
Qed.

Lemma load_checkpoint_init_irrelevant (init init' : initializer) (fs : files) (path : string) :
  load_checkpoint init fs path = load_checkpoint init' fs path.
Proof.
  unfold load_checkpoint.
  destruct (torch_load fs path) as [d|e]; [simpl|done].
  destruct (subscript d "input_size" ≫= as_int) as [i|e]; [simpl|done].
  destruct (subscript d "output_size" ≫= as_int) as [o|e]; [simpl|done].
  destruct (subscript d "hidden_layers" ≫= as_int_list) as [hs|e]; [simpl|done].
  destruct hs as [|h0 hs]; [done|].
  destruct (Network_init_spec init i o (h0 :: hs)) as (m & Hm & Hwf & Harch); [done|].
  destruct (Network_init_spec init' i o (h0 :: hs)) as (m' & Hm' & Hwf' & Harch'); [done|].
  rewrite Hm, Hm'. simpl.
  destruct (subscript d "state_dict" ≫= as_state_dict) as [sd|e]; [simpl|done].
  destruct (same_arch_same_sizes m m' Hwf Hwf') as [Hh Ho]; [congruence|].
  by apply load_state_dict_same_sizes.
Qed.

(** X11: whatever the file holds, a network returned by
    [load_checkpoint] is the one the file records: the file is a dictionary
    with the sizes under input_size, output_size and hidden_layers (a
    list that is not empty) and a state dict under state_dict; the network
    has these sizes, is well-formed, and its parameters are the tensors of
    the recorded state dict.  The values a new network starts from play no
    part: [load_checkpoint] returns this network for all of them. *)
Theorem load_checkpoint_sound (init : initializer) (fs : files) (filepath : string)
    (model : Network) :
  load_checkpoint init fs filepath = Ok model ->
  exists (checkpoint : pydict) (i o : nat) (hidden : list nat) (sd : state_dict_t),
    fs !! filepath = Some checkpoint /\
    subscript checkpoint "input_size" = Ok (VInt i) /\
    subscript checkpoint "output_size" = Ok (VInt o) /\
    subscript checkpoint "hidden_layers" = Ok (VIntList hidden) /\
    subscript checkpoint "state_dict" = Ok (VStateDict sd) /\
    hidden ≠ [] /\
    arch_of model = Arch i o hidden /\
    well_formed model = true /\
    (forall k, sd_lookup (state_dict model) k = sd_lookup sd k) /\
    (forall init', load_checkpoint init' fs filepath = Ok model).
Proof.
  intros Hload. pose proof Hload as Hload0. unfold load_checkpoint, torch_load in Hload.
  destruct (fs !! filepath) as [d|] eqn:Hfile; [simpl in Hload|done].
  destruct (subscript d "input_size") as [[i| | |]|e] eqn:Hi; try done. simpl in Hload.
  destruct (subscript d "output_size") as [[o| | |]|e] eqn:Ho; try done. simpl in Hload.
  destruct (subscript d "hidden_layers") as [[|hs| |]|e] eqn:Hh; try done. simpl in Hload.
  destruct hs as [|h0 hs]; [done|].
  destruct (Network_init_spec init i o (h0 :: hs)) as (m & Hm & Hwf & Harch); [done|].
  rewrite Hm in Hload. simpl in Hload.
  destruct (subscript d "state_dict") as [[| | |sd]|e] eqn:Hsd; try done. simpl in Hload.
  destruct (load_state_dict_Ok_spec m model sd Hload) as (Ha & Hw & _ & Hlook).
  exists d, i, o, (h0 :: hs), sd. repeat split; try done.
  - congruence.
  - by apply Hw.
  - intros init'. by rewrite (load_checkpoint_init_irrelevant init' init).
Qed.

Lemma load_checkpoint_sound_witness :
  exists (i o : nat) (hidden : list nat),
    arch_of (network_of ramp mnist_arch) = Arch i o hidden /\
    well_formed (network_of ramp mnist_arch) = true.
Proof.
  destruct (load_checkpoint_sound zeros (save_checkpoint_cell (network_of ramp mnist_arch) ∅)
              "checkpoint.pth" (network_of ramp mnist_arch))
    as (d & i & o & hidden & sd & _ & _ & _ & _ & _ & _ & Ha & Hwf & _).
  - vm_compute. reflexivity.
  - exists i, o, hidden. split; [exact Ha | exact Hwf].
Defined.

End LoadingSpec.

(** ** Runs of the training loops: how they end, and in several parts *)

Module TrainingRunsSpec.
Import Training TrainingSpec Resuming.
Local Open Scope nat_scope.

Section Loop.

Context {params grads opt_state images labels logits scalar : Type}.

Context
  (flatten : images -> result images)
  (forward : params -> images -> result logits)
  (criterion : logits -> labels -> result scalar)
  (gradient : params -> images -> labels -> result grads)
  (accumulate : grads -> grads -> grads)
  (update : opt_state -> params -> option grads -> result (opt_state * params))
  (zero : scalar)
  (add : scalar -> scalar -> scalar)
  (div : scalar -> nat -> scalar).

Local Abbreviation state := (@state params grads opt_state images labels logits scalar).
Local Abbreviation event := (@event images labels logits scalar).
Local Abbreviation DataLoader := (@DataLoader images labels).
Local Abbreviation training_pass :=
  (training_pass flatten forward criterion gradient accumulate update).
Local Abbreviation training_pass_fashion :=
  (training_pass_fashion forward criterion gradient accumulate update).
Local Abbreviation train :=
  (train flatten forward criterion gradient accumulate update zero add div).
Local Abbreviation train_fashion :=
  (train_fashion forward criterion gradient accumulate update zero add div).
Local Abbreviation accepts := (accepts forward criterion gradient).
Local Abbreviation raised_by := (raised_by forward criterion gradient update).
Local Abbreviation steps := (steps update).
Local Abbreviation epoch_events := (epoch_events zero add div).

Lemma count_epoch_events (k : kind) (seg : list event) (n : nat) :
  count k (epoch_events seg n) = count k seg.
Proof.
  unfold Training.epoch_events. rewrite count_app.
  assert (count k [EPrint (mean_loss zero add div seg n) : event] = 0) as ->
    by (by destruct k).
  lia.
Qed.

Lemma count_epochs (k : kind) (segs : list (list event)) (n : nat) :
  (forall j seg, segs !! j = Some seg -> count k seg = n) ->
  count k (concat (map (fun seg => epoch_events seg n) segs)) = length segs * n.
Proof.
  induction segs as [|seg segs IH]; intros Hsegs; [done|].
  simpl. rewrite count_app, count_epoch_events, (Hsegs 0 seg eq_refl), IH; [done|].
  intros j seg' Hj. by apply (Hsegs (S j)).
Qed.

Section AnyPass.

Variable pass : images * labels -> cell state scalar.
Variable prep : images -> result images.
Variable events_of : images -> logits -> labels -> scalar -> list event.

Hypothesis pass_ok : forall (b : images * labels) (st : state) x o l g r,
  prep b.1 = Ok x ->
  forward (model st) x = Ok o ->
  criterion o b.2 = Ok l ->
  gradient (model st) x b.2 = Ok g ->
  update (optimizer st) (model st) (Some g) = Ok r ->
  pass b st
  = (Ok l,
     {| model := r.2; grad := Some g; optimizer := r.1; stdout := stdout st;
        trace := trace st ++ events_of x o b.2 l |}).

Hypothesis events_losses : forall x o y l, losses_of (events_of x o y l) = [l].

Hypothesis events_count : forall x o y l k, count k (events_of x o y l) = 1.

Local Abbreviation run := (run zero add div pass).

Lemma run_completes (epochs : nat) (trainloader : DataLoader) (st : state) :
  steps ->
  (forall e b, e < epochs -> b ∈ batches trainloader e -> accepts prep b) ->
  epochs = 0 \/ len trainloader ≠ 0 ->
  exists st' : state,
    run epochs trainloader st = (Ok (), st') /\
    length (stdout st') = length (stdout st) + epochs /\
    forall k, count k (trace st') = count k (trace st) + epochs * len trainloader.
Proof.
  intros Hsteps Hacc [->|Hlen].
  - exists st. split; [done|]. split; [lia|]. intros k. lia.
  - destruct (epochs_from_spec forward criterion gradient update zero add div pass prep
                events_of pass_ok events_losses events_count trainloader epochs 0 st Hlen)
      as (segs & st' & Hrun & Hn & Htr & Hout & Hsegs).
    { intros e b He. apply Hacc. lia. }
    { done. }
    exists st'. split; [exact Hrun|]. split.
    + by rewrite Hout, length_app, length_map, Hn.
    + intros k. rewrite Htr, count_app, count_epochs, Hn; [done|].
      intros j seg Hj. by apply (Hsegs j seg Hj).
Qed.

Lemma run_empty_loader (epochs : nat) (trainloader : DataLoader) (st : state) :
  epochs ≠ 0 -> len trainloader = 0 ->
  run epochs trainloader st = (Raise ZeroDivisionError, st).
Proof.
  intros He Hlen. destruct epochs as [|n]; [done|].
  unfold Training.run. cbn [Training.epochs_from].
  apply cell_bind_Raise. by apply epoch_empty.
Qed.

End AnyPass.

(** Epochs of a run, one part after the other: for any pass. *)
Lemma epochs_from_add (pass : images * labels -> cell state scalar)
    (trainloader : DataLoader) (e n m : nat) (st : state) :
  epochs_from zero add div pass trainloader e (n + m) st
  = match epochs_from zero add div pass trainloader e n st with
    | (Ok _, st1) => epochs_from zero add div pass trainloader (e + n) m st1
    | (Raise x, st1) => (Raise x, st1)
    end.
Proof.
  revert e st. induction n as [|n IH]; intros e st.
  - simpl. by rewrite Nat.add_0_r.
  - cbn [Nat.add Training.epochs_from]. unfold mbind, cell_bind.
    destruct (epoch zero add div pass trainloader e st) as [[[]|x] st1]; [|done].
    rewrite IH. by replace (S e + n) with (e + S n) by lia.
Qed.

Lemma epochs_from_later (pass : images * labels -> cell state scalar)
    (trainloader : DataLoader) (n e m : nat) (st : state) :
  epochs_from zero add div pass (later n trainloader) e m st
  = epochs_from zero add div pass trainloader (n + e) m st.
Proof.
  revert e st. induction m as [|m IH]; intros e st; [done|].
  cbn [Training.epochs_from]. unfold mbind, cell_bind.
  change (epoch zero add div pass (later n trainloader) e st)
    with (epoch zero add div pass trainloader (n + e) st).
  destruct (epoch zero add div pass trainloader (n + e) st) as [[[]|x] st1]; [|done].
  rewrite IH. by replace (n + S e) with (S (n + e)) by lia.
Qed.

(** X12: how a run of either training loop ends.  With no epochs to run,
    or with a loader that yields batches, when the library takes the
    batches of the run, the run completes: it prints one line per epoch, and
    makes epochs times [len(trainloader)] calls of each kind (gradient
    zeroings, forward passes, loss evaluations, backward passes, optimizer
    steps).  With at least one epoch and a loader without batches it raises
    [ZeroDivisionError] in the first epoch, before any call or line.  A run
    that raises raises either that, on a loader without batches, or the
    exception one of the calls of a pass raised on a batch of the run: of the
    view, the model, the criterion, the backward pass or the optimizer
    step. *)
Theorem train_outcome (epochs : nat) (trainloader : DataLoader) (st : state) :
  (steps ->
   (forall e b, e < epochs -> b ∈ batches trainloader e -> accepts flatten b) ->
   epochs = 0 \/ len trainloader ≠ 0 ->
   exists st1 : state,
     train epochs trainloader st = (Ok (), st1) /\
     length (stdout st1) = length (stdout st) + epochs /\
     forall k, count k (trace st1) = count k (trace st) + epochs * len trainloader) /\
  (steps ->
   (forall e b, e < epochs -> b ∈ batches trainloader e -> accepts Ok b) ->
   epochs = 0 \/ len trainloader ≠ 0 ->
   exists st2 : state,
     train_fashion epochs trainloader st = (Ok (), st2) /\
     length (stdout st2) = length (stdout st) + epochs /\
     forall k, count k (trace st2) = count k (trace st) + epochs * len trainloader) /\
  (epochs ≠ 0 -> len trainloader = 0 ->
   train epochs trainloader st = (Raise ZeroDivisionError, st) /\
   train_fashion epochs trainloader st = (Raise ZeroDivisionError, st)) /\
  (forall x st',
     train epochs trainloader st = (Raise x, st') ->
     (x = ZeroDivisionError /\ len trainloader = 0) \/
     (exists e b, e < epochs /\ b ∈ batches trainloader e /\ raised_by flatten b x)) /\
  (forall x st',
     train_fashion epochs trainloader st = (Raise x, st') ->
     (x = ZeroDivisionError /\ len trainloader = 0) \/
     (exists e b, e < epochs /\ b ∈ batches trainloader e /\ raised_by Ok b x)).
Proof.
  split; [|split; [|split; [|split]]].
  - apply (run_completes training_pass flatten pass_events
             (training_pass_ok flatten forward criterion gradient accumulate update)
             pass_events_losses pass_events_count).
  - apply (run_completes training_pass_fashion Ok pass_events_fashion
             (training_pass_fashion_ok forward criterion gradient accumulate update)
             pass_events_fashion_losses pass_events_fashion_count).
  - intros He Hlen. split; by apply run_empty_loader.
  - intros x st' Hrun.
    destruct (epochs_from_raise forward criterion gradient update zero add div
                training_pass flatten
                (training_pass_raise flatten forward criterion gradient accumulate update)
                trainloader epochs 0 st st' x Hrun) as [?|(e & b & He & Hb & Hr)];
      [by left|]. right. exists e, b. split; [lia|done].
  - intros x st' Hrun.
    destruct (epochs_from_raise forward criterion gradient update zero add div
                training_pass_fashion Ok
                (training_pass_fashion_raise forward criterion gradient accumulate update)
                trainloader epochs 0 st st' x Hrun) as [?|(e & b & He & Hb & Hr)];
      [by left|]. right. exists e, b. split; [lia|done].
Qed.

(** X13: a run in two parts.  Training for [n + m] epochs is training for
    [n] epochs and then, from the state reached, for [m] more epochs on the
    iterations of the loader that follow; when the first [n] epochs raise, so
    do the [n + m], in the same state.  This holds for both loops. *)
Theorem train_resume (n m : nat) (trainloader : DataLoader) (st st1 : state) :
  (train n trainloader st = (Ok (), st1) ->
   train (n + m) trainloader st = train m (later n trainloader) st1) /\
  (train_fashion n trainloader st = (Ok (), st1) ->
   train_fashion (n + m) trainloader st = train_fashion m (later n trainloader) st1) /\
  (forall x, train n trainloader st = (Raise x, st1) ->
             train (n + m) trainloader st = (Raise x, st1)) /\
  (forall x, train_fashion n trainloader st = (Raise x, st1) ->
             train_fashion (n + m) trainloader st = (Raise x, st1)).
Proof.
  unfold Training.train, Training.train_fashion, run.
  rewrite !epochs_from_add, !epochs_from_later. simpl.
  split; [|split; [|split]].
  - intros ->. by rewrite Nat.add_0_r.
  - intros ->. by rewrite Nat.add_0_r.
  - by intros x ->.
  - by intros x ->.
Qed.

End Loop.

Lemma train_outcome_witness :
  exists st1,
    toy_train 2 toy_loader toy_state = (Ok (), st1) /\
    length (stdout st1) = 2 /\
    count KStep (trace st1) = 4.
Proof.
  destruct (proj1 (train_outcome toy_flatten toy_forward toy_criterion toy_gradient Z.add
                     toy_update 0%Q toy_add toy_div 2 toy_loader toy_state))
    as (st1 & Hrun & Hout & Hcount).
  - intros o p g. exact I.
  - intros e b He Hb. simpl in Hb.
    apply elem_of_cons in Hb as [->|Hb]; [|apply list_elem_of_singleton in Hb as ->].
    + exists [1%Z]. split; [reflexivity|]. intros p. by eexists _, _, _.
    + exists [Z.abs (Z.of_nat e)]. split; [reflexivity|]. intros p. by eexists _, _, _.
  - right. simpl. lia.
  - exists st1. split; [exact Hrun|]. split; [exact Hout|]. exact (Hcount KStep).
Defined.

Lemma train_resume_witness :
  toy_train (1 + 1) toy_loader toy_state
  = toy_train 1 (later 1 toy_loader) (toy_train 1 toy_loader toy_state).2.
Proof.
  apply (proj1 (train_resume toy_flatten toy_forward toy_criterion toy_gradient Z.add
                  toy_update 0%Q toy_add toy_div 1 1 toy_loader toy_state
                  (toy_train 1 toy_loader toy_state).2)).
  vm_compute. reflexivity.
Defined.

End TrainingRunsSpec.

(** ** The forward pass of the classifiers *)

Module ForwardSpec.
Import Checkpoint Forward.
Local Open Scope nat_scope.

Lemma length_row_concat {A} (k : nat) (rs : list (list A)) :
  Forall (fun r => length r = k) rs -> length (concat rs) = length rs * k.
Proof. induction 1 as [|r rs Hr _ IH]; [done|]. simpl. rewrite length_app, IH, Hr. lia. Qed.

Lemma row_concat (k i : nat) (rs : list (list Q)) (r : list Q) :
  Forall (fun r => length r = k) rs -> rs !! i = Some r -> row k i (concat rs) = r.
Proof.
  unfold row. intros Hall. revert i. induction Hall as [|r0 rs Hr _ IH]; intros i Hi.
  - by rewrite lookup_nil in Hi.
  - destruct i as [|i]; simpl in Hi.
    + injection Hi as ->. subst k. simpl. by rewrite drop_0, take_app_length.
    + simpl. replace (k + i * k) with (length r0 + i * k) by lia.
      rewrite drop_app_add'; [|done]. by apply IH.
Qed.

Lemma length_rows n k d : length (rows n k d) = n.
Proof. unfold rows. by rewrite length_map, length_seq. Qed.

Lemma rows_lookup n k d i : i < n -> rows n k d !! i = Some (row k i d).
Proof. intros Hi. unfold rows. by rewrite list_lookup_fmap, lookup_seq_lt. Qed.

Lemma rows_concat (k : nat) (rs : list (list Q)) :
  Forall (fun r => length r = k) rs -> rows (length rs) k (concat rs) = rs.
Proof.
  intros Hall. apply list_eq. intros i.
  destruct (decide (i < length rs)) as [Hi|Hi].
  - rewrite rows_lookup by done.
    destruct (lookup_lt_is_Some_2 rs i Hi) as [r Hr]. rewrite Hr.
    f_equal. by apply row_concat.
  - rewrite !lookup_ge_None_2; [done|lia|rewrite length_rows; lia].
Qed.

Lemma length_linear_row l i o r : length (linear_row l i o r) = o.
Proof. unfold linear_row. by rewrite length_map, length_seq. Qed.

Lemma relu_concat (rs : list (list Q)) :
  relu_row (concat rs) = concat (map relu_row rs).
Proof.
  unfold relu_row. induction rs as [|r rs IH]; [done|]. simpl. by rewrite map_app, IH.
Qed.

Lemma has_sizes_inv l i o :
  has_sizes l i o = true -> shape (weight l) = [o; i] /\ shape (bias l) = [o].
Proof.
  unfold has_sizes. intros [H1 H2]%andb_prop.
  by apply bool_decide_eq_true_1 in H1, H2.
Qed.

(** A layer applied to a matrix whose rows it accepts. *)
Lemma Linear_call_rows l i o n d :
  has_sizes l i o = true ->
  Linear_call l {| shape := [n; i]; data := d |}
  = Done {| shape := [n; o]; data := concat (map (linear_row l i o) (rows n i d)) |}.
Proof.
  intros [Hw Hb]%has_sizes_inv. unfold Linear_call. simpl. rewrite Hw.
  rewrite decide_True by done. by rewrite decide_True.
Qed.

Lemma Linear_call_mismatch l i o n k d :
  has_sizes l i o = true -> k ≠ i ->
  Linear_call l {| shape := [n; k]; data := d |} = Fail (ShapeMismatch [n; k] [i; o]).
Proof.
  intros [Hw Hb]%has_sizes_inv Hne. unfold Linear_call. simpl. rewrite Hw.
  rewrite decide_True by done. by rewrite decide_False.
Qed.

Lemma numel_cons_div n rest : n ≠ 0 -> numel (n :: rest) / n = numel rest.
Proof. intros Hn. simpl. rewrite Nat.mul_comm. by apply Nat.div_mul. Qed.

Lemma Classifier_ok_inv c :
  Classifier_ok c = true ->
  has_sizes (fc1 c) 784 256 = true /\ has_sizes (fc2 c) 256 128 = true /\
  has_sizes (fc3 c) 128 64 = true /\ has_sizes (fc4 c) 64 10 = true.
Proof. unfold Classifier_ok. intros [[[H1 H2]%andb_prop H3]%andb_prop H4]%andb_prop. done. Qed.

Section Library.

Variable log_softmax_row : list Q -> list Q.
Variable exp : Q -> Q.

Local Abbreviation forward := (forward log_softmax_row).
Local Abbreviation forward_row := (forward_row log_softmax_row).

(** The forward pass on a batch of [n] images of 784 pixels returns, and
    in the exact arithmetic of the model its entries are those of the rows
    taken one by one; this gives the shape and the number of entries. *)
Lemma forward_rows (c : Classifier) (x : tensor) (n : nat) (rest : list nat) :
  Classifier_ok c = true ->
  shape x = n :: rest -> n ≠ 0 -> numel rest = 784 ->
  forward c x
  = Done {| shape := [n; 10];
            data := concat (map (forward_row c) (rows n 784 (data x))) |}.
Proof.
  intros (H1 & H2 & H3 & H4)%Classifier_ok_inv Hsh Hn Hpix.
  set (rs0 := rows n 784 (data x)).
  assert (length rs0 = n) as Hlen by apply length_rows.
  assert (forall (k : nat) (f : list Q -> list Q),
            (forall r, length (f r) = k) ->
            rows n k (concat (map f rs0)) = map f rs0) as Hrows.
  { intros k f Hf. rewrite <- Hlen at 1. rewrite <- (length_map f). apply rows_concat.
    apply Forall_forall. intros r (r0 & -> & _)%list_elem_of_fmap. apply Hf. }
  assert (forall r, length (relu_row r) = length r) as Hrelu
    by (intros r; apply length_map).
  unfold Forward.forward, view_rows. rewrite Hsh, decide_False by done.
  rewrite numel_cons_div, Hpix by done. cbn [mbind outcome_bind].
  rewrite (Linear_call_rows _ 784 256) by done. cbn [mbind outcome_bind].
  unfold relu. cbn [shape data]. fold rs0. rewrite relu_concat, map_map.
  rewrite (Linear_call_rows _ 256 128) by done. cbn [mbind outcome_bind].
  cbn [shape data].
  rewrite (Hrows 256) by (intros r; by rewrite Hrelu, length_linear_row).
  rewrite relu_concat, !map_map.
  rewrite (Linear_call_rows _ 128 64) by done. cbn [mbind outcome_bind].
  cbn [shape data].
  rewrite (Hrows 128) by (intros r; by rewrite Hrelu, length_linear_row).
  rewrite relu_concat, !map_map.
  rewrite (Linear_call_rows _ 64 10) by done. cbn [mbind outcome_bind].
  rewrite (Hrows 64) by (intros r; by rewrite Hrelu, length_linear_row).
  rewrite !map_map.
  unfold log_softmax. cbn [shape data].
  rewrite (Hrows 10) by (intros r; by rewrite length_linear_row).
  rewrite !map_map. reflexivity.
Qed.

Hypothesis log_softmax_row_length : forall r, length (log_softmax_row r) = length r.

Lemma length_forward_row (c : Classifier) (r : list Q) : length (forward_row c r) = 10.
Proof.
  unfold Forward.forward_row. by rewrite log_softmax_row_length, length_linear_row.
Qed.

(** X14: what [Classifier.forward] returns, for a classifier whose
    parameters have the shapes of [__init__] and any input tensor.  A tensor
    without dimensions makes [x.shape[0]] raise; a first dimension 0 makes
    the view ambiguous.  A batch of [n] images whose other dimensions
    multiply to 784, in any layout, gives a tensor of shape [n, 10] with
    [n * 10] entries; any other number of entries per image raises the
    shape error of the first layer, for the shapes [n, k] and
    [784, 256]. *)
Theorem forward_outcome (c : Classifier) (x : tensor) :
  Classifier_ok c = true ->
  (shape x = [] -> forward c x = Fail TupleIndexError) /\
  (forall rest, shape x = 0 :: rest -> forward c x = Fail (AmbiguousView (0 :: rest))) /\
  (forall n rest, shape x = n :: rest -> n ≠ 0 -> numel rest ≠ 784 ->
     forward c x = Fail (ShapeMismatch [n; numel rest] [784; 256])) /\
  (forall n rest, shape x = n :: rest -> n ≠ 0 -> numel rest = 784 ->
     exists y, forward c x = Done y /\ shape y = [n; 10] /\ length (data y) = n * 10).
Proof.
  intros Hok. split; [|split; [|split]].
  - intros Hsh. unfold Forward.forward, view_rows. by rewrite Hsh.
  - intros rest Hsh. unfold Forward.forward, view_rows. by rewrite Hsh.
  - intros n rest Hsh Hn Hpix. apply Classifier_ok_inv in Hok as (H1 & _).
    unfold Forward.forward, view_rows. rewrite Hsh, decide_False by done.
    rewrite numel_cons_div by done. cbn [mbind outcome_bind].
    by rewrite (Linear_call_mismatch _ 784 256).
  - intros n rest Hsh Hn Hpix. eexists. split; [by eapply forward_rows|].
    split; [done|]. cbn [data].
    rewrite (length_row_concat 10).
    + by rewrite length_map, length_rows.
    + apply Forall_forall. intros r (r0 & -> & _)%list_elem_of_fmap.
      apply length_forward_row.
Qed.

Local Abbreviation Sequential_call := (Sequential_call log_softmax_row).
Local Abbreviation forward_cell := (forward_cell log_softmax_row).
Local Abbreviation predict_cell := (predict_cell log_softmax_row exp).
Local Abbreviation mnist_row := (mnist_row log_softmax_row).

(** The network of the training notebook on a matrix of [n] rows of 784
    entries returns, and in the exact arithmetic of the model its entries
    are those of the rows taken one by one; this gives the shape and the
    number of entries. *)
Lemma mnist_model_rows (l1 l2 l3 : Linear) (n : nat) (d : list Q) :
  has_sizes l1 784 128 = true -> has_sizes l2 128 64 = true -> has_sizes l3 64 10 = true ->
  Sequential_call (mnist_model l1 l2 l3) {| shape := [n; 784]; data := d |}
  = Done {| shape := [n; 10];
            data := concat (map (mnist_row l1 l2 l3) (rows n 784 d)) |}.
Proof.
  intros H1 H2 H3.
  set (rs0 := rows n 784 d).
  assert (length rs0 = n) as Hlen by apply length_rows.
  assert (forall (k : nat) (f : list Q -> list Q),
            (forall r, length (f r) = k) ->
            rows n k (concat (map f rs0)) = map f rs0) as Hrows.
  { intros k f Hf. rewrite <- Hlen at 1. rewrite <- (length_map f). apply rows_concat.
    apply Forall_forall. intros r (r0 & -> & _)%list_elem_of_fmap. apply Hf. }
  assert (forall r, length (relu_row r) = length r) as Hrelu
    by (intros r; apply length_map).
  unfold mnist_model. cbn [Forward.Sequential_call module_call].
  rewrite (Linear_call_rows _ 784 128) by done. cbn [mbind outcome_bind].
  unfold relu. cbn [shape data]. fold rs0. rewrite relu_concat, map_map.
  rewrite (Linear_call_rows _ 128 64) by done. cbn [mbind outcome_bind].
  cbn [shape data].
  rewrite (Hrows 128) by (intros r; by rewrite Hrelu, length_linear_row).
  rewrite relu_concat, !map_map.
  rewrite (Linear_call_rows _ 64 10) by done. cbn [mbind outcome_bind].
  rewrite (Hrows 64) by (intros r; by rewrite Hrelu, length_linear_row).
  rewrite !map_map.
  unfold log_softmax. cbn [shape data].
  rewrite (Hrows 10) by (intros r; by rewrite length_linear_row).
  rewrite !map_map. reflexivity.
Qed.

Lemma length_mnist_row (l1 l2 l3 : Linear) (r : list Q) : length (mnist_row l1 l2 l3 r) = 10.
Proof.
  unfold Forward.mnist_row. by rewrite log_softmax_row_length, length_linear_row.
Qed.

(** X16: the flattening and the forward pass of the training cells, for
    the network [nn.Sequential] builds there with layers of the shapes
    given.  A batch of [n] images whose other dimensions multiply to 784
    gives log-probabilities of shape [n, 10] with [n * 10] entries; any other
    number of entries per image raises the shape error of the first layer,
    for the shapes [n, k] and [784, 128]. *)
Theorem forward_cell_outcome (l1 l2 l3 : Linear) (images : tensor) (n : nat)
    (rest : list nat) :
  has_sizes l1 784 128 = true -> has_sizes l2 128 64 = true -> has_sizes l3 64 10 = true ->
  shape images = n :: rest ->
  n ≠ 0 ->
  (numel rest = 784 ->
   exists logps, forward_cell (mnist_model l1 l2 l3) images = Done logps /\
                 shape logps = [n; 10] /\ length (data logps) = n * 10) /\
  (numel rest ≠ 784 ->
   forward_cell (mnist_model l1 l2 l3) images
   = Fail (ShapeMismatch [n; numel rest] [784; 128])).
Proof.
  intros H1 H2 H3 Hsh Hn. unfold Forward.forward_cell, view_rows.
  rewrite Hsh, decide_False by done. rewrite numel_cons_div by done.
  cbn [mbind outcome_bind]. split.
  - intros ->. rewrite mnist_model_rows by done. eexists. split; [done|]. split; [done|].
    cbn [data]. rewrite (length_row_concat 10).
    + by rewrite length_map, length_rows.
    + apply Forall_forall. intros r (r0 & -> & _)%list_elem_of_fmap.
      apply length_mnist_row.
  - intros Hpix. unfold mnist_model. cbn [Forward.Sequential_call module_call].
    by rewrite (Linear_call_mismatch _ 784 128).
Qed.

(** X17: the cell that shows the prediction for [images[0]], for the
    network of the training cell.  On an empty batch [images[0]] raises
    [IndexError]; when an image does not have 784 entries [view(1, 784)]
    raises; otherwise the model takes the one flattened image and the cell
    ends with class probabilities [ps] of shape [1, 10], with 10 entries. *)
Theorem predict_cell_outcome (l1 l2 l3 : Linear) (images : tensor) (n : nat)
    (rest : list nat) :
  has_sizes l1 784 128 = true -> has_sizes l2 128 64 = true -> has_sizes l3 64 10 = true ->
  shape images = n :: rest ->
  (n = 0 -> predict_cell (mnist_model l1 l2 l3) images = Fail (TensorIndexError 0 0)) /\
  (n ≠ 0 -> numel rest ≠ 784 ->
   predict_cell (mnist_model l1 l2 l3) images = Fail (InvalidView [1; 784] (numel rest))) /\
  (n ≠ 0 -> numel rest = 784 ->
   exists ps : tensor,
     predict_cell (mnist_model l1 l2 l3) images = Done ps /\
     shape ps = [1; 10] /\ length (data ps) = 10).
Proof.
  intros H1 H2 H3 Hsh. unfold Forward.predict_cell, tensor_getitem. rewrite Hsh.
  split; [|split].
  - intros ->. by rewrite decide_False by lia.
  - intros Hn Hpix. rewrite decide_True by lia. cbn [mbind outcome_bind].
    unfold view. cbn [shape]. rewrite decide_False; [done|]. simpl. lia.
  - intros Hn Hpix. rewrite decide_True by lia. cbn [mbind outcome_bind].
    unfold view. cbn [shape data]. rewrite decide_True by (simpl; lia).
    cbn [mbind outcome_bind]. rewrite mnist_model_rows by done.
    cbn [mbind outcome_bind mret outcome_ret]. eexists. split; [reflexivity|].
    unfold torch_exp. cbn [shape data]. split; [done|].
    rewrite length_map, (length_row_concat 10).
    + by rewrite length_map, length_rows.
    + apply Forall_forall. intros r (r0 & -> & _)%list_elem_of_fmap.
      apply length_mnist_row.
Qed.

End Library.

Lemma shift_row_length (r : list Q) : length (shift_row r) = length r.
Proof. apply length_map. Qed.

Lemma forward_outcome_witness :
  exists y, forward shift_row (Classifier_init zeros) example_images = Done y /\
            shape y = [2; 10] /\ length (data y) = 20.
Proof.
  destruct (forward_outcome shift_row shift_row_length (Classifier_init zeros) example_images)
    as (_ & _ & _ & H).
  - vm_compute. reflexivity.
  - apply (H 2 [1; 28; 28]).
    + reflexivity.
    + lia.
    + reflexivity.
Defined.

Lemma forward_cell_outcome_witness :
  exists logps,
    forward_cell shift_row (mnist_model_init zeros) example_images = Done logps /\
    shape logps = [2; 10] /\ length (data logps) = 20.
Proof.
  destruct (forward_cell_outcome shift_row shift_row_length
              (Linear_init zeros 0 784 128) (Linear_init zeros 1 128 64)
              (Linear_init zeros 2 64 10) example_images 2 [1; 28; 28]) as [H _].
  - vm_compute. reflexivity.
  - vm_compute. reflexivity.
  - vm_compute. reflexivity.
  - reflexivity.
  - lia.
  - apply H. reflexivity.
Defined.

Lemma predict_cell_outcome_witness :
  exists ps : tensor,
    predict_cell shift_row (fun v => v) (mnist_model_init zeros) example_images = Done ps /\
    shape ps = [1; 10] /\ length (data ps) = 10.
Proof.
  destruct (predict_cell_outcome shift_row (fun v => v) shift_row_length
              (Linear_init zeros 0 784 128) (Linear_init zeros 1 128 64)
              (Linear_init zeros 2 64 10) example_images 2 [1; 28; 28]) as (_ & _ & H).
  - vm_compute. reflexivity.
  - vm_compute. reflexivity.
  - vm_compute. reflexivity.
  - reflexivity.
  - apply H; [lia | reflexivity].
Defined.

End ForwardSpec.
